(** * Observation node and model serializer of the factor-analysis engine

    A shallow embedding of [biofam/core/nodes/Y_nodes.py] (class [Y_Node])
    and of [biofam/build_model/save_model.py] (class [saveModel]), with the
    properties of the masked ELBO term, of the observed counts, of the mask
    step and of the persisted layout.

    Conventions of the embedding.
    - Python floats are an abstract carrier [F] with the operations the two
      files apply to them ([FloatOps]); no algebraic law is assumed of them.
      Sums ([.sum()], [s.sum], the inner sums of [dot]) run over the entries
      in index order.
    - A 2-D numpy array is an [ndarray]: its [shape] and its rows.  The
      array operations are given entry by entry, as numpy defines them;
      combining arrays of different shapes is an error here (numpy's
      broadcasting of unequal shapes is not modelled).
    - A numpy mask is always a full boolean array ([nomask] is the array of
      [false]).
    - Python exceptions are values of [PyErr]; an [assert] raises
      [AssertionError].
    - A Python [dict] is an insertion-ordered association list ([dict]).
    - A Python [str] is a [string]; a character with a code below 128 is
      an ASCII character.
    - Objects that are shared by reference (expectation arrays, the
      training-options dictionary) live in a [heap] and are named by their
      location. *)

From Stdlib Require Import ZArith QArith Lia Sorted.
From stdpp Require Import base list strings.

(** ** Exceptions *)

Inductive PyErr : Type :=
  | AssertionError (msg : string)
  | KeyError (key : string)
  | AttributeError (attr : string)
  | TypeError
  | IndexError
  | ValueError
  | UnicodeEncodeError.     (* a ValueError by its class; raised by str to bytes *)

Definition res (A : Type) : Type := PyErr + A.

Definition ok {A} (x : A) : res A := inr x.
Definition raise {A} (e : PyErr) : res A := inl e.

Definition rbind {A B} (c : res A) (k : A → res B) : res B :=
  match c with
  | inl e => inl e
  | inr x => k x
  end.

Notation "'let?' x := c 'in' k" := (rbind c (λ x, k))
  (at level 10, x pattern, c at level 100, k at level 200).

Definition of_option {A} (e : PyErr) (o : option A) : res A :=
  match o with
  | Some x => ok x
  | None => raise e
  end.

(** ** Floating-point interface *)

Class FloatOps (F : Type) : Type := {
  zero : F;                 (* 0. *)
  half : F;                 (* 0.5 *)
  two : F;                  (* 2 and 2. *)
  nan : F;                  (* np.nan *)
  log_2pi : F;              (* s.log(2.*s.pi) *)
  default_fill : F;         (* numpy's default fill value of a float array *)
  add : F → F → F;
  sub : F → F → F;
  mul : F → F → F;
  neg : F → F;
  of_int : Z → F;           (* int to float in mixed arithmetic *)
  isfinite : F → bool;      (* np.isfinite *)
  feqb : F → F → bool;      (* == on floats *)
  parse_float : string → option F   (* float(s) of a string, if it parses *)
}.

Global Instance float_inhabited `{FloatOps F} : Inhabited F := populate zero.

Definition fsum `{FloatOps F} (l : list F) : F := foldl add zero l.
Definition square `{FloatOps F} (x : F) : F := mul x x.

(** ** Python dictionaries *)

(* keys in insertion order, each key once *)
Definition assoc (K V : Type) : Type := list (K * V).
Definition dict (V : Type) : Type := assoc string V.

Section assoc.
Context {K V : Type} `{EqDecision K}.

(* d.get(k) *)
Fixpoint dget (k : K) (d : assoc K V) : option V :=
  match d with
  | [] => None
  | (k', v) :: d' => if decide (k' = k) then Some v else dget k d'
  end.

(* d[k] = v : an existing key keeps its place, a new one goes last *)
Fixpoint dset (k : K) (v : V) (d : assoc K V) : assoc K V :=
  match d with
  | [] => [(k, v)]
  | (k', v') :: d' =>
      if decide (k' = k) then (k, v) :: d' else (k', v') :: dset k v d'
  end.

(* the dictionary without key k *)
Fixpoint ddel (k : K) (d : assoc K V) : assoc K V :=
  match d with
  | [] => []
  | (k', v') :: d' => if decide (k' = k) then d' else (k', v') :: ddel k d'
  end.

(* k in d *)
Definition dmem (k : K) (d : assoc K V) : bool :=
  match dget k d with
  | Some _ => true
  | None => false
  end.

Definition dkeys (d : assoc K V) : list K := map fst d.
Definition dvalues (d : assoc K V) : list V := map snd d.
End assoc.

(* d[k] as an expression *)
Definition dsub {V} (k : string) (d : dict V) : res V :=
  of_option (KeyError k) (dget k d).

(** ** Two-dimensional arrays *)

Record ndarray (A : Type) : Type := NdArray {
  shape : nat * nat;
  data : list (list A)
}.
Arguments NdArray {A} _ _.
Arguments shape {A} _.
Arguments data {A} _.

Definition wf {A} (a : ndarray A) : Prop :=
  length (data a) = (shape a).1 ∧ Forall (λ r, length r = (shape a).2) (data a).

Definition get {A} `{Inhabited A} (a : ndarray A) (i j : nat) : A :=
  default inhabitant (data a !! i ≫= (.!! j)).

Definition tabulate {A} (n d : nat) (f : nat → nat → A) : ndarray A :=
  NdArray (n, d) ((λ i, f i <$> seq 0 d) <$> seq 0 n).

Section arrays.
Context {A : Type} `{Inhabited A}.

(* a.T *)
Definition transpose (a : ndarray A) : ndarray A :=
  tabulate (shape a).2 (shape a).1 (λ i j, get a j i).

(* a[ix, :] for a list of row indices *)
Definition take_rows (ix : list nat) (a : ndarray A) : res (ndarray A) :=
  if forallb (λ i, bool_decide (i < (shape a).1)) ix
  then ok (NdArray (length ix, (shape a).2)
                   ((λ i, (λ j, get a i j) <$> seq 0 (shape a).2) <$> ix))
  else raise IndexError.

(* a[m] = v for a boolean array m *)
Definition setmask (a : ndarray A) (m : ndarray bool) (v : A) : res (ndarray A) :=
  if decide (shape a = shape m)
  then ok (tabulate (shape a).1 (shape a).2
                    (λ i j, if get m i j then v else get a i j))
  else raise IndexError.
End arrays.

(* a unary ufunc *)
Definition amap {A B} `{Inhabited A} (f : A → B) (a : ndarray A) : ndarray B :=
  tabulate (shape a).1 (shape a).2 (λ i j, f (get a i j)).

(* a binary ufunc on arrays of one shape *)
Definition zip2 {A B C} `{Inhabited A, Inhabited B}
    (f : A → B → C) (a : ndarray A) (b : ndarray B) : res (ndarray C) :=
  if decide (shape a = shape b)
  then ok (tabulate (shape a).1 (shape a).2 (λ i j, f (get a i j) (get b i j)))
  else raise ValueError.

Section float_arrays.
Context {F : Type} `{FloatOps F}.

(* a.dot(b) *)
Definition dot (a b : ndarray F) : res (ndarray F) :=
  if decide ((shape a).2 = (shape b).1)
  then ok (tabulate (shape a).1 (shape b).2
             (λ i j, fsum ((λ k, mul (get a i k) (get b k j)) <$> seq 0 (shape a).2)))
  else raise ValueError.

(* a.sum() *)
Definition asum (a : ndarray F) : F := fsum (concat (data a)).
End float_arrays.

Definition b2z (b : bool) : Z := if b then 1%Z else 0%Z.
Definition zsum (l : list Z) : Z := foldr Z.add 0%Z l.

(* m.sum(axis=0): the rows added up, one count per column *)
Definition sum_axis0 (m : ndarray bool) : list Z :=
  foldr (zip_with Z.add) (replicate (shape m).2 0%Z) (map (map b2z) (data m)).

(* m.sum(axis=1): one count per row *)
Definition sum_axis1 (m : ndarray bool) : list Z :=
  map (λ r, zsum (map b2z r)) (data m).

(** ** The observation node ([Y_nodes.py]) *)

Section Y_nodes.
Context {F : Type} `{FloatOps F}.

(* a numpy.ma.MaskedArray: the data, the mask, the fill value *)
Record MaskedArray : Type := {
  ma_data : ndarray F;
  ma_mask : ndarray bool;
  fill_value : F
}.

(* what a node's [value] can hold: an ndarray or a MaskedArray *)
Inductive Value : Type :=
  | Plain (a : ndarray F)
  | Masked (m : MaskedArray).

(* ma.masked_invalid: mask the entries that are not finite *)
Definition masked_invalid (a : ndarray F) : MaskedArray :=
  {| ma_data := a;
     ma_mask := amap (λ x, negb (isfinite x)) a;
     fill_value := default_fill |}.

(* ma.set_fill_value *)
Definition set_fill_value (m : MaskedArray) (v : F) : MaskedArray :=
  {| ma_data := ma_data m; ma_mask := ma_mask m; fill_value := v |}.

(* ma.getmask; an ndarray has [nomask] *)
Definition getmask (v : Value) : ndarray bool :=
  match v with
  | Plain a => tabulate (shape a).1 (shape a).2 (λ _ _, false)
  | Masked m => ma_mask m
  end.

Definition value_data (v : Value) : ndarray F :=
  match v with
  | Plain a => a
  | Masked m => ma_data m
  end.

(* what [getExpectations()] of a neighbour returns: moments by name *)
Definition Expectations : Type := dict (ndarray F).

(* The attributes of a [Y_Node].  [N], [D] and [likconst] exist once
   [precompute] has run.  A neighbour in the Markov blanket is held by the
   dictionary its [getExpectations()] returns. *)
Record Y_Node : Type := {
  dim : nat * nat;
  value : Value;
  mini_batch : option Value;
  N : option (list Z);
  D : option (list Z);
  likconst : option F;
  markov_blanket : dict Expectations
}.

Definition with_value (v : Value) (nd : Y_Node) : Y_Node :=
  {| dim := dim nd; value := v; mini_batch := mini_batch nd; N := N nd;
     D := D nd; likconst := likconst nd; markov_blanket := markov_blanket nd |}.

Definition with_mini_batch (b : option Value) (nd : Y_Node) : Y_Node :=
  {| dim := dim nd; value := value nd; mini_batch := b; N := N nd;
     D := D nd; likconst := likconst nd; markov_blanket := markov_blanket nd |}.

(* Y_Node.mask *)
Definition mask (nd : Y_Node) : Y_Node :=
  let v := match value nd with
           | Plain a => masked_invalid a
           | Masked m => m
           end in
  with_value (Masked (set_fill_value v zero)) nd.

(* Y_Node.__init__; the parent constructor stores [dim] and [value] *)
Definition Y_Node_init (dim : nat * nat) (value : Value) : Y_Node :=
  with_mini_batch None
    (mask {| dim := dim; value := value; mini_batch := None; N := None;
             D := None; likconst := None; markov_blanket := [] |}).

(* Y_Node.getMask *)
Definition getMask (nd : Y_Node) : ndarray bool :=
  match mini_batch nd with
  | None => getmask (value nd)
  | Some b => getmask b
  end.

(* the inherited getExpectation of a constant node: its value *)
Definition getExpectation (nd : Y_Node) : Value := value nd.

(* self.value[ix, :] *)
Definition value_rows (ix : list nat) (v : Value) : res Value :=
  match v with
  | Plain a => let? r := take_rows ix a in ok (Plain r)
  | Masked m =>
      let? r := take_rows ix (ma_data m) in
      let? k := take_rows ix (ma_mask m) in
      ok (Masked {| ma_data := r; ma_mask := k; fill_value := fill_value m |})
  end.

(* Y_Node.define_mini_batch *)
Definition define_mini_batch (ix : list nat) (nd : Y_Node) : res Y_Node :=
  let? b := value_rows ix (value nd) in
  ok (with_mini_batch (Some b) nd).

(* Y_Node.get_mini_batch *)
Definition get_mini_batch (nd : Y_Node) : Value :=
  match mini_batch nd with
  | None => getExpectation nd
  | Some b => b
  end.

(* Y_Node.precompute; the second component is the value stored in the
   global [gpu_utils.gpu_mode] *)
Definition precompute (options : option (dict bool)) (nd : Y_Node) : res (Y_Node * bool) :=
  let n := map (λ c, (Z.of_nat (dim nd).1 - c)%Z) (sum_axis0 (getMask nd)) in
  let d := map (λ c, (Z.of_nat (dim nd).2 - c)%Z) (sum_axis1 (getMask nd)) in
  let? opts := of_option TypeError options in
  let? gpu := dsub "gpu_mode" opts in
  ok ({| dim := dim nd; value := value nd; mini_batch := mini_batch nd;
         N := Some n; D := Some d;
         likconst := Some (mul (mul (neg half) (of_int (zsum n))) log_2pi);
         markov_blanket := markov_blanket nd |}, gpu).

(* Y_Node.calculateELBO.  Arithmetic on the masked array [Y] is done on
   its data; the entries under the mask are overwritten by
   [tmp[mask] = 0.] before they are used. *)
Definition calculateELBO (nd : Y_Node) : res F :=
  let Y := value_data (getExpectation nd) in
  let? Tau := dsub "Tau" (markov_blanket nd) in
  let? Wtmp := dsub "W" (markov_blanket nd) in
  let? Ztmp := dsub "Z" (markov_blanket nd) in
  let? WE := dsub "E" Wtmp in
  let? WE2 := dsub "E2" Wtmp in
  let W := transpose WE in
  let WW := transpose WE2 in
  let? Z := dsub "E" Ztmp in
  let? ZZ := dsub "E2" Ztmp in
  let msk := getmask (value nd) in
  let? lnE0 := dsub "lnE" Tau in
  let? lnE := setmask lnE0 msk zero in
  let? ZW := dot Z W in
  let? t2 := dot ZZ WW in
  let? s2 := zip2 add (amap square Y) t2 in
  let? t3 := dot (amap square Z) (amap square W) in
  let? s3 := zip2 sub s2 t3 in
  let? s4 := zip2 add s3 (amap square ZW) in
  let? t5 := zip2 mul (amap (mul two) ZW) Y in
  let? tmp0 := zip2 sub s4 t5 in
  let? tmp := setmask tmp0 msk zero in
  let? lc := of_option (AttributeError "likconst") (likconst nd) in
  let? TauE := dsub "E" Tau in
  let? prod := zip2 mul TauE tmp in
  ok (sub (add lc (mul half (asum lnE))) (asum prod)).

(** The ELBO term in the words of the specification, entry by entry. *)

(* all entries f i j of an n x d table, row after row *)
Definition entries {A} (n d : nat) (f : nat → nat → A) : list A :=
  flat_map (λ i, map (f i) (seq 0 d)) (seq 0 n).

(* tmp = Y^2 + ZZ.WW - (Z^2).(W^2) + (Z.W)^2 - 2*(Z.W)*Y at (i, j), with
   W and WW the transposes of the loading node's E and E2 *)
Definition residual_spec (Y Z ZZ WE WE2 : ndarray F) (i j : nat) : F :=
  let k := (shape Z).2 in
  let zw := fsum ((λ l, mul (get Z i l) (get WE j l)) <$> seq 0 k) in
  let zzww := fsum ((λ l, mul (get ZZ i l) (get WE2 j l)) <$> seq 0 k) in
  let z2w2 := fsum ((λ l, mul (square (get Z i l)) (square (get WE j l))) <$> seq 0 k) in
  sub (add (sub (add (square (get Y i j)) zzww) z2w2) (square zw))
      (mul (mul two zw) (get Y i j)).

(* likconst + 0.5 * sum(lnE, zeroed under the mask)
            - sum(E * tmp, tmp zeroed under the mask) *)
Definition elbo_spec (lc : F) (msk : ndarray bool)
    (TauE TaulnE Y Z ZZ WE WE2 : ndarray F) : F :=
  let n := (shape Y).1 in
  let d := (shape Y).2 in
  sub (add lc (mul half
         (fsum (entries n d (λ i j, if get msk i j then zero else get TaulnE i j)))))
      (fsum (entries n d (λ i j,
         mul (get TauE i j)
             (if get msk i j then zero else residual_spec Y Z ZZ WE WE2 i j)))).

(** Missing entries of a mask, counted directly. *)

Definition missing_in_row (m : ndarray bool) (i : nat) : Z :=
  Z.of_nat (length (filter (λ j, get m i j = true) (seq 0 (shape m).2))).

Definition missing_in_col (m : ndarray bool) (j : nat) : Z :=
  Z.of_nat (length (filter (λ i, get m i j = true) (seq 0 (shape m).1))).

End Y_nodes.

Arguments MaskedArray F : clear implicits.
Arguments Value F : clear implicits.
Arguments Expectations F : clear implicits.
Arguments Y_Node F : clear implicits.

(** ** Stateful code: a state and exception monad *)

Definition M (S A : Type) : Type := S → res A * S.

Definition ret {S A} (x : A) : M S A := λ w, (ok x, w).
Definition throw {S A} (e : PyErr) : M S A := λ w, (raise e, w).
Definition lift {S A} (r : res A) : M S A := λ w, (r, w).

Definition bind {S A B} (c : M S A) (k : A → M S B) : M S B :=
  λ w, match c w with
       | (inl e, w') => (inl e, w')
       | (inr x, w') => k x w'
       end.

Notation "'let!' x := c 'in' k" := (bind c (λ x, k))
  (at level 10, x pattern, c at level 100, k at level 200).
Notation "c ;; k" := (bind c (λ _, k))
  (at level 100, k at level 200, right associativity).

(* assert cond, msg *)
Definition assert {S} (cond : bool) (msg : string) : M S unit :=
  if cond then ret tt else throw (AssertionError msg).

(* for x in l: f x *)
Fixpoint forM_ {S A} (l : list A) (f : A → M S unit) : M S unit :=
  match l with
  | [] => ret tt
  | x :: l' => f x ;; forM_ l' f
  end.

(* [f x for x in l] for an f that can raise *)
Fixpoint mapR {A B} (f : A → res B) (l : list A) : res (list B) :=
  match l with
  | [] => ok []
  | x :: l' => let? y := f x in let? ys := mapR f l' in ok (y :: ys)
  end.

(** ** Group labels *)

(* insert a label into a sorted list without duplicates *)
Fixpoint insert_unique (x : string) (l : list string) : list string :=
  match l with
  | [] => [x]
  | y :: l' =>
      match String.compare x y with
      | Lt => x :: y :: l'
      | Eq => y :: l'
      | Gt => y :: insert_unique x l'
      end
  end.

(* np.unique: the distinct labels, sorted *)
Definition np_unique (l : list string) : list string := foldr insert_unique [] l.

(* np.where(np.array(l) == g)[0]: the positions that hold g *)
Definition np_where_eq (g : string) (l : list string) : list nat :=
  omap (λ p, if decide (p.2 = g) then Some p.1 else None) (imap pair l).

(** ** Names as byte strings *)

(* a str that the ASCII codec can encode *)
Fixpoint is_ascii (s : string) : bool :=
  match s with
  | EmptyString => true
  | String c s' => bool_decide (Ascii.nat_of_ascii c < 128) && is_ascii s'
  end.

(* np.asarray(names).astype('S'): numpy encodes every str with the ASCII
   codec, which raises UnicodeEncodeError at a character beyond it *)
Definition astype_S (names : list string) : res (list string) :=
  if forallb is_ascii names then ok names else raise UnicodeEncodeError.

(** ** The model serializer ([save_model.py]) *)

Section save_model.
Context {F : Type} `{FloatOps F}.

(* a value of the training options *)
#[warnings="-register-all"] Inductive OptVal : Type :=
  | VNum (x : F)
  | VStr (s : string)
  | VList (l : list string)
  | VDict (d : list (string * OptVal)).

(* objects held by reference *)
Inductive obj : Type :=
  | OArr (a : ndarray F)
  | ODict (d : dict OptVal).

(* The container file: a group or a dataset under each path, in the order
   of creation.  A dataset is a compressed 2-D table, or a table that is
   not compressed, 1-D or 2-D, with its [names] attribute. *)
Inductive h5entry : Type :=
  | H5Group
  | H5Array (a : ndarray F) (gzip : nat)
  | H5Vector (v : list F) (names : option (list string))
  | H5Table (a : ndarray F) (names : option (list string)).

Definition h5file : Type := assoc (list string) h5entry.

Record World : Type := {
  heap : list obj;
  files : dict h5file
}.

Definition with_heap (h : list obj) (w : World) : World :=
  {| heap := h; files := files w |}.
Definition with_files (fs : dict h5file) (w : World) : World :=
  {| heap := heap w; files := fs |}.

Definition read_arr (l : nat) : M World (ndarray F) :=
  λ w, match heap w !! l with
       | Some (OArr a) => (ok a, w)
       | _ => (raise TypeError, w)
       end.

Definition read_dict (l : nat) : M World (dict OptVal) :=
  λ w, match heap w !! l with
       | Some (ODict d) => (ok d, w)
       | _ => (raise TypeError, w)
       end.

Definition write_obj (l : nat) (o : obj) : M World unit :=
  λ w, (ok tt, with_heap (<[l := o]> (heap w)) w).

(* a[msk] = v on the array object at l *)
Definition arr_setmask (l : nat) (msk : ndarray bool) (v : F) : M World unit :=
  let! a := read_arr l in
  let! a' := lift (setmask a msk v) in
  write_obj l (OArr a').

(* d[k] = v on the dictionary object at l *)
Definition dict_setitem (l : nat) (k : string) (v : OptVal) : M World unit :=
  let! d := read_dict l in
  write_obj l (ODict (dset k v d)).

(* d.pop(k) and del d[k] on the dictionary object at l *)
Definition dict_pop (l : nat) (k : string) : M World unit :=
  let! d := read_dict l in
  if dmem k d then write_obj l (ODict (ddel k d)) else throw (KeyError k).

(* k in d.keys() *)
Definition dict_contains (l : nat) (k : string) : M World bool :=
  let! d := read_dict l in
  ret (dmem k d).

(* h5py.File(path, 'w'): create the file, or truncate it *)
Definition h5py_File_w (path : string) : M World unit :=
  λ w, (ok tt, with_files (dset path [] (files w)) w).

(* create a group or a dataset; h5py refuses a name that exists *)
Definition h5_create (file : string) (path : list string) (e : h5entry) : M World unit :=
  λ w, match dget file (files w) with
       | None => (raise ValueError, w)
       | Some f =>
           if dmem path f then (raise ValueError, w)
           else (ok tt, with_files (dset file (dset path e f) (files w)) w)
       end.

(* file[path].attrs['names'] = np.asarray(names).astype('S'): the names
   are converted first, then the dataset is looked up and the attribute
   is set *)
Definition h5_set_names (file : string) (path : list string) (names : list string) : M World unit :=
  λ w, match astype_S names with
       | inl e => (inl e, w)
       | inr bytes =>
           match dget file (files w) with
           | None => (raise ValueError, w)
           | Some f =>
               match dget path f with
               | Some (H5Vector v _) =>
                   (ok tt,
                    with_files (dset file (dset path (H5Vector v (Some bytes)) f) (files w)) w)
               | Some (H5Table a _) =>
                   (ok tt,
                    with_files (dset file (dset path (H5Table a (Some bytes)) f) (files w)) w)
               | Some _ => (raise TypeError, w)
               | None => (raise (KeyError "training_opts"), w)
               end
           end
       end.

(** The trained model, as the serializer sees it.  [Multiview_Node] and the
    classes of the other nodes are outside these two files: a node is
    either a [Multiview_Node], with one child per view, or a single-view
    node.  [getExpectation()] returns the arrays themselves (references),
    child by child for a multi-view node; [M] is the number of children.

    The constructor reads the attribute [mask] of every child of the "Y"
    node, and [saveExpectations] indexes arrays with what it read.  What
    the attribute holds depends on the class of the child: a boolean array
    of the missing entries, or, for an instance of the [Y_Node] of
    [Y_nodes.py], where [mask] is a method and no attribute of that name is
    assigned, the bound method; a child need not have it at all. *)
Inductive MaskAttr : Type :=
  | MaskArray (m : ndarray bool)
  | BoundMethod.

(* an object used as the index of a[...] = v: only an array is one *)
Definition as_index (x : MaskAttr) : res (ndarray bool) :=
  match x with
  | MaskArray m => ok m
  | BoundMethod => raise IndexError
  end.

Record Child : Type := {
  cmask : option MaskAttr;
  cexp : nat
}.

Inductive Node : Type :=
  | Multiview_Node (nodes : list Child)
  | Single_Node (exp : nat).

(* an instance of the [Y_Node] of [Y_nodes.py] as a child of the "Y" node:
   its value is the array object at l, its [mask] is the method *)
Definition Y_Node_child (l : nat) : Child :=
  {| cmask := Some BoundMethod; cexp := l |}.

Record Model : Type := {
  trained : bool;
  getNodes : dict Node
}.

(* the attributes of a [saveModel] object; [hdf5] names the open file *)
Record saveModel : Type := {
  model : Model;
  hdf5 : string;
  compression_level : nat;
  sm_data : list (ndarray F);
  sm_mask : list MaskAttr;
  samples_groups : list string;
  train_opts : nat;
  model_opts : nat;
  views_names : list string;
  samples_names : list string;
  features_names : list (list string);
  groups_names : list string
}.

(* saveModel.__init__ *)
Definition saveModel_init (model : Model) (outfile : string)
    (data : list (ndarray F)) (samples_groups : list string)
    (train_opts model_opts : nat) (features_names : list (list string))
    (views_names samples_names : list string) (compression_level : nat)
    : M World saveModel :=
  assert (trained model) "Model is not trained" ;;
  h5py_File_w outfile ;;
  let! y := lift (dsub "Y" (getNodes model)) in
  let! children := match y with
                   | Multiview_Node ch => ret ch
                   | Single_Node _ => throw (AttributeError "getNodes")
                   end in
  let! masks := lift (mapR (λ x, of_option (AttributeError "mask") (cmask x)) children) in
  let! d0 := lift (of_option IndexError (data !! 0)) in
  assert (bool_decide (length samples_groups = (shape d0).1))
    "length of samples groups does not match the number of samples in the data" ;;
  ret {| model := model; hdf5 := outfile; compression_level := compression_level;
         sm_data := data; sm_mask := masks; samples_groups := samples_groups;
         train_opts := train_opts; model_opts := model_opts;
         views_names := views_names; samples_names := samples_names;
         features_names := features_names;
         groups_names := np_unique samples_groups |}.

(* the argument [nodes] of saveExpectations *)
Inductive NodesArg : Type :=
  | ArgStr (s : string)
  | ArgList (l : list string)
  | ArgTuple (l : list string).

Definition recognised_nodes : list string :=
  ["Z"; "W"; "Y"; "Tau"; "AlphaW"; "AlphaZ"; "ThetaZ"; "ThetaW"].

Definition multigroup_nodes : list string := ["Y"; "Tau"; "Z"].

(* lines 81-84: the names to export *)
Definition select_nodes (nodes : NodesArg) (nodes_dic : dict Node) : res (list string) :=
  match nodes with
  | ArgStr s => ok (if decide (s = "all") then dkeys nodes_dic else [s])
  | ArgList l | ArgTuple l =>
      if forallb (λ x, bool_decide (x ∈ recognised_nodes)) l
      then ok l
      else raise (AssertionError "Unrecognised nodes")
  end.

(* {x: nodes_dic[x] for x in nodes if x in nodes_dic} *)
Definition restrict_nodes (nodes : list string) (nodes_dic : dict Node) : dict Node :=
  foldl (λ acc x, match dget x nodes_dic with
                  | Some nd => dset x nd acc
                  | None => acc
                  end) [] nodes.

(* lines 112-120: one view of a multi-view, multi-group node *)
Definition save_view_groups (sm : saveModel) (n : string) (m : nat) (c : Child) : M World unit :=
  let! view := lift (of_option IndexError (views_names sm !! m)) in
  h5_create (hdf5 sm) ["expectations"; n; view] H5Group ;;
  forM_ (groups_names sm) (λ g,
    let! attr := lift (of_option IndexError (sm_mask sm !! m)) in
    let! msk := lift (as_index attr) in
    arr_setmask (cexp c) msk nan ;;
    let samp_indices := np_where_eq g (samples_groups sm) in
    let! a := read_arr (cexp c) in
    let! rows := lift (take_rows samp_indices a) in
    h5_create (hdf5 sm) ["expectations"; n; view; g]
      (H5Array rows (compression_level sm))).

(* line 124: one view of a multi-view, single-group node *)
Definition save_view (sm : saveModel) (n : string) (m : nat) (c : Child) : M World unit :=
  let! view := lift (of_option IndexError (views_names sm !! m)) in
  let! a := read_arr (cexp c) in
  h5_create (hdf5 sm) ["expectations"; n; view]
    (H5Array (transpose a) (compression_level sm)).

(* lines 96-137: the body of the loop over the nodes *)
Definition save_node (sm : saveModel) (n : string) (nd : Node) : M World unit :=
  h5_create (hdf5 sm) ["expectations"; n] H5Group ;;
  match nd with
  | Multiview_Node children =>
      forM_ (imap pair children) (λ mc,
        if bool_decide (n ∈ multigroup_nodes)
        then save_view_groups sm n mc.1 mc.2
        else save_view sm n mc.1 mc.2)
  | Single_Node e =>
      if bool_decide (n ∈ multigroup_nodes)
      then forM_ (groups_names sm) (λ g,
             let samp_indices := np_where_eq g (samples_groups sm) in
             let! a := read_arr e in
             let! rows := lift (take_rows samp_indices a) in
             h5_create (hdf5 sm) ["expectations"; n; g]
               (H5Array (transpose rows) (compression_level sm)))
      else
        let! a := read_arr e in
        h5_create (hdf5 sm) ["expectations"; n; "E"]
          (H5Array (transpose a) (compression_level sm))
  end.

(* saveModel.saveExpectations *)
Definition saveExpectations (sm : saveModel) (nodes : NodesArg) : M World unit :=
  let nodes_dic := getNodes (model sm) in
  let! names := lift (select_nodes nodes nodes_dic) in
  let nodes_dic := restrict_nodes names nodes_dic in
  h5_create (hdf5 sm) ["expectations"] H5Group ;;
  forM_ nodes_dic (λ p, save_node sm p.1 p.2).

(* float(v) for one element of a 1-D table: a number as it is, a string
   parsed; a list cannot be one element, a dictionary is no number *)
Definition to_float (v : OptVal) : res F :=
  match v with
  | VNum x => ok x
  | VStr s => of_option ValueError (parse_float s)
  | VList _ => raise ValueError
  | VDict _ => raise TypeError
  end.

Definition is_list (v : OptVal) : bool :=
  match v with
  | VList _ => true
  | _ => false
  end.

Definition list_items (v : OptVal) : list string :=
  match v with
  | VList l => l
  | _ => []
  end.

(* what np.array(..., dtype=float) returns for the values of the options:
   a 1-D or a 2-D array *)
Inductive FloatTable : Type :=
  | Table1 (v : list F)
  | Table2 (a : ndarray F).

(* np.array(vals, dtype=np.float).  numpy takes all the values at once: it
   finds the shape first and converts the elements then, in order.
   Without a list among the values the array is 1-D, one float per value.
   Lists of one length give a 2-D array, one row per value, every item
   parsed.  A list beside a value that is none, or lists of different
   lengths, have no common shape, which is a ValueError. *)
Definition np_array_float (vals : list OptVal) : res FloatTable :=
  if forallb (λ v, negb (is_list v)) vals then
    let? xs := mapR to_float vals in
    ok (Table1 xs)
  else
    match vals with
    | VList l0 :: _ =>
        if forallb (λ v, is_list v && bool_decide (length (list_items v) = length l0)) vals
        then
          let? rows := mapR (λ v, mapR (λ s, of_option ValueError (parse_float s))
                                       (list_items v)) vals in
          ok (Table2 (NdArray (length vals, length l0) rows))
        else raise ValueError
    | _ => raise ValueError
    end.

(* the dataset that create_dataset makes of the array *)
Definition table_entry (t : FloatTable) (names : option (list string)) : h5entry :=
  match t with
  | Table1 v => H5Vector v names
  | Table2 a => H5Table a names
  end.

(* lines 170-174: the body of the loop over a copy of the options *)
Definition flatten_entry (opts : nat) (kv : string * OptVal) : M World unit :=
  match kv.2 with
  | VDict v =>
      forM_ v (λ kv1, dict_setitem opts (kv.1 +:+ "_" +:+ kv1.1) kv1.2) ;;
      dict_pop opts kv.1
  | _ => ret tt
  end.

(* lines 178-181: if k in opts.keys(): del opts[k] *)
Definition drop_key (opts : nat) (k : string) : M World unit :=
  let! present := dict_contains opts k in
  if present then dict_pop opts k else ret tt.

(* saveModel.saveTrainOptions; [opts] is the object [self.train_opts] *)
Definition saveTrainOptions (sm : saveModel) : M World unit :=
  let opts := train_opts sm in
  let! copy := read_dict opts in
  forM_ copy (flatten_entry opts) ;;
  drop_key opts "schedule" ;;
  drop_key opts "convergence_mode" ;;
  let! final := read_dict opts in
  let! table := lift (np_array_float (dvalues final)) in
  h5_create (hdf5 sm) ["training_opts"] (table_entry table None) ;;
  let! final := read_dict opts in
  h5_set_names (hdf5 sm) ["training_opts"] (dkeys final).

(* the dataset or group under a path of the serializer's file *)
Definition persisted (sm : saveModel) (w : World) (path : list string) : option h5entry :=
  dget (hdf5 sm) (files w) ≫= dget path.

End save_model.

Arguments OptVal F : clear implicits.
Arguments obj F : clear implicits.
Arguments h5entry F : clear implicits.
Arguments FloatTable F : clear implicits.
Arguments h5file F : clear implicits.
Arguments World F : clear implicits.
Arguments saveModel F : clear implicits.

(** ** An executable instance: exact rationals with a NaN *)

Inductive num : Type :=
  | NaN
  | Fin (q : Q).

Definition num_lift2 (f : Q → Q → Q) (x y : num) : num :=
  match x, y with
  | Fin a, Fin b => Fin (Qred (f a b))
  | _, _ => NaN
  end.

Definition num_eqb (x y : num) : bool :=
  match x, y with
  | Fin a, Fin b => Qeq_bool a b
  | _, _ => false
  end.

(* float(s) for a string of decimal digits; other strings do not parse here *)
Fixpoint digits_value (acc : Z) (s : string) : option Z :=
  match s with
  | EmptyString => Some acc
  | String c s' =>
      let n := Ascii.nat_of_ascii c in
      if bool_decide (48 ≤ n ≤ 57)
      then digits_value (10 * acc + Z.of_nat (n - 48))%Z s'
      else None
  end.

Definition num_parse (s : string) : option num :=
  match s with
  | EmptyString => None
  | _ => (λ z, Fin (inject_Z z)) <$> digits_value 0%Z s
  end.

#[export] Instance num_float : FloatOps num := {|
  zero := Fin 0;
  half := Fin (1 # 2);
  two := Fin 2;
  nan := NaN;
  log_2pi := Fin (1837877 # 1000000);
  default_fill := Fin (inject_Z (10 ^ 20));
  add := num_lift2 Qplus;
  sub := num_lift2 Qminus;
  mul := num_lift2 Qmult;
  neg := λ x, match x with Fin a => Fin (Qred (Qopp a)) | NaN => NaN end;
  of_int := λ z, Fin (inject_Z z);
  isfinite := λ x, match x with Fin _ => true | NaN => false end;
  feqb := num_eqb;
  parse_float := num_parse
|}.

Definition qarr (n d : nat) (rows : list (list Q)) : ndarray num :=
  NdArray (n, d) (map (map Fin) rows).

(** ** Arrays that agree where a mask is clear *)

Definition agree {A} `{Inhabited A} (msk : ndarray bool) (a b : ndarray A) : Prop :=
  shape a = shape b ∧
  ∀ i j, i < (shape a).1 → j < (shape a).2 →
         get msk i j = false → get a i j = get b i j.

(** ** The training options after [saveTrainOptions], as a function *)

(* for k, v in l: o[k] = v *)
Definition ins {V} (l : list (string * V)) (o : dict V) : dict V :=
  foldl (λ o p, dset p.1 p.2 o) o l.

Section flattening.
Context {F : Type} `{FloatOps F}.

Definition is_dict (v : OptVal F) : bool :=
  match v with
  | VDict _ => true
  | _ => false
  end.

(* the entries parent_child that a nested entry contributes *)
Definition joined_of (kv : string * OptVal F) : list (string * OptVal F) :=
  match kv.2 with
  | VDict v => map (λ kv1, (kv.1 +:+ "_" +:+ kv1.1, kv1.2)) v
  | _ => []
  end.

Definition joined (items : dict (OptVal F)) : list (string * OptVal F) :=
  flat_map joined_of items.

(* the keys that hold a nested dictionary *)
Definition parents (items : list (string * OptVal F)) : list string :=
  map fst (filter (λ kv, is_dict kv.2 = true) items).

Definition flatten_step (o : dict (OptVal F)) (kv : string * OptVal F) : dict (OptVal F) :=
  match kv.2 with
  | VDict _ => ddel kv.1 (ins (joined_of kv) o)
  | _ => o
  end.

Definition flattened (items o : dict (OptVal F)) : dict (OptVal F) :=
  foldl flatten_step o items.

Definition final_opts (o : dict (OptVal F)) : dict (OptVal F) :=
  ddel "convergence_mode" (ddel "schedule" (flattened o o)).

(* the object at l becomes the dictionary o *)
Definition set_dict (l : nat) (o : dict (OptVal F)) (w : World F) : World F :=
  with_heap (<[l := ODict o]> (heap w)) w.

(* a name and its value sit at one position of a persisted table *)
Definition table_has (names : list string) (vals : list F) (k : string) (x : F) : Prop :=
  ∃ i, names !! i = Some k ∧ vals !! i = Some x.

End flattening.

(** ** How the world changes while expectations are saved *)

Section evolution.
Context {F : Type} `{FloatOps F}.

(* a' is a with some entries replaced by NaN *)
Definition nan_filled (a a' : ndarray F) : Prop :=
  shape a' = shape a ∧
  ∀ i j, i < (shape a).1 → j < (shape a).2 →
         get a' i j = get a i j ∨ get a' i j = nan.

(* Arrays outside [touched] are left alone, the others have entries
   replaced by NaN at most, and what a file holds stays in it. *)
Definition evolves (touched : nat → Prop) (w w' : World F) : Prop :=
  length (heap w') = length (heap w) ∧
  (∀ l, ¬ touched l → heap w' !! l = heap w !! l) ∧
  (∀ l a, heap w !! l = Some (OArr a) →
          ∃ a', heap w' !! l = Some (OArr a') ∧ nan_filled a a') ∧
  (∀ file f, dget file (files w) = Some f →
             ∃ f', dget file (files w') = Some f' ∧
                   ∀ p e, dget p f = Some e → dget p f' = Some e).

(* the arrays of the multi-view nodes that are saved group by group *)
Definition masked_on_save (nodes_dic : dict Node) (l : nat) : Prop :=
  ∃ n ch c, (n, Multiview_Node ch) ∈ nodes_dic ∧ n ∈ multigroup_nodes ∧
            c ∈ ch ∧ cexp c = l.

End evolution.

(** ** The invariants in the words of the specification *)

(* "N[i] + (# missing in row i) == total feature count, and symmetrically
   for D over columns" *)
Definition observed_counts_by_row {F} (nd : Y_Node F) : Prop :=
  ∃ n d, N nd = Some n ∧ D nd = Some d ∧
    (∀ i, i < (dim nd).1 →
       ∃ x, n !! i = Some x ∧ (x + missing_in_row (getMask nd) i = Z.of_nat (dim nd).2)%Z) ∧
    (∀ j, j < (dim nd).2 →
       ∃ x, d !! j = Some x ∧ (x + missing_in_col (getMask nd) j = Z.of_nat (dim nd).1)%Z).

(** ** A small model: three samples, two features, one factor, two groups *)

Local Open Scope Q_scope.

(* the observations of the only view; sample 0 misses feature 1 *)
Definition ex_Y_raw : ndarray num :=
  NdArray (3, 2)%nat [[Fin 1; NaN]; [Fin 2; Fin 3]; [Fin 0; Fin 1]].

Definition ex_mask : ndarray bool :=
  NdArray (3, 2)%nat [[false; true]; [false; false]; [false; false]].

Definition ex_Y_node : Y_Node num := Y_Node_init (3, 2)%nat (Plain ex_Y_raw).

Definition ex_options : option (dict bool) := Some [("gpu_mode", false)].

Definition ex_Z_E : ndarray num := qarr 3 1 [[1]; [2]; [3]].
Definition ex_Z_E2 : ndarray num := qarr 3 1 [[2]; [5]; [10]].
Definition ex_W_E : ndarray num := qarr 2 1 [[1]; [1 # 2]].
Definition ex_W_E2 : ndarray num := qarr 2 1 [[2]; [1]].
Definition ex_Tau_E : ndarray num := qarr 3 2 [[1; 1]; [1; 1]; [2; 2]].
Definition ex_Tau_lnE : ndarray num := qarr 3 2 [[0; 0]; [0; 0]; [1; 1]].

Definition ex_blanket : dict (Expectations num) :=
  [("Z", [("E", ex_Z_E); ("E2", ex_Z_E2)]);
   ("W", [("E", ex_W_E); ("E2", ex_W_E2)]);
   ("Tau", [("E", ex_Tau_E); ("lnE", ex_Tau_lnE)])].

(* the node after precompute *)
Definition ex_Y_pre : Y_Node num :=
  {| dim := (3, 2)%nat;
     value := Masked {| ma_data := ex_Y_raw; ma_mask := ex_mask; fill_value := Fin 0 |};
     mini_batch := None;
     N := Some [3; 2]%Z;
     D := Some [1; 2; 2]%Z;
     likconst := Some (Fin (-1837877 # 400000));
     markov_blanket := [] |}.

(* the node with its neighbours, and a twin that holds 1000 under the mask *)
Definition ex_Y_ready (hidden : num) : Y_Node num :=
  {| dim := (3, 2)%nat;
     value := Masked {| ma_data := NdArray (3, 2)%nat
                                     [[Fin 1; hidden]; [Fin 2; Fin 3]; [Fin 0; Fin 1]];
                        ma_mask := ex_mask; fill_value := Fin 0 |};
     mini_batch := None;
     N := Some [3; 2]%Z;
     D := Some [1; 2; 2]%Z;
     likconst := Some (Fin (-1837877 # 400000));
     markov_blanket := ex_blanket |}.

(* the trained model: Y and Tau per view and group, W per view, Z per
   group, AlphaZ a single block *)
Definition ex_model (is_trained : bool) : Model :=
  {| trained := is_trained;
     getNodes := [("Y", Multiview_Node [{| cmask := Some (MaskArray ex_mask); cexp := 1 |}]);
                  ("W", Multiview_Node [{| cmask := None; cexp := 2 |}]);
                  ("Z", Single_Node 3);
                  ("Tau", Multiview_Node [{| cmask := None; cexp := 4 |}]);
                  ("AlphaZ", Single_Node 5)] |}.

Definition ex_train_opts : dict (OptVal num) :=
  [("maxiter", VNum (Fin 100));
   ("stochastic", VDict [("batch_size", VNum (Fin 50)); ("lr", VNum (Fin (1 # 10)))]);
   ("schedule", VList ["Y"; "W"; "Z"; "Tau"]);
   ("convergence_mode", VStr "fast")].

(* a joined name that is one of the dropped keys *)
Definition ex_opts_dropped : dict (OptVal num) :=
  [("maxiter", VNum (Fin 100));
   ("convergence", VDict [("mode", VNum (Fin 1))])].

(* a joined name that is a parent key *)
Definition ex_opts_parent : dict (OptVal num) :=
  [("a_b", VDict [("c", VNum (Fin 1))]);
   ("a", VDict [("b", VNum (Fin 2))])].

Definition ex_AlphaZ : ndarray num := qarr 1 1 [[7]].

Definition ex_heap (opts : dict (OptVal num)) : list (obj num) :=
  [ODict opts; OArr ex_Y_raw; OArr ex_W_E; OArr ex_Z_E; OArr ex_Tau_E; OArr ex_AlphaZ].

(* before the constructor runs: no file *)
Definition ex_world0 (opts : dict (OptVal num)) : World num :=
  {| heap := ex_heap opts; files := [] |}.

(* after the constructor: the empty container *)
Definition ex_world1 (opts : dict (OptVal num)) : World num :=
  {| heap := ex_heap opts; files := [("out.hdf5", [])] |}.

Definition ex_groups : list string := ["g1"; "g2"; "g1"].

Definition ex_sm : saveModel num :=
  {| model := ex_model true; hdf5 := "out.hdf5"; compression_level := 9;
     sm_data := [ex_Y_raw]; sm_mask := [MaskArray ex_mask]; samples_groups := ex_groups;
     train_opts := 0; model_opts := 0;
     views_names := ["view0"]; samples_names := ["s0"; "s1"; "s2"];
     features_names := [["f0"; "f1"]];
     groups_names := ["g1"; "g2"] |}.

(* the same model with the observation node of Y_nodes.py under "Y" *)
Definition ex_model_Y_Node : Model :=
  {| trained := true;
     getNodes := [("Y", Multiview_Node [Y_Node_child 1]);
                  ("W", Multiview_Node [{| cmask := None; cexp := 2 |}])] |}.

Definition ex_sm_Y_Node : saveModel num :=
  {| model := ex_model_Y_Node; hdf5 := "out.hdf5"; compression_level := 9;
     sm_data := [ex_Y_raw]; sm_mask := [BoundMethod]; samples_groups := ex_groups;
     train_opts := 0; model_opts := 0;
     views_names := ["view0"]; samples_names := ["s0"; "s1"; "s2"];
     features_names := [["f0"; "f1"]];
     groups_names := ["g1"; "g2"] |}.

(* the Tau array after saving: NaN where sample 0 misses feature 1 *)
Definition ex_Tau_saved : ndarray num :=
  NdArray (3, 2)%nat [[Fin 1; NaN]; [Fin 1; Fin 1]; [Fin 2; Fin 2]].

Local Close Scope Q_scope.

(** ** Order of the group labels *)

(* the order of np.unique on labels: by code points, a prefix first *)
Definition str_lt (a b : string) : Prop := String.compare a b = Lt.

(** ** What saving the expectations leaves alone *)

(* the dictionaries on the heap are the same objects with the same items *)
Definition keeps_dicts {F} (w w' : World F) : Prop :=
  ∀ l d, heap w !! l = Some (ODict d) → heap w' !! l = Some (ODict d).

(* the files are as they were *)
Definition same_files {F} (w w' : World F) : Prop := files w' = files w.

(** ** The training statistics *)

Section training_stats.
Context {F : Type} `{FloatOps F}.

(* saveModel.saveTrainingStats.  [stats] is the dictionary that
   [self.model.getTrainingStats()] returned, a series under each name; the
   model class is outside these files.  The argument [data=stats[k]] is
   evaluated before [create_dataset] is called. *)
Definition saveTrainingStats (sm : saveModel F) (stats : dict (list F)) : M (World F) unit :=
  h5_create (hdf5 sm) ["training_stats"] H5Group ;;
  let! number_factors := lift (dsub "number_factors" stats) in
  h5_create (hdf5 sm) ["training_stats"; "number_factors"] (H5Vector number_factors None) ;;
  let! time := lift (dsub "time" stats) in
  h5_create (hdf5 sm) ["training_stats"; "time"] (H5Vector time None) ;;
  let! elbo := lift (dsub "elbo" stats) in
  h5_create (hdf5 sm) ["training_stats"; "elbo"] (H5Vector elbo None).

End training_stats.

(* the series of a short run *)
Definition ex_stats : dict (list num) :=
  [("number_factors", [Fin 1; Fin 1]); ("time", [Fin 3; Fin 2]);
   ("elbo", [Fin (-40); Fin (-38)])].

(* the statistics of a run that recorded no times *)
Definition ex_stats_no_time : dict (list num) :=
  [("number_factors", [Fin 1; Fin 1]); ("elbo", [Fin (-40); Fin (-38)])].

(* options without nesting *)
Definition ex_opts_flat : dict (OptVal num) :=
  [("maxiter", VNum (Fin 100)); ("tolerance", VNum (Fin (1 # 100)))].

(** ** Observed entries, counted directly *)

(* the entries that a mask leaves clear *)
Definition observed_entries (m : ndarray bool) : Z :=
  Z.of_nat (length (filter (λ b, b = false) (entries (shape m).1 (shape m).2 (get m)))).

(* the finite entries of a column and of a row of the data *)
Definition finite_in_col {F} `{FloatOps F} (a : ndarray F) (j : nat) : Z :=
  Z.of_nat (length (filter (λ i, isfinite (get a i j) = true) (seq 0 (shape a).1))).

Definition finite_in_row {F} `{FloatOps F} (a : ndarray F) (i : nat) : Z :=
  Z.of_nat (length (filter (λ j, isfinite (get a i j) = true) (seq 0 (shape a).2))).

(* the observation node of the small model when the Tau array is the one
   that saving the expectations has left *)
Definition ex_Y_after_saving : Y_Node num :=
  {| dim := (3, 2);
     value := Masked {| ma_data := ex_Y_raw; ma_mask := ex_mask; fill_value := Fin 0 |};
     mini_batch := None;
     N := Some [3; 2]%Z;
     D := Some [1; 2; 2]%Z;
     likconst := Some (Fin (-1837877 # 400000));
     markov_blanket :=
       [("Z", [("E", ex_Z_E); ("E2", ex_Z_E2)]);
        ("W", [("E", ex_W_E); ("E2", ex_W_E2)]);
        ("Tau", [("E", ex_Tau_saved); ("lnE", ex_Tau_lnE)])] |}.

(* the files other than [file] are as they were, and what [file] has got
   since lies under the top-level name [top] *)
Definition writes_under {F} (file top : string) (w w' : World F) : Prop :=
  (∀ file', file' ≠ file → dget file' (files w') = dget file' (files w)) ∧
  (∀ f', dget file (files w') = Some f' →
         ∃ f, dget file (files w) = Some f ∧
              ∀ p e, dget p f' = Some e → dget p f = Some e ∨ head p = Some top).

(* options with a key that is not ASCII: an e with an acute accent *)
Definition ex_opts_accent : dict (OptVal num) :=
  [("maxiter", VNum (Fin 100));
   (String (Ascii.ascii_of_nat 233) "poques", VNum (Fin 5))].

(* options whose values are lists of one length *)
Definition ex_opts_lists : dict (OptVal num) :=
  [("drop_factor", VList ["1"; "2"]); ("start", VList ["3"; "4"])].

(* the arrays and dictionaries are as they were *)
Definition same_heap {F} (w w' : World F) : Prop := heap w' = heap w.

(* a model with the observation node of Y_nodes.py under "Y", and Tau *)
Definition ex_model_Y_Node_Tau : Model :=
  {| trained := true;
     getNodes := [("Y", Multiview_Node [Y_Node_child 1]);
                  ("W", Multiview_Node [{| cmask := None; cexp := 2 |}]);
                  ("Tau", Multiview_Node [{| cmask := None; cexp := 4 |}])] |}.

Definition ex_sm_Y_Node_Tau : saveModel num :=
  {| model := ex_model_Y_Node_Tau; hdf5 := "out.hdf5"; compression_level := 9;
     sm_data := [ex_Y_raw]; sm_mask := [BoundMethod]; samples_groups := ex_groups;
     train_opts := 0; model_opts := 0;
     views_names := ["view0"]; samples_names := ["s0"; "s1"; "s2"];
     features_names := [["f0"; "f1"]];
     groups_names := ["g1"; "g2"] |}.

(** ** Tactics for the small model *)

Ltac elem_cases H :=
  repeat (apply elem_of_cons in H as [H|H]);
  try (apply elem_of_nil in H; destruct H).

Ltac not_masked :=
  let n := fresh "n" in let ch := fresh "ch" in let c := fresh "c" in
  let Hin := fresh "Hin" in let Hn := fresh "Hn" in
  let Hc := fresh "Hc" in let Heq := fresh "Heq" in
  intros (n & ch & c & Hin & Hn & Hc & Heq);
  vm_compute in Hin; elem_cases Hin; try discriminate Hin;
  injection Hin as -> ->;
  try (elem_cases Hn; discriminate Hn);
  elem_cases Hc; subst c; discriminate Heq.

(** * Properties *)

(** ** Arrays *)

Lemma rbind_ok {A B} (x : A) (k : A → res B) : rbind (ok x) k = k x.
Proof. reflexivity. Qed.

Lemma shape_tabulate {A} n d (f : nat → nat → A) : shape (tabulate n d f) = (n, d).
Proof. reflexivity. Qed.

Lemma get_tabulate {A} `{Inhabited A} n d (f : nat → nat → A) i j :
  i < n → j < d → get (tabulate n d f) i j = f i j.
Proof.
  intros Hi Hj. unfold get, tabulate. simpl.
  rewrite list_lookup_fmap, (lookup_seq_lt 0 n i Hi). simpl.
  rewrite list_lookup_fmap, (lookup_seq_lt 0 d j Hj). reflexivity.
Qed.

Lemma tabulate_ext {A} n d (f g : nat → nat → A) :
  (∀ i j, i < n → j < d → f i j = g i j) → tabulate n d f = tabulate n d g.
Proof.
  intros Hfg. unfold tabulate. f_equal.
  apply list_eq. intros i. rewrite !list_lookup_fmap.
  destruct (seq 0 n !! i) as [i'|] eqn:Hi; [|reflexivity]. simpl. f_equal.
  apply lookup_seq in Hi as [-> Hi].
  apply list_eq. intros j. rewrite !list_lookup_fmap.
  destruct (seq 0 d !! j) as [j'|] eqn:Hj; [|reflexivity]. simpl. f_equal.
  apply lookup_seq in Hj as [-> Hj]. apply Hfg; lia.
Qed.

Lemma fmap_seq_ext {A} (f g : nat → A) k :
  (∀ l, l < k → f l = g l) → f <$> seq 0 k = g <$> seq 0 k.
Proof.
  intros Hfg. apply list_eq. intros l. rewrite !list_lookup_fmap.
  destruct (seq 0 k !! l) as [l'|] eqn:Hl; [|reflexivity]. simpl. f_equal.
  apply lookup_seq in Hl as [-> Hl]. apply Hfg. lia.
Qed.

Lemma wf_tabulate {A} n d (f : nat → nat → A) : wf (tabulate n d f).
Proof.
  split; simpl.
  - rewrite length_fmap. apply length_seq.
  - apply Forall_fmap, Forall_forall. intros i _. simpl.
    rewrite length_fmap. apply length_seq.
Qed.

Lemma asum_tabulate `{FloatOps F} n d (f : nat → nat → F) :
  asum (tabulate n d f) = fsum (entries n d f).
Proof.
  unfold asum, entries, tabulate. simpl. f_equal.
  rewrite flat_map_concat_map. reflexivity.
Qed.

Lemma entries_ext {A} n d (f g : nat → nat → A) :
  (∀ i j, i < n → j < d → f i j = g i j) → entries n d f = entries n d g.
Proof.
  intros Hfg. unfold entries. rewrite !flat_map_concat_map. f_equal.
  apply (f_equal data (tabulate_ext n d f g Hfg)).
Qed.

(** ** Counting under a mask *)

Lemma zsum_app l k : zsum (l ++ k) = (zsum l + zsum k)%Z.
Proof. induction l as [|x l IH]; simpl; [reflexivity|]. rewrite IH. lia. Qed.

(* a predicate on positions that follows the entries counts like the entries *)
Lemma count_positions {A} (p : nat → bool) (q : A → bool) (l : list A) :
  (∀ i x, l !! i = Some x → p i = q x) →
  Z.of_nat (length (filter (λ i, p i = true) (seq 0 (length l))))
  = zsum (map (λ x, b2z (q x)) l).
Proof.
  induction l as [|x l IH] using rev_ind; intros Hpq; [reflexivity|].
  rewrite length_app. simpl. rewrite Nat.add_1_r, seq_S, filter_app, length_app.
  rewrite Nat.add_0_l.
  rewrite map_app, zsum_app. simpl.
  rewrite Nat2Z.inj_add, IH.
  - f_equal. rewrite filter_cons, filter_nil.
    assert (p (length l) = q x) as Hx.
    { apply Hpq. rewrite lookup_app_r, Nat.sub_diag by lia. reflexivity. }
    destruct (decide (p (length l) = true)) as [Ht|Hf].
    + rewrite <- Hx, Ht. reflexivity.
    + rewrite <- Hx. destruct (p (length l)); [congruence|reflexivity].
  - intros i y Hi. apply Hpq. rewrite lookup_app_l; [exact Hi|].
    eapply lookup_lt_Some, Hi.
Qed.

Lemma sum_axis1_lookup (m : ndarray bool) i :
  wf m → i < (shape m).1 →
  sum_axis1 m !! i = Some (missing_in_row m i).
Proof.
  intros [Hn Hd] Hi. unfold sum_axis1.
  change (map ?f ?l) with (f <$> l). rewrite list_lookup_fmap.
  destruct (data m !! i) as [r|] eqn:Hr.
  2:{ apply lookup_ge_None in Hr. lia. }
  simpl. f_equal. unfold missing_in_row.
  assert (length r = (shape m).2) as <-.
  { eapply Forall_forall in Hd; [exact Hd|]. apply list_elem_of_lookup. eauto. }
  symmetry. apply (count_positions (λ j, get m i j) (λ b, b)).
  intros j b Hj. unfold get. rewrite Hr. simpl. rewrite Hj. reflexivity.
Qed.

Lemma sum_rows_lookup (rows : list (list bool)) d j :
  Forall (λ r, length r = d) rows → j < d →
  foldr (zip_with Z.add) (replicate d 0%Z) (map (map b2z) rows) !! j
  = Some (zsum (map (λ r, b2z (default inhabitant (r !! j))) rows)).
Proof.
  intros Hd Hj. induction rows as [|r rows IH]; simpl.
  - rewrite lookup_replicate_2 by lia. reflexivity.
  - apply Forall_cons in Hd as [Hr Hd]. rewrite lookup_zip_with, (IH Hd).
    change (map b2z r) with (b2z <$> r). rewrite list_lookup_fmap.
    destruct (r !! j) as [b|] eqn:Hb; [reflexivity|].
    apply lookup_ge_None in Hb. lia.
Qed.

Lemma sum_axis0_lookup (m : ndarray bool) j :
  wf m → j < (shape m).2 →
  sum_axis0 m !! j = Some (missing_in_col m j).
Proof.
  intros [Hn Hd] Hj. unfold sum_axis0.
  rewrite (sum_rows_lookup _ _ _ Hd Hj). f_equal.
  unfold missing_in_col. rewrite <- Hn. symmetry.
  apply (count_positions (λ i, get m i j) (λ r, default inhabitant (r !! j))).
  intros i r Hr. unfold get. rewrite Hr. reflexivity.
Qed.

(** ** The observation node *)

Section Y_node_properties.
Context {F : Type} `{FloatOps F}.

(** C6.  Running [mask] on a node a second time changes nothing: the masked
    value, with its mask and its fill value 0, is the one of the first
    run.  On a value that is already a masked array, [mask] keeps the data
    and the mask and sets the fill value to 0; on an ndarray it masks the
    entries that are not finite. *)
Theorem mask_idempotent (nd : Y_Node F) :
  mask (mask nd) = mask nd ∧
  (∃ m, value (mask nd) = Masked m ∧ fill_value m = zero ∧
        value (mask (mask nd)) = Masked m ∧
        getmask (value (mask (mask nd))) = getmask (value (mask nd))) ∧
  value (mask nd)
  = match value nd with
    | Masked m0 => Masked (set_fill_value m0 zero)
    | Plain a => Masked (set_fill_value (masked_invalid a) zero)
    end.
Proof.
  split; [|split].
  - unfold mask, with_value. simpl. reflexivity.
  - unfold mask. simpl. eexists. repeat split.
  - unfold mask. simpl. destruct (value nd); reflexivity.
Qed.

(* the mask that the constructor derives from an ndarray is a full array
   of the shape of the data *)
Lemma Y_Node_init_mask (dim : nat * nat) (a : ndarray F) :
  wf (getMask (Y_Node_init dim (Plain a))) ∧
  shape (getMask (Y_Node_init dim (Plain a))) = ((shape a).1, (shape a).2).
Proof. split; [apply wf_tabulate|reflexivity]. Qed.

(** C3, as the code has it.  After [precompute] on a node whose mask has
    the shape [dim] = (samples, features): [N] is indexed by the columns,
    and [N[j]] plus the number of missing entries of column j is the number
    of samples; [D] is indexed by the rows, and [D[i]] plus the number of
    missing entries of row i is the number of features. *)
Theorem precompute_observed_counts (nd nd' : Y_Node F) options gpu :
  wf (getMask nd) →
  shape (getMask nd) = dim nd →
  precompute options nd = ok (nd', gpu) →
  ∃ n d, N nd' = Some n ∧ D nd' = Some d ∧
    (∀ j, j < (dim nd).2 →
       ∃ x, n !! j = Some x ∧ (x + missing_in_col (getMask nd) j = Z.of_nat (dim nd).1)%Z) ∧
    (∀ i, i < (dim nd).1 →
       ∃ x, d !! i = Some x ∧ (x + missing_in_row (getMask nd) i = Z.of_nat (dim nd).2)%Z).
Proof.
  intros Hwf Hshape Hpre. unfold precompute in Hpre.
  destruct options as [opts|]; [|discriminate]. simpl in Hpre.
  unfold dsub in Hpre. destruct (dget "gpu_mode" opts); [|discriminate].
  simpl in Hpre. injection Hpre as <- <-. simpl.
  eexists _, _. split; [reflexivity|]. split; [reflexivity|]. split.
  - intros j Hj. change (map ?f ?l) with (f <$> l). rewrite list_lookup_fmap.
    rewrite sum_axis0_lookup by (rewrite ?Hshape; assumption). simpl.
    eexists. split; [reflexivity|]. lia.
  - intros i Hi. change (map ?f ?l) with (f <$> l). rewrite list_lookup_fmap.
    rewrite sum_axis1_lookup by (rewrite ?Hshape; assumption). simpl.
    eexists. split; [reflexivity|]. lia.
Qed.

(** C1.  With [likconst] precomputed and Z, W and Tau in the Markov
    blanket, on arrays of matching shapes, [calculateELBO] returns
    likconst + 0.5 * sum(lnE zeroed under the mask) - sum(E * tmp), with
    tmp = Y^2 + ZZ.WW - (Z^2).(W^2) + (Z.W)^2 - 2*(Z.W)*Y zeroed under the
    mask, W and WW being the transposed E and E2 of the W node. *)
Theorem calculateELBO_formula (nd : Y_Node F) (lc : F)
    (Tau Wn Zn : Expectations F) (TauE TaulnE WE WE2 Z ZZ : ndarray F) (n d k : nat) :
  likconst nd = Some lc →
  dget "Tau" (markov_blanket nd) = Some Tau →
  dget "W" (markov_blanket nd) = Some Wn →
  dget "Z" (markov_blanket nd) = Some Zn →
  dget "E" Tau = Some TauE → dget "lnE" Tau = Some TaulnE →
  dget "E" Wn = Some WE → dget "E2" Wn = Some WE2 →
  dget "E" Zn = Some Z → dget "E2" Zn = Some ZZ →
  shape (value_data (value nd)) = (n, d) →
  shape (getmask (value nd)) = (n, d) →
  shape TauE = (n, d) → shape TaulnE = (n, d) →
  shape Z = (n, k) → shape ZZ = (n, k) →
  shape WE = (d, k) → shape WE2 = (d, k) →
  calculateELBO nd
  = ok (elbo_spec lc (getmask (value nd)) TauE TaulnE
          (value_data (value nd)) Z ZZ WE WE2).
Proof.
  intros Hlc HTau HW HZ HTE HTl HWE HWE2 HZE HZE2 HY Hm HsE Hsl HsZ HsZZ HsW HsWW.
  unfold calculateELBO, getExpectation, dsub.
  unfold setmask, dot, zip2, amap, transpose.
  repeat (first [ rewrite HTau | rewrite HW | rewrite HZ | rewrite HWE
                | rewrite HWE2 | rewrite HZE | rewrite HZE2 | rewrite HTl
                | rewrite HTE | rewrite Hlc
                | rewrite decide_True
                    by (rewrite ?shape_tabulate, ?HY, ?Hm, ?HsE, ?Hsl, ?HsZ,
                          ?HsZZ, ?HsW, ?HsWW; reflexivity) ];
          cbn [rbind of_option ok raise]).
  rewrite ?shape_tabulate, ?HY, ?Hm, ?HsE, ?Hsl, ?HsZ, ?HsZZ, ?HsW, ?HsWW.
  cbn [fst snd].
  unfold elbo_spec. rewrite HY. cbn [fst snd]. rewrite !asum_tabulate.
  unfold ok. do 3 f_equal. apply entries_ext. intros i j Hi Hj.
  rewrite get_tabulate by assumption. f_equal.
  destruct (get (getmask (value nd)) i j); [reflexivity|].
  unfold residual_spec. rewrite HsZ. cbn [fst snd].
  repeat (rewrite get_tabulate by assumption).
  repeat match goal with
         | |- fsum _ = fsum _ =>
             f_equal; apply fmap_seq_ext; intros l Hl;
             repeat (rewrite get_tabulate by assumption); reflexivity
         | |- sub _ _ = sub _ _ => f_equal
         | |- add _ _ = add _ _ => f_equal
         | |- mul _ _ = mul _ _ => f_equal
         | |- square _ = square _ => f_equal
         | |- _ => reflexivity
         end.
Qed.

End Y_node_properties.

(** ** Values under the mask *)

Lemma agree_refl {A} `{Inhabited A} msk (a : ndarray A) : agree msk a a.
Proof. split; [reflexivity|]. intros. reflexivity. Qed.

Lemma agree_amap {A B} `{Inhabited A, Inhabited B} msk (f : A → B) (a b : ndarray A) :
  agree msk a b → agree msk (amap f a) (amap f b).
Proof.
  intros [Hs Hab]. unfold amap. rewrite <- Hs. split; [reflexivity|].
  simpl. intros i j Hi Hj Hm. rewrite !get_tabulate by assumption.
  f_equal. apply Hab; assumption.
Qed.

Lemma agree_zip2 {A B C} `{Inhabited A, Inhabited B, Inhabited C} msk
    (f : A → B → C) (a a' : ndarray A) (b b' : ndarray B) :
  agree msk a a' → agree msk b b' →
  match zip2 f a b, zip2 f a' b' with
  | inr c, inr c' => agree msk c c'
  | inl e, inl e' => e = e'
  | _, _ => False
  end.
Proof.
  intros [Hsa Ha] [Hsb Hb]. unfold zip2. rewrite <- Hsa, <- Hsb.
  destruct (decide (shape a = shape b)) as [Hs|]; [|reflexivity].
  split; [reflexivity|]. simpl. intros i j Hi Hj Hm.
  rewrite !get_tabulate by assumption. f_equal; [apply Ha|apply Hb]; try assumption.
  - rewrite <- Hs. assumption.
  - rewrite <- Hs. assumption.
Qed.

Lemma setmask_agree {A} `{Inhabited A} msk (a b : ndarray A) (v : A) :
  agree msk a b → setmask a msk v = setmask b msk v.
Proof.
  intros [Hs Hab]. unfold setmask. rewrite <- Hs.
  destruct (decide (shape a = shape msk)); [|reflexivity].
  f_equal. apply tabulate_ext. intros i j Hi Hj.
  destruct (get msk i j) eqn:Hm; [reflexivity|]. apply Hab; assumption.
Qed.

Section masked_values.
Context {F : Type} `{FloatOps F}.

(** C2.  Two nodes with the same mask, the same neighbours and the same
    [likconst], whose observation matrices have one shape and agree at
    every unmasked position, get the same result from [calculateELBO]:
    the values stored under the mask play no part. *)
Theorem calculateELBO_masked_values_irrelevant (nd1 nd2 : Y_Node F) :
  markov_blanket nd1 = markov_blanket nd2 →
  likconst nd1 = likconst nd2 →
  getmask (value nd1) = getmask (value nd2) →
  shape (value_data (value nd1)) = shape (value_data (value nd2)) →
  (∀ i j, i < (shape (value_data (value nd1))).1 →
          j < (shape (value_data (value nd1))).2 →
          get (getmask (value nd1)) i j = false →
          get (value_data (value nd1)) i j = get (value_data (value nd2)) i j) →
  calculateELBO nd1 = calculateELBO nd2.
Proof.
  intros Hmb Hlc Hmask Hshape Hval.
  assert (agree (getmask (value nd1)) (value_data (value nd1)) (value_data (value nd2)))
    as HY by (split; assumption).
  unfold calculateELBO, getExpectation. rewrite <- Hmb, <- Hlc, <- Hmask.
  set (msk := getmask (value nd1)) in *.
  set (Y1 := value_data (value nd1)) in *.
  set (Y2 := value_data (value nd2)) in *.
  repeat match goal with
         | |- rbind (dsub ?k ?d) _ = rbind (dsub ?k ?d) _ =>
             destruct (dsub k d); cbn [rbind]; [reflexivity|]
         | |- rbind (setmask ?a ?m ?v) _ = rbind (setmask ?a ?m ?v) _ =>
             destruct (setmask a m v); cbn [rbind]; [reflexivity|]
         | |- rbind (dot ?a ?b) _ = rbind (dot ?a ?b) _ =>
             destruct (dot a b); cbn [rbind]; [reflexivity|]
         end.
  match goal with
  | |- rbind (zip2 add ?a ?t) _ = rbind (zip2 add ?a' ?t) _ =>
      pose proof (agree_zip2 msk add a a' t t (agree_amap msk square _ _ HY)
                    (agree_refl msk t)) as Hs2;
      destruct (zip2 add a t) as [e2|s2], (zip2 add a' t) as [e2'|s2'];
      try contradiction; cbn [rbind]; [congruence|]
  end.
  match goal with
  | |- rbind (dot ?a ?b) _ = rbind (dot ?a ?b) _ =>
      destruct (dot a b) as [|t3]; cbn [rbind]; [reflexivity|]
  end.
  pose proof (agree_zip2 msk sub s2 s2' t3 t3 Hs2 (agree_refl msk t3)) as Hs3.
  destruct (zip2 sub s2 t3) as [e3|s3], (zip2 sub s2' t3) as [e3'|s3'];
    try contradiction; cbn [rbind]; [congruence|].
  match goal with
  | |- rbind (zip2 add s3 ?q) _ = _ =>
      pose proof (agree_zip2 msk add s3 s3' q q Hs3 (agree_refl msk q)) as Hs4;
      destruct (zip2 add s3 q) as [e4|s4], (zip2 add s3' q) as [e4'|s4'];
      try contradiction; cbn [rbind]; [congruence|]
  end.
  match goal with
  | |- rbind (zip2 mul ?q Y1) _ = _ =>
      pose proof (agree_zip2 msk mul q q Y1 Y2 (agree_refl msk q) HY) as Ht5;
      destruct (zip2 mul q Y1) as [e5|t5], (zip2 mul q Y2) as [e5'|t5'];
      try contradiction; cbn [rbind]; [congruence|]
  end.
  pose proof (agree_zip2 msk sub s4 s4' t5 t5' Hs4 Ht5) as Htmp.
  destruct (zip2 sub s4 t5) as [e6|tmp0], (zip2 sub s4' t5') as [e6'|tmp0'];
    try contradiction; cbn [rbind]; [congruence|].
  rewrite (setmask_agree msk tmp0 tmp0' zero Htmp). reflexivity.
Qed.

End masked_values.

(** ** Dictionaries *)

Section assoc_properties.
Context {K V : Type} `{EqDecision K}.
Implicit Types (d : assoc K V) (k : K) (v : V).

Lemma dget_dset d k k' v :
  dget k' (dset k v d) = if decide (k = k') then Some v else dget k' d.
Proof.
  induction d as [|[k0 v0] d IH]; simpl.
  - destruct (decide (k = k')); reflexivity.
  - destruct (decide (k0 = k)) as [->|Hne]; simpl.
    + destruct (decide (k = k')); reflexivity.
    + destruct (decide (k0 = k')) as [->|Hne'].
      * destruct (decide (k = k')); [congruence|reflexivity].
      * exact IH.
Qed.

Lemma dget_dset_eq d k v : dget k (dset k v d) = Some v.
Proof. rewrite dget_dset. destruct (decide (k = k)); [reflexivity|congruence]. Qed.

Lemma dget_dset_ne d k k' v : k ≠ k' → dget k' (dset k v d) = dget k' d.
Proof. intros Hne. rewrite dget_dset. destruct (decide (k = k')); [congruence|reflexivity]. Qed.

Lemma dget_ddel_ne d k k' : k ≠ k' → dget k' (ddel k d) = dget k' d.
Proof.
  intros Hne. induction d as [|[k0 v0] d IH]; simpl; [reflexivity|].
  destruct (decide (k0 = k)) as [->|Hne0]; simpl.
  - destruct (decide (k = k')); [congruence|reflexivity].
  - destruct (decide (k0 = k')); [reflexivity|exact IH].
Qed.

Lemma dget_None_keys d k : dget k d = None ↔ k ∉ dkeys d.
Proof.
  induction d as [|[k0 v0] d IH]; simpl.
  - split; [intros _; apply not_elem_of_nil|reflexivity].
  - rewrite not_elem_of_cons. destruct (decide (k0 = k)) as [->|Hne].
    + split; [discriminate|]. intros [Hk _]. congruence.
    + rewrite IH. split; [intros Hk; split; [congruence|exact Hk]|intros [_ Hk]; exact Hk].
Qed.

Lemma dget_Some_elem d k v : dget k d = Some v → (k, v) ∈ d.
Proof.
  induction d as [|[k0 v0] d IH]; simpl; [discriminate|].
  destruct (decide (k0 = k)) as [->|Hne].
  - intros [= ->]. apply list_elem_of_here.
  - intros Hk. apply list_elem_of_further, IH, Hk.
Qed.

Lemma elem_dget d k v : NoDup (dkeys d) → (k, v) ∈ d → dget k d = Some v.
Proof.
  induction d as [|[k0 v0] d IH]; simpl; intros Hnd Hin.
  - apply elem_of_nil in Hin as [].
  - apply NoDup_cons in Hnd as [Hk0 Hnd]. apply elem_of_cons in Hin as [[= -> ->]|Hin].
    + destruct (decide (k0 = k0)); [reflexivity|congruence].
    + destruct (decide (k0 = k)) as [->|Hne]; [|apply IH; assumption].
      exfalso. apply Hk0. unfold dkeys.
      change k with (fst (k, v)). apply list_elem_of_fmap_2, Hin.
Qed.

Lemma dkeys_ddel_subseteq d k x : x ∈ dkeys (ddel k d) → x ∈ dkeys d.
Proof.
  induction d as [|[k0 v0] d IH]; simpl; [tauto|].
  destruct (decide (k0 = k)); simpl.
  - apply list_elem_of_further.
  - rewrite !elem_of_cons. intros [->|Hx]; [left; reflexivity|right; apply IH, Hx].
Qed.

Lemma NoDup_ddel d k : NoDup (dkeys d) → NoDup (dkeys (ddel k d)).
Proof.
  induction d as [|[k0 v0] d IH]; simpl; intros Hnd; [exact Hnd|].
  apply NoDup_cons in Hnd as [Hk0 Hnd].
  destruct (decide (k0 = k)); simpl; [exact Hnd|].
  apply NoDup_cons. split; [|apply IH, Hnd].
  intros Hin. apply Hk0, (dkeys_ddel_subseteq _ _ _ Hin).
Qed.

Lemma dget_ddel_eq d k : NoDup (dkeys d) → dget k (ddel k d) = None.
Proof.
  induction d as [|[k0 v0] d IH]; simpl; intros Hnd; [reflexivity|].
  apply NoDup_cons in Hnd as [Hk0 Hnd].
  destruct (decide (k0 = k)) as [->|Hne]; simpl.
  - apply dget_None_keys, Hk0.
  - destruct (decide (k0 = k)); [congruence|apply IH, Hnd].
Qed.

Lemma ddel_absent d k : dget k d = None → ddel k d = d.
Proof.
  induction d as [|[k0 v0] d IH]; simpl; [reflexivity|].
  destruct (decide (k0 = k)); [discriminate|]. intros Hk. f_equal. apply IH, Hk.
Qed.

Lemma dkeys_dset d k v x : x ∈ dkeys (dset k v d) ↔ x = k ∨ x ∈ dkeys d.
Proof.
  induction d as [|[k0 v0] d IH]; simpl.
  - rewrite elem_of_cons. reflexivity.
  - destruct (decide (k0 = k)) as [->|Hne]; simpl; rewrite !elem_of_cons.
    + tauto.
    + rewrite IH. tauto.
Qed.

Lemma NoDup_dset d k v : NoDup (dkeys d) → NoDup (dkeys (dset k v d)).
Proof.
  induction d as [|[k0 v0] d IH]; simpl; intros Hnd.
  - apply NoDup_singleton.
  - apply NoDup_cons in Hnd as [Hk0 Hnd].
    destruct (decide (k0 = k)) as [->|Hne]; simpl.
    + apply NoDup_cons. split; assumption.
    + apply NoDup_cons. split; [|apply IH, Hnd].
      rewrite dkeys_dset. intros [->|Hin]; [congruence|contradiction].
Qed.

Lemma dset_absent d k v : dget k d = None → dset k v d = d ++ [(k, v)].
Proof.
  induction d as [|[k0 v0] d IH]; simpl; [reflexivity|].
  destruct (decide (k0 = k)); [discriminate|]. intros Hk. f_equal. apply IH, Hk.
Qed.

Lemma dmem_true d k : dmem k d = true ↔ is_Some (dget k d).
Proof.
  unfold dmem. destruct (dget k d); split; intros Hx; try reflexivity; try discriminate.
  - eauto.
  - destruct Hx as [? [=]].
Qed.

(* an entry sits at one position of the keys and of the values *)
Lemma dget_position d k v :
  dget k d = Some v → ∃ i, dkeys d !! i = Some k ∧ dvalues d !! i = Some v.
Proof.
  induction d as [|[k0 v0] d IH]; simpl; [discriminate|].
  destruct (decide (k0 = k)) as [->|Hne].
  - intros [= ->]. exists 0. split; reflexivity.
  - intros Hk. destruct (IH Hk) as (i & Hik & Hiv). exists (S i). split; assumption.
Qed.

End assoc_properties.

(** ** Stateful steps *)

Lemma mapR_lookup {A B} (f : A → res B) (l : list A) (l' : list B) i x :
  mapR f l = ok l' → l !! i = Some x → ∃ y, f x = ok y ∧ l' !! i = Some y.
Proof.
  revert l' i. induction l as [|a l IH]; intros l' i Hm Hi; [discriminate|].
  simpl in Hm. destruct (f a) as [|b] eqn:Hfa; [discriminate|]. simpl in Hm.
  destruct (mapR f l) as [|bs] eqn:Hl; [discriminate|]. simpl in Hm.
  injection Hm as <-. destruct i as [|i]; simpl in *.
  - injection Hi as <-. eauto.
  - apply (IH bs i eq_refl Hi).
Qed.

Lemma mapR_Forall {A B} (f : A → res B) (g : A → B) (l : list A) :
  Forall (λ x, f x = ok (g x)) l → mapR f l = ok (map g l).
Proof.
  induction 1 as [|x l Hx _ IH]; simpl; [reflexivity|].
  rewrite Hx, IH. reflexivity.
Qed.

Lemma ins_frame {V} (l : list (string * V)) (o : dict V) x :
  x ∉ map fst l → dget x (ins l o) = dget x o.
Proof.
  revert o. induction l as [|[k v] l IH]; intros o Hx; simpl in *; [reflexivity|].
  apply not_elem_of_cons in Hx as [Hne Hx]. unfold ins in *. simpl.
  rewrite IH by assumption. apply dget_dset_ne. congruence.
Qed.

Lemma ins_written {V} (l : list (string * V)) (o : dict V) x v :
  NoDup (map fst l) → (x, v) ∈ l → dget x (ins l o) = Some v.
Proof.
  revert o. induction l as [|[k v'] l IH]; intros o Hnd Hin; simpl in *.
  - apply elem_of_nil in Hin as [].
  - apply NoDup_cons in Hnd as [Hk Hnd]. unfold ins in *. simpl.
    apply elem_of_cons in Hin as [[= -> ->]|Hin].
    + fold (ins l (dset k v' o)). rewrite ins_frame by assumption. apply dget_dset_eq.
    + apply IH; assumption.
Qed.

Lemma ins_origin {V} (l : list (string * V)) (o : dict V) x v :
  dget x (ins l o) = Some v → (x, v) ∈ l ∨ dget x o = Some v.
Proof.
  revert o. induction l as [|[k v'] l IH]; intros o Hx; simpl in *; [right; exact Hx|].
  unfold ins in *. simpl in Hx. apply IH in Hx as [Hin|Hx].
  - left. apply list_elem_of_further, Hin.
  - rewrite dget_dset in Hx. destruct (decide (k = x)) as [->|Hne].
    + injection Hx as ->. left. apply list_elem_of_here.
    + right. exact Hx.
Qed.

Lemma ins_keeps_keys {V} (l : list (string * V)) (o : dict V) x :
  is_Some (dget x o) → is_Some (dget x (ins l o)).
Proof.
  revert o. induction l as [|[k v'] l IH]; intros o Hx; simpl in *; [exact Hx|].
  unfold ins in *. simpl. apply IH. rewrite dget_dset.
  destruct (decide (k = x)); [eauto|exact Hx].
Qed.

Lemma NoDup_ins {V} (l : list (string * V)) (o : dict V) :
  NoDup (dkeys o) → NoDup (dkeys (ins l o)).
Proof.
  revert o. induction l as [|[k v'] l IH]; intros o Hnd; simpl in *; [exact Hnd|].
  unfold ins in *. simpl. apply IH, NoDup_dset, Hnd.
Qed.

Section train_options.
Context {F : Type} `{FloatOps F}.
Implicit Types (o items : dict (OptVal F)) (w : World F).

Lemma set_dict_id l o w : heap w !! l = Some (ODict o) → set_dict l o w = w.
Proof.
  intros Hl. unfold set_dict, with_heap. rewrite list_insert_id by exact Hl.
  destruct w; reflexivity.
Qed.

Lemma set_dict_twice l o o' w : set_dict l o (set_dict l o' w) = set_dict l o w.
Proof. unfold set_dict, with_heap. simpl. rewrite list_insert_insert_eq. reflexivity. Qed.

Lemma heap_set_dict l o w :
  l < length (heap w) → heap (set_dict l o w) !! l = Some (ODict o).
Proof. intros Hl. simpl. apply list_lookup_insert_eq, Hl. Qed.

Lemma length_heap_set_dict l o w : length (heap (set_dict l o w)) = length (heap w).
Proof. simpl. apply length_insert. Qed.

Lemma files_set_dict l o w : files (set_dict l o w) = files w.
Proof. reflexivity. Qed.

Lemma read_dict_at l o w : heap w !! l = Some (ODict o) → read_dict l w = (ok o, w).
Proof. intros Hl. unfold read_dict. rewrite Hl. reflexivity. Qed.

Lemma dict_setitem_at l k v o w :
  heap w !! l = Some (ODict o) →
  dict_setitem l k v w = (ok tt, set_dict l (dset k v o) w).
Proof. intros Hl. unfold dict_setitem, bind. rewrite (read_dict_at l o w Hl). reflexivity. Qed.

Lemma dict_pop_at l k o w :
  heap w !! l = Some (ODict o) → dmem k o = true →
  dict_pop l k w = (ok tt, set_dict l (ddel k o) w).
Proof.
  intros Hl Hk. unfold dict_pop, bind. rewrite (read_dict_at l o w Hl).
  cbv beta iota delta [ok]. rewrite Hk. reflexivity.
Qed.

Lemma drop_key_at l k o w :
  heap w !! l = Some (ODict o) →
  drop_key l k w = (ok tt, set_dict l (ddel k o) w).
Proof.
  intros Hl. unfold drop_key, dict_contains, bind. rewrite (read_dict_at l o w Hl).
  cbv beta iota delta [ok ret]. destruct (dmem k o) eqn:Hk.
  - apply dict_pop_at; assumption.
  - unfold ret. f_equal. symmetry. rewrite ddel_absent.
    + apply set_dict_id, Hl.
    + unfold dmem in Hk. destruct (dget k o); [discriminate|reflexivity].
Qed.

(* the inner loop: for k1, v1 in v.items(): opts[k_k1] = v1 *)
Lemma setitems_at l (k : string) (v : list (string * OptVal F)) o w :
  heap w !! l = Some (ODict o) →
  forM_ v (λ kv1, dict_setitem l (k +:+ "_" +:+ kv1.1) kv1.2) w
  = (ok tt, set_dict l (ins (map (λ kv1, (k +:+ "_" +:+ kv1.1, kv1.2)) v) o) w).
Proof.
  revert o w. induction v as [|[k1 v1] v IH]; intros o w Hl; simpl.
  - unfold ret. f_equal. symmetry. apply set_dict_id, Hl.
  - unfold bind. rewrite (dict_setitem_at l _ _ o w Hl). simpl.
    rewrite (IH (dset (k +:+ "_" +:+ k1) v1 o)).
    + rewrite set_dict_twice. reflexivity.
    + apply heap_set_dict. eapply lookup_lt_Some, Hl.
Qed.

Lemma flatten_entry_at l kv o w :
  heap w !! l = Some (ODict o) → is_Some (dget kv.1 o) →
  flatten_entry l kv w = (ok tt, set_dict l (flatten_step o kv) w).
Proof.
  intros Hl Hk. unfold flatten_entry, flatten_step, joined_of.
  destruct kv as [k v]. simpl in *.
  destruct v as [x|s|ls|v];
    try (unfold ret; f_equal; symmetry; apply set_dict_id, Hl).
  unfold bind. rewrite (setitems_at l k v o w Hl).
  erewrite dict_pop_at.
  - rewrite set_dict_twice. reflexivity.
  - apply heap_set_dict. eapply lookup_lt_Some, Hl.
  - apply dmem_true, ins_keeps_keys, Hk.
Qed.

Lemma flatten_step_keeps_keys o kv x :
  x ≠ kv.1 → is_Some (dget x o) → is_Some (dget x (flatten_step o kv)).
Proof.
  intros Hne Hx. unfold flatten_step. destruct kv as [k v]. simpl in *.
  destruct v; try exact Hx.
  rewrite dget_ddel_ne by congruence. apply ins_keeps_keys, Hx.
Qed.

(* the loop over the copy of the options *)
Lemma flatten_loop_at l items o w :
  heap w !! l = Some (ODict o) →
  NoDup (dkeys items) →
  (∀ k, k ∈ dkeys items → is_Some (dget k o)) →
  forM_ items (flatten_entry l) w = (ok tt, set_dict l (flattened items o) w).
Proof.
  revert o w. induction items as [|kv items IH]; intros o w Hl Hnd Hkeys; simpl.
  - unfold ret. f_equal. symmetry. apply set_dict_id, Hl.
  - apply NoDup_cons in Hnd as [Hk Hnd]. unfold bind.
    rewrite (flatten_entry_at l kv o w Hl).
    2:{ apply Hkeys. apply list_elem_of_here. }
    rewrite (IH (flatten_step o kv)).
    + rewrite set_dict_twice. reflexivity.
    + apply heap_set_dict. eapply lookup_lt_Some, Hl.
    + exact Hnd.
    + intros k Hin. apply flatten_step_keeps_keys.
      * intros ->. contradiction.
      * apply Hkeys, list_elem_of_further, Hin.
Qed.

End train_options.

Section flattened_options.
Context {F : Type} `{FloatOps F}.
Implicit Types (o items : dict (OptVal F)) (w : World F) (kv : string * OptVal F).

Lemma parents_cons kv items :
  parents (kv :: items) = if is_dict kv.2 then kv.1 :: parents items else parents items.
Proof.
  unfold parents. rewrite filter_cons.
  destruct (is_dict kv.2); simpl.
  - destruct (decide (true = true)); [reflexivity|congruence].
  - destruct (decide (false = true)); [congruence|reflexivity].
Qed.

Lemma joined_of_not_dict kv : is_dict kv.2 = false → joined_of kv = [].
Proof. unfold joined_of. destruct kv as [k []]; simpl; congruence. Qed.

Lemma flatten_step_not_dict o kv : is_dict kv.2 = false → flatten_step o kv = o.
Proof. unfold flatten_step. destruct kv as [k []]; simpl; congruence. Qed.

Lemma flatten_step_dict o kv :
  is_dict kv.2 = true → flatten_step o kv = ddel kv.1 (ins (joined_of kv) o).
Proof. unfold flatten_step. destruct kv as [k []]; simpl; congruence. Qed.

Lemma parents_elem k v items : (k, VDict v) ∈ items → k ∈ parents items.
Proof.
  intros Hin. unfold parents. change k with (fst (k, VDict (F:=F) v)).
  apply list_elem_of_fmap_2, list_elem_of_filter. split; [reflexivity|exact Hin].
Qed.

Lemma joined_elem k v k1 v1 items :
  (k, VDict v) ∈ items → (k1, v1) ∈ v → (k +:+ "_" +:+ k1, v1) ∈ joined items.
Proof.
  intros Hin Hin1. unfold joined. apply list_elem_of_In, in_flat_map.
  exists (k, VDict v). split; [apply list_elem_of_In, Hin|].
  unfold joined_of. simpl. apply list_elem_of_In.
  change (k +:+ "_" +:+ k1, v1) with ((λ kv1 : string * OptVal F, (k +:+ "_" +:+ kv1.1, kv1.2)) (k1, v1)).
  apply list_elem_of_fmap_2, Hin1.
Qed.

Lemma flatten_step_frame o kv x :
  (is_dict kv.2 = true → x ≠ kv.1) → x ∉ map fst (joined_of kv) →
  dget x (flatten_step o kv) = dget x o.
Proof.
  intros Hp Hj. destruct (is_dict kv.2) eqn:Hd.
  - rewrite flatten_step_dict by assumption.
    rewrite dget_ddel_ne by (intros Heq; apply Hp; [reflexivity|symmetry; exact Heq]).
    apply ins_frame, Hj.
  - rewrite flatten_step_not_dict by assumption. reflexivity.
Qed.

Lemma flatten_step_keeps o kv x :
  (is_dict kv.2 = true → x ≠ kv.1) → is_Some (dget x o) →
  is_Some (dget x (flatten_step o kv)).
Proof.
  intros Hp Hx. destruct (is_dict kv.2) eqn:Hd.
  - rewrite flatten_step_dict by assumption.
    rewrite dget_ddel_ne by (intros Heq; apply Hp; [reflexivity|symmetry; exact Heq]).
    apply ins_keeps_keys, Hx.
  - rewrite flatten_step_not_dict by assumption. exact Hx.
Qed.

Lemma NoDup_flatten_step o kv : NoDup (dkeys o) → NoDup (dkeys (flatten_step o kv)).
Proof.
  intros Hnd. destruct (is_dict kv.2) eqn:Hd.
  - rewrite flatten_step_dict by assumption. apply NoDup_ddel, NoDup_ins, Hnd.
  - rewrite flatten_step_not_dict by assumption. exact Hnd.
Qed.

Lemma NoDup_flattened items o : NoDup (dkeys o) → NoDup (dkeys (flattened items o)).
Proof.
  revert o. induction items as [|kv items IH]; intros o Hnd; [exact Hnd|].
  apply IH, NoDup_flatten_step, Hnd.
Qed.

Lemma not_parent_cons kv items x :
  x ∉ parents (kv :: items) → (is_dict kv.2 = true → x ≠ kv.1) ∧ (x ∉ parents items).
Proof.
  rewrite parents_cons. destruct (is_dict kv.2).
  - rewrite not_elem_of_cons. intros [Hne Hx]. split; [intros _; exact Hne|exact Hx].
  - intros Hx. split; [discriminate|exact Hx].
Qed.

Lemma not_joined_cons kv items x :
  x ∉ map fst (joined (kv :: items)) →
  (x ∉ map fst (joined_of kv)) ∧ (x ∉ map fst (joined items)).
Proof.
  unfold joined. simpl. rewrite map_app, not_elem_of_app. tauto.
Qed.

(* a key that is neither a parent nor a joined name keeps its entry *)
Lemma flattened_frame items o x :
  x ∉ parents items → x ∉ map fst (joined items) →
  dget x (flattened items o) = dget x o.
Proof.
  revert o. induction items as [|kv items IH]; intros o Hp Hj; [reflexivity|].
  apply not_parent_cons in Hp as [Hp Hps]. apply not_joined_cons in Hj as [Hj Hjs].
  simpl. rewrite IH by assumption. apply flatten_step_frame; assumption.
Qed.

Lemma flattened_keeps items o x :
  x ∉ parents items → is_Some (dget x o) → is_Some (dget x (flattened items o)).
Proof.
  revert o. induction items as [|kv items IH]; intros o Hp Hx; [exact Hx|].
  apply not_parent_cons in Hp as [Hp Hps]. simpl.
  apply IH; [exact Hps|]. apply flatten_step_keeps; assumption.
Qed.

(* a joined name that is not a parent key is a key of the result *)
Lemma flattened_joined_key items o x :
  x ∈ map fst (joined items) → x ∉ parents items →
  is_Some (dget x (flattened items o)).
Proof.
  revert o. induction items as [|kv items IH]; intros o Hj Hp.
  - apply elem_of_nil in Hj as [].
  - apply not_parent_cons in Hp as [Hp Hps]. simpl.
    unfold joined in Hj. simpl in Hj. rewrite map_app in Hj.
    apply elem_of_app in Hj as [Hj|Hj]; [|apply IH; assumption].
    apply flattened_keeps; [exact Hps|].
    destruct (is_dict kv.2) eqn:Hd.
    + rewrite flatten_step_dict by assumption.
      rewrite dget_ddel_ne by (intros Heq; apply Hp; [reflexivity|symmetry; exact Heq]).
      apply list_elem_of_fmap in Hj as ([x' v] & -> & Hin). simpl.
      destruct (dget x' (ins (joined_of kv) o)) eqn:Hg; [eauto|].
      exfalso. clear -Hin Hg. revert o Hg.
      induction (joined_of kv) as [|[k1 v1] l IHl]; intros o Hg.
      * apply elem_of_nil in Hin as [].
      * unfold ins in Hg. simpl in Hg. fold (ins l (dset k1 v1 o)) in Hg.
        apply elem_of_cons in Hin as [[= -> ->]|Hin]; [|apply (IHl Hin _ Hg)].
        pose proof (ins_keeps_keys l (dset k1 v1 o) k1) as Hk.
        rewrite Hg in Hk. destruct Hk as [? [=]]. rewrite dget_dset_eq. eauto.
    + rewrite joined_of_not_dict in Hj by assumption. apply elem_of_nil in Hj as [].
Qed.

(* a joined name written once, and not a parent key, holds its value *)
Lemma flattened_joined items o x v :
  NoDup (map fst (joined items)) →
  (∀ y, y ∈ map fst (joined items) → y ∉ parents items) →
  (x, v) ∈ joined items →
  dget x (flattened items o) = Some v.
Proof.
  revert o. induction items as [|kv items IH]; intros o Hnd Hnp Hin.
  - apply elem_of_nil in Hin as [].
  - unfold joined in Hnd, Hin, Hnp. simpl in Hnd, Hin, Hnp.
    fold (joined items) in Hnd, Hin, Hnp. rewrite map_app in Hnd, Hnp.
    apply NoDup_app in Hnd as (Hnd1 & Hdisj & Hnd2). simpl.
    apply elem_of_app in Hin as [Hin|Hin].
    + assert (x ∈ map fst (joined_of kv)) as Hx.
      { change x with (fst (x, v)). apply list_elem_of_fmap_2, Hin. }
      assert (x ∉ parents (kv :: items)) as Hp.
      { apply Hnp, elem_of_app. left. exact Hx. }
      apply not_parent_cons in Hp as [Hp Hps].
      rewrite flattened_frame; [|exact Hps|apply Hdisj, Hx].
      destruct (is_dict kv.2) eqn:Hd.
      * rewrite flatten_step_dict by assumption.
        rewrite dget_ddel_ne by (intros Heq; apply Hp; [reflexivity|symmetry; exact Heq]).
        apply ins_written; assumption.
      * rewrite joined_of_not_dict in Hin by assumption. apply elem_of_nil in Hin as [].
    + apply IH; [exact Hnd2| |exact Hin].
      intros y Hy. assert (y ∉ parents (kv :: items)) as Hp.
      { apply Hnp, elem_of_app. right. exact Hy. }
      apply not_parent_cons in Hp as [_ Hp]. exact Hp.
Qed.

(* a parent key that is not a joined name is gone *)
Lemma flattened_parent items o p :
  NoDup (dkeys items) → NoDup (dkeys o) →
  p ∈ parents items → p ∉ map fst (joined items) →
  dget p (flattened items o) = None.
Proof.
  revert o. induction items as [|kv items IH]; intros o Hnd Hndo Hp Hj.
  - apply elem_of_nil in Hp as [].
  - simpl in Hnd. apply NoDup_cons in Hnd as [Hk Hnd].
    apply not_joined_cons in Hj as [Hj Hjs]. simpl.
    rewrite parents_cons in Hp. destruct (is_dict kv.2) eqn:Hd.
    + apply elem_of_cons in Hp as [->|Hp].
      * rewrite flattened_frame; [| |exact Hjs].
        -- rewrite flatten_step_dict by assumption.
           apply dget_ddel_eq, NoDup_ins, Hndo.
        -- intros Hin. apply Hk. unfold parents in Hin.
           unfold dkeys in *. apply list_elem_of_fmap in Hin as (kv' & -> & Hin).
           apply list_elem_of_filter in Hin as [_ Hin].
           apply list_elem_of_fmap_2, Hin.
      * apply IH; [exact Hnd|apply NoDup_flatten_step, Hndo|exact Hp|exact Hjs].
    + apply IH; [exact Hnd|apply NoDup_flatten_step, Hndo|exact Hp|exact Hjs].
Qed.

(* every entry of the result is a joined entry or an entry that was there *)
Lemma flattened_origin items o x v :
  NoDup (dkeys o) →
  dget x (flattened items o) = Some v → (x, v) ∈ joined items ∨ dget x o = Some v.
Proof.
  revert o. induction items as [|kv items IH]; intros o Hnd Hx; [right; exact Hx|].
  simpl in Hx. apply IH in Hx; [|apply NoDup_flatten_step, Hnd].
  destruct Hx as [Hin|Hx].
  - left. unfold joined. simpl. apply elem_of_app. right. exact Hin.
  - destruct (is_dict kv.2) eqn:Hd.
    + rewrite flatten_step_dict in Hx by assumption.
      destruct (decide (kv.1 = x)) as [<-|Hne].
      * rewrite dget_ddel_eq in Hx by apply NoDup_ins, Hnd. discriminate.
      * rewrite dget_ddel_ne in Hx by assumption.
        apply ins_origin in Hx as [Hin|Hx]; [|right; exact Hx].
        left. unfold joined. simpl. apply elem_of_app. left. exact Hin.
    + rewrite flatten_step_not_dict in Hx by assumption. right. exact Hx.
Qed.

End flattened_options.

Section container_steps.
Context {F : Type} `{FloatOps F}.
Implicit Types (w : World F) (f : h5file F) (e : h5entry F).

Lemma h5_create_at file path e f w :
  dget file (files w) = Some f → dget path f = None →
  h5_create file path e w
  = (ok tt, with_files (dset file (dset path e f) (files w)) w).
Proof.
  intros Hf Hp. unfold h5_create. rewrite Hf. unfold dmem. rewrite Hp. reflexivity.
Qed.

Lemma h5_create_heap file path e w : heap (h5_create file path e w).2 = heap w.
Proof.
  unfold h5_create. destruct (dget file (files w)); [|reflexivity].
  destruct (dmem path h); reflexivity.
Qed.

Lemma h5_set_names_heap file path names w : heap (h5_set_names file path names w).2 = heap w.
Proof.
  unfold h5_set_names. destruct (astype_S names); [reflexivity|].
  destruct (dget file (files w)) as [f|]; [|reflexivity].
  destruct (dget path f) as [[]|]; reflexivity.
Qed.

Lemma is_Some_dget_keys {V} (d : dict V) k : k ∈ dkeys d → is_Some (dget k d).
Proof.
  intros Hk. destruct (dget k d) eqn:Hg; [eauto|].
  apply dget_None_keys in Hg. contradiction.
Qed.

(* the run of saveTrainOptions up to the conversion of the values *)
Lemma saveTrainOptions_run (sm : saveModel F) w o :
  heap w !! train_opts sm = Some (ODict o) → NoDup (dkeys o) →
  saveTrainOptions sm w
  = let w1 := set_dict (train_opts sm) (final_opts o) w in
    match np_array_float (dvalues (final_opts o)) with
    | inl err => (inl err, w1)
    | inr table =>
        (h5_create (hdf5 sm) ["training_opts"] (table_entry table None) ;;
         let! final := read_dict (train_opts sm) in
         h5_set_names (hdf5 sm) ["training_opts"] (dkeys final)) w1
    end.
Proof.
  intros Hl Hnd. unfold saveTrainOptions.
  assert (train_opts sm < length (heap w)) as Hlt by (eapply lookup_lt_Some, Hl).
  unfold bind at 1. rewrite (read_dict_at _ o w Hl). cbv beta iota delta [ok].
  unfold bind at 1.
  rewrite (flatten_loop_at _ o o w Hl Hnd (is_Some_dget_keys o)). cbv beta iota delta [ok].
  unfold bind at 1.
  rewrite (drop_key_at _ "schedule" (flattened o o)) by (apply heap_set_dict, Hlt).
  rewrite set_dict_twice. cbv beta iota delta [ok].
  unfold bind at 1.
  rewrite (drop_key_at _ "convergence_mode" (ddel "schedule" (flattened o o)))
    by (apply heap_set_dict, Hlt).
  rewrite set_dict_twice. cbv beta iota delta [ok].
  fold (final_opts o).
  unfold bind at 1.
  rewrite (read_dict_at _ (final_opts o)) by (apply heap_set_dict, Hlt).
  cbv beta iota delta [ok].
  unfold bind at 1. unfold lift at 1. cbv zeta.
  destruct (np_array_float (dvalues (final_opts o))); reflexivity.
Qed.

(* whatever the outcome, the dictionary object holds the flattened options *)
Lemma saveTrainOptions_heap (sm : saveModel F) w o :
  heap w !! train_opts sm = Some (ODict o) → NoDup (dkeys o) →
  heap (saveTrainOptions sm w).2 !! train_opts sm = Some (ODict (final_opts o)).
Proof.
  intros Hl Hnd. rewrite (saveTrainOptions_run sm w o Hl Hnd). cbv zeta.
  assert (train_opts sm < length (heap w)) as Hlt by (eapply lookup_lt_Some, Hl).
  set (w1 := set_dict (train_opts sm) (final_opts o) w).
  assert (heap w1 !! train_opts sm = Some (ODict (final_opts o))) as H1
    by apply heap_set_dict, Hlt.
  destruct (np_array_float (dvalues (final_opts o))) as [err|table]; [exact H1|].
  unfold bind at 1.
  pose proof (h5_create_heap (hdf5 sm) ["training_opts"] (table_entry table None) w1) as Hc.
  destruct (h5_create (hdf5 sm) ["training_opts"] (table_entry table None) w1) as [[err|[]] w2];
    cbn [snd] in Hc; [cbn [snd]; rewrite Hc; exact H1|].
  unfold bind at 1. unfold read_dict at 1. rewrite Hc, H1. cbv beta iota delta [ok].
  rewrite h5_set_names_heap, Hc. exact H1.
Qed.

End container_steps.

Section train_options_results.
Context {F : Type} `{FloatOps F}.
Implicit Types (w : World F) (o : dict (OptVal F)).

Lemma dget_ddel {V} (d : dict V) k k' :
  NoDup (dkeys d) →
  dget k' (ddel k d) = if decide (k = k') then None else dget k' d.
Proof.
  intros Hnd. destruct (decide (k = k')) as [->|Hne].
  - apply dget_ddel_eq, Hnd.
  - apply dget_ddel_ne, Hne.
Qed.

Lemma mapR_total {A B} (f : A → res B) (l : list A) :
  Forall (λ x, ∃ y, f x = ok y) l → ∃ l', mapR f l = ok l'.
Proof.
  induction 1 as [|x l [y Hy] _ [l' IH]]; simpl; [eauto|].
  rewrite Hy, IH. simpl. eauto.
Qed.

(* values that are numbers or numeric strings make a 1-D table *)
Lemma np_array_float_scalars (vals : list (OptVal F)) :
  Forall (λ v, ∃ y, to_float v = ok y) vals →
  ∃ xs, mapR to_float vals = ok xs ∧ np_array_float vals = ok (Table1 xs).
Proof.
  intros Hall. destruct (mapR_total _ _ Hall) as [xs Hxs]. exists xs. split; [exact Hxs|].
  unfold np_array_float.
  assert (forallb (λ v, negb (is_list v)) vals = true) as ->.
  { apply forallb_forall. intros v Hv. apply list_elem_of_In in Hv.
    eapply Forall_forall in Hall as [y Hy]; [|exact Hv].
    destruct v; try reflexivity. discriminate Hy. }
  rewrite Hxs. reflexivity.
Qed.

Lemma astype_S_ascii (names : list string) :
  (∀ k, k ∈ names → is_ascii k = true) → astype_S names = ok names.
Proof.
  intros Hall. unfold astype_S.
  assert (forallb is_ascii names = true) as ->; [|reflexivity].
  apply forallb_forall. intros k Hk. apply Hall, list_elem_of_In, Hk.
Qed.

Lemma final_opts_lookup o x :
  NoDup (dkeys o) →
  dget x (final_opts o)
  = if decide ("convergence_mode" = x) then None
    else if decide ("schedule" = x) then None
    else dget x (flattened o o).
Proof.
  intros Hnd. unfold final_opts.
  rewrite dget_ddel by apply NoDup_ddel, NoDup_flattened, Hnd.
  destruct (decide ("convergence_mode" = x)); [reflexivity|].
  apply dget_ddel, NoDup_flattened, Hnd.
Qed.

Lemma NoDup_final_opts o : NoDup (dkeys o) → NoDup (dkeys (final_opts o)).
Proof. intros Hnd. unfold final_opts. apply NoDup_ddel, NoDup_ddel, NoDup_flattened, Hnd. Qed.

(* where the joined names stay clear of the parent keys and of the two
   dropped keys, the parents are gone and the joined names are keys *)
Lemma final_opts_keys o :
  NoDup (dkeys o) →
  (∀ x, x ∈ map fst (joined o) →
        (x ∉ parents o) ∧ x ≠ "schedule" ∧ x ≠ "convergence_mode") →
  (∀ k v, (k, VDict v) ∈ o → k ∉ dkeys (final_opts o)) ∧
  ("schedule" ∉ dkeys (final_opts o)) ∧
  ("convergence_mode" ∉ dkeys (final_opts o)) ∧
  (∀ k v k1 v1, (k, VDict v) ∈ o → (k1, v1) ∈ v →
                k +:+ "_" +:+ k1 ∈ dkeys (final_opts o)).
Proof.
  intros Hnd Hclear. repeat split.
  - intros k v Hin. apply dget_None_keys. rewrite final_opts_lookup by exact Hnd.
    destruct (decide ("convergence_mode" = k)); [reflexivity|].
    destruct (decide ("schedule" = k)); [reflexivity|].
    apply flattened_parent; [exact Hnd|exact Hnd|eapply parents_elem, Hin|].
    intros Hj. apply Hclear in Hj as [Hp _]. apply Hp. eapply parents_elem, Hin.
  - apply dget_None_keys. rewrite final_opts_lookup by exact Hnd. reflexivity.
  - apply dget_None_keys. rewrite final_opts_lookup by exact Hnd. reflexivity.
  - intros k v k1 v1 Hin Hin1.
    pose proof (joined_elem k v k1 v1 o Hin Hin1) as Hj.
    assert (k +:+ "_" +:+ k1 ∈ map fst (joined o)) as Hjk.
    { change (k +:+ "_" +:+ k1) with (fst (k +:+ "_" +:+ k1, v1)).
      apply list_elem_of_fmap_2, Hj. }
    destruct (Hclear _ Hjk) as (Hp & Hs & Hc).
    destruct (dget (k +:+ "_" +:+ k1) (final_opts o)) eqn:Hg.
    + destruct (decide (k +:+ "_" +:+ k1 ∈ dkeys (final_opts o))) as [Hk|Hk]; [exact Hk|].
      apply dget_None_keys in Hk. congruence.
    + exfalso. rewrite final_opts_lookup in Hg by exact Hnd.
      destruct (decide ("convergence_mode" = k +:+ "_" +:+ k1)); [congruence|].
      destruct (decide ("schedule" = k +:+ "_" +:+ k1)); [congruence|].
      pose proof (flattened_joined_key o o _ Hjk Hp) as [y Hy]. congruence.
Qed.

(** C10, as the code has it.  [saveTrainOptions] works on the dictionary
    object that was handed to the constructor: whatever the outcome of the
    call, that object then holds the flattened options.  Where no joined
    name parent_child is itself a key that holds a nested dictionary, nor
    'schedule' or 'convergence_mode', every parent key, 'schedule' and
    'convergence_mode' are gone from it and every joined name is a key of
    it. *)
Theorem saveTrainOptions_mutates_caller_dict
    (mdl : Model) (outfile : string) (dat : list (ndarray F))
    (sg : list string) (opts mopts : nat) (fn : list (list string))
    (vn sn : list string) (level : nat) (sm : saveModel F) (w0 w1 : World F)
    (o : dict (OptVal F)) :
  saveModel_init mdl outfile dat sg opts mopts fn vn sn level w0 = (ok sm, w1) →
  heap w0 !! opts = Some (ODict o) →
  NoDup (dkeys o) →
  (∀ x, x ∈ map fst (joined o) →
        (x ∉ parents o) ∧ x ≠ "schedule" ∧ x ≠ "convergence_mode") →
  ∃ o', heap (saveTrainOptions sm w1).2 !! opts = Some (ODict o') ∧
        (∀ k v, (k, VDict v) ∈ o → k ∉ dkeys o') ∧
        ("schedule" ∉ dkeys o') ∧
        ("convergence_mode" ∉ dkeys o') ∧
        (∀ k v k1 v1, (k, VDict v) ∈ o → (k1, v1) ∈ v →
                      k +:+ "_" +:+ k1 ∈ dkeys o').
Proof.
  intros Hinit Hl Hnd Hclear.
  assert (train_opts sm = opts ∧ heap w1 = heap w0) as [Hto Hheap].
  { revert Hinit. unfold saveModel_init, assert, bind, lift, ret, throw, h5py_File_w.
    destruct (trained mdl); [|discriminate]. cbv beta iota delta [ok].
    destruct (dsub "Y" (getNodes mdl)) as [|[ch|]]; try discriminate.
    destruct (mapR _ ch); [discriminate|].
    destruct (of_option IndexError (dat !! 0)); [discriminate|].
    destruct (bool_decide _); [|discriminate].
    intros [= <- <-]. split; reflexivity. }
  exists (final_opts o). split.
  - rewrite <- Hto. apply saveTrainOptions_heap; [|exact Hnd].
    rewrite Hto, Hheap. exact Hl.
  - apply final_opts_keys; assumption.
Qed.

(** C8, as the code has it.  For options whose keys and joined names
    parent_child are ASCII, whose values, apart from 'schedule' and
    'convergence_mode', are numbers or one-level dictionaries of numbers,
    whose joined names are pairwise distinct and are neither a key that
    holds a nested dictionary nor 'schedule' nor 'convergence_mode',
    [saveTrainOptions] succeeds and persists a table in which every nested
    entry is found under its joined name with its value, no parent key is
    a name, and 'schedule' and 'convergence_mode' are not names.  (A name
    that is not ASCII makes line 185 raise after the table is written.) *)
Theorem saveTrainOptions_table (sm : saveModel F) (w : World F)
    (o : dict (OptVal F)) (f : h5file F) :
  heap w !! train_opts sm = Some (ODict o) →
  NoDup (dkeys o) →
  dget (hdf5 sm) (files w) = Some f →
  dget ["training_opts"] f = None →
  (∀ k, k ∈ dkeys o → is_ascii k = true) →
  (∀ k, k ∈ map fst (joined o) → is_ascii k = true) →
  (∀ k v, (k, v) ∈ o → is_dict v = false →
          k ≠ "schedule" → k ≠ "convergence_mode" → ∃ x, v = VNum x) →
  (∀ k v, (k, v) ∈ joined o → ∃ x, v = VNum x) →
  NoDup (map fst (joined o)) →
  (∀ x, x ∈ map fst (joined o) →
        (x ∉ parents o) ∧ x ≠ "schedule" ∧ x ≠ "convergence_mode") →
  ∃ w' vals names,
    saveTrainOptions sm w = (ok tt, w') ∧
    persisted sm w' ["training_opts"] = Some (H5Vector vals (Some names)) ∧
    (∀ k v k1 x, (k, VDict v) ∈ o → (k1, VNum x) ∈ v →
                 table_has names vals (k +:+ "_" +:+ k1) x) ∧
    (∀ k v, (k, VDict v) ∈ o → k ∉ names) ∧
    ("schedule" ∉ names) ∧ ("convergence_mode" ∉ names).
Proof.
  intros Hl Hnd Hf Hfree Hkeys Hjkeys Hnum Hjnum Hjnd Hclear.
  pose proof (final_opts_keys o Hnd Hclear) as (Hpar & Hsch & Hcm & _).
  assert (train_opts sm < length (heap w)) as Hlt by (eapply lookup_lt_Some, Hl).
  assert (Forall (λ v, ∃ y, to_float v = ok y) (dvalues (final_opts o))) as Hall.
  { apply Forall_forall. intros v Hv. unfold dvalues in Hv.
    apply list_elem_of_fmap in Hv as ([k v'] & -> & Hin). simpl.
    apply elem_dget in Hin; [|apply NoDup_final_opts, Hnd].
    rewrite final_opts_lookup in Hin by exact Hnd.
    destruct (decide ("convergence_mode" = k)) as [|Hc]; [discriminate|].
    destruct (decide ("schedule" = k)) as [|Hs]; [discriminate|].
    destruct (flattened_origin o o k v' Hnd Hin) as [Hj|Ho].
    - destruct (Hjnum _ _ Hj) as [x ->]. simpl. eauto.
    - destruct (is_dict v') eqn:Hd.
      + exfalso. destruct v' as [| | |d]; try discriminate.
        apply dget_Some_elem in Ho.
        rewrite flattened_parent in Hin; [discriminate|exact Hnd|exact Hnd| |].
        * eapply parents_elem, Ho.
        * intros Hj. apply Hclear in Hj as [Hp _]. apply Hp. eapply parents_elem, Ho.
      + destruct (Hnum k v' (dget_Some_elem _ _ _ Ho) Hd) as [x ->]; [congruence..|].
        simpl. eauto. }
  destruct (np_array_float_scalars _ Hall) as (table & Htable & Harray).
  assert (astype_S (dkeys (final_opts o)) = ok (dkeys (final_opts o))) as Hnames.
  { apply astype_S_ascii. intros k Hk.
    destruct (is_Some_dget_keys _ _ Hk) as [v Hv].
    rewrite final_opts_lookup in Hv by exact Hnd.
    destruct (decide ("convergence_mode" = k)); [discriminate|].
    destruct (decide ("schedule" = k)); [discriminate|].
    destruct (flattened_origin o o k v Hnd Hv) as [Hj|Ho].
    - apply Hjkeys. change k with (fst (k, v)). apply list_elem_of_fmap_2, Hj.
    - apply Hkeys. destruct (decide (k ∈ dkeys o)) as [Hin|Hout]; [exact Hin|].
      apply dget_None_keys in Hout. congruence. }
  eexists _, table, (dkeys (final_opts o)). split; [|split; [|split; [|split; [|split]]]].
  - rewrite (saveTrainOptions_run sm w o Hl Hnd). cbv zeta. rewrite Harray.
    cbv beta iota delta [ok]. cbn [table_entry].
    unfold bind at 1. erewrite h5_create_at; [|exact Hf|exact Hfree].
    cbv beta iota delta [ok]. unfold bind at 1.
    rewrite (read_dict_at _ (final_opts o)) by (apply heap_set_dict, Hlt).
    cbv beta iota delta [ok]. unfold h5_set_names. rewrite Hnames.
    cbn [files with_files]. cbv beta iota delta [ok].
    rewrite dget_dset_eq, dget_dset_eq. reflexivity.
  - unfold persisted. cbn [files with_files]. rewrite dget_dset_eq. simpl.
    rewrite dget_dset_eq. reflexivity.
  - intros k v k1 x Hin Hin1.
    pose proof (joined_elem k v k1 (VNum x) o Hin Hin1) as Hj.
    assert (k +:+ "_" +:+ k1 ∈ map fst (joined o)) as Hjk.
    { change (k +:+ "_" +:+ k1) with (fst (k +:+ "_" +:+ k1, VNum x)).
      apply list_elem_of_fmap_2, Hj. }
    destruct (Hclear _ Hjk) as (Hp & Hs & Hc).
    assert (dget (k +:+ "_" +:+ k1) (final_opts o) = Some (VNum x)) as Hg.
    { rewrite final_opts_lookup by exact Hnd.
      destruct (decide ("convergence_mode" = k +:+ "_" +:+ k1)); [congruence|].
      destruct (decide ("schedule" = k +:+ "_" +:+ k1)); [congruence|].
      apply flattened_joined; [exact Hjnd| |exact Hj].
      intros y Hy. apply (Hclear y Hy). }
    apply dget_position in Hg as (i & Hik & Hiv).
    destruct (mapR_lookup _ _ _ i _ Htable Hiv) as (y & Hy & Hty).
    simpl in Hy. injection Hy as <-. exists i. split; assumption.
  - exact Hpar.
  - exact Hsch.
  - exact Hcm.
Qed.

End train_options_results.

(** ** Loops *)

Lemma forM_app {S A} (f : A → M S unit) (l1 l2 : list A) (w : S) :
  forM_ (l1 ++ l2) f w
  = match forM_ l1 f w with
    | (inl e, w1) => (inl e, w1)
    | (inr _, w1) => forM_ l2 f w1
    end.
Proof.
  revert w. induction l1 as [|x l1 IH]; intros w; simpl; [reflexivity|].
  unfold bind. destruct (f x w) as [[e|[]] w1]; [reflexivity|]. apply IH.
Qed.

(* a loop that completes has run its body, with success, at every element *)
Lemma forM_elem {S A} (f : A → M S unit) (l : list A) (x : A) (w w' : S) :
  forM_ l f w = (ok tt, w') → x ∈ l →
  ∃ l1 l2 w1 w2, l = l1 ++ x :: l2 ∧ forM_ l1 f w = (ok tt, w1) ∧
                 f x w1 = (ok tt, w2) ∧ forM_ l2 f w2 = (ok tt, w').
Proof.
  intros Hrun Hin. apply list_elem_of_split in Hin as (l1 & l2 & ->).
  rewrite forM_app in Hrun.
  destruct (forM_ l1 f w) as [[e|[]] w1] eqn:H1; [discriminate|].
  simpl in Hrun. unfold bind in Hrun.
  destruct (f x w1) as [[e|[]] w2] eqn:H2; [discriminate|].
  exists l1, l2, w1, w2. repeat split; assumption.
Qed.

Lemma forM_preserves {S A} (R : S → S → Prop) `{!PreOrder R}
    (f : A → M S unit) (l : list A) :
  (∀ x w r w', x ∈ l → f x w = (r, w') → R w w') →
  ∀ w r w', forM_ l f w = (r, w') → R w w'.
Proof.
  induction l as [|x l IH]; intros Hf w r w' Hrun; simpl in Hrun.
  - injection Hrun as <- <-. reflexivity.
  - unfold bind in Hrun. destruct (f x w) as [[e|[]] w1] eqn:H1.
    + injection Hrun as <- <-. eapply Hf; [apply list_elem_of_here|exact H1].
    + transitivity w1.
      * eapply Hf; [apply list_elem_of_here|exact H1].
      * eapply IH; [|exact Hrun]. intros y w0 r0 w0' Hy. apply Hf, list_elem_of_further, Hy.
Qed.

Lemma bind_preserves {S A B} (R : S → S → Prop) `{!PreOrder R}
    (c : M S A) (k : A → M S B) :
  (∀ w r w', c w = (r, w') → R w w') →
  (∀ x w r w', k x w = (r, w') → R w w') →
  ∀ w r w', bind c k w = (r, w') → R w w'.
Proof.
  intros Hc Hk w r w' Hrun. unfold bind in Hrun.
  destruct (c w) as [[e|x] w1] eqn:H1.
  - injection Hrun as <- <-. eapply Hc, H1.
  - transitivity w1; [eapply Hc, H1|eapply Hk, Hrun].
Qed.

Lemma lift_preserves {S A} (R : S → S → Prop) `{!PreOrder R} (c : res A) :
  ∀ (w : S) r w', lift c w = (r, w') → R w w'.
Proof. intros w r w' [= <- <-]. reflexivity. Qed.

Section evolution_properties.
Context {F : Type} `{FloatOps F}.
Implicit Types (w : World F) (a : ndarray F) (T : nat → Prop).

Lemma nan_filled_refl a : nan_filled a a.
Proof. split; [reflexivity|]. intros. left. reflexivity. Qed.

Lemma nan_filled_trans a b c : nan_filled a b → nan_filled b c → nan_filled a c.
Proof.
  intros [Hs1 H1] [Hs2 H2]. split; [congruence|].
  intros i j Hi Hj. destruct (H2 i j) as [Heq|Hnan]; [rewrite Hs1; exact Hi|rewrite Hs1; exact Hj| |].
  - rewrite Heq. apply H1; assumption.
  - right. exact Hnan.
Qed.

Lemma nan_filled_sticky a b i j :
  nan_filled a b → i < (shape a).1 → j < (shape a).2 →
  get a i j = nan → get b i j = nan.
Proof. intros [_ Hab] Hi Hj Hn. destruct (Hab i j Hi Hj); congruence. Qed.

Lemma evolves_preorder T : PreOrder (evolves T).
Proof.
  split.
  - intros w. repeat split; eauto using nan_filled_refl.
  - intros w1 w2 w3 (Hl1 & Hf1 & Hn1 & Hp1) (Hl2 & Hf2 & Hn2 & Hp2).
    split; [congruence|]. split; [|split].
    + intros l Hl. rewrite Hf2, Hf1 by assumption. reflexivity.
    + intros l a Ha. destruct (Hn1 l a Ha) as (a' & Ha' & Hnf).
      destruct (Hn2 l a' Ha') as (a'' & Ha'' & Hnf').
      exists a''. split; [exact Ha''|]. eapply nan_filled_trans; eassumption.
    + intros file f Hf. destruct (Hp1 file f Hf) as (f' & Hf' & Hk).
      destruct (Hp2 file f' Hf') as (f'' & Hf'' & Hk').
      exists f''. split; [exact Hf''|]. intros p e Hp. apply Hk', Hk, Hp.
Qed.

#[local] Existing Instance evolves_preorder.

Lemma setmask_nan_filled a msk a' : setmask a msk nan = ok a' → nan_filled a a'.
Proof.
  unfold setmask. destruct (decide (shape a = shape msk)); [|discriminate].
  intros [= <-]. split.
  - simpl. destruct (shape a); reflexivity.
  - intros i j Hi Hj. rewrite get_tabulate by assumption.
    destruct (get msk i j); [right|left]; reflexivity.
Qed.

Lemma setmask_masked a msk a' i j :
  setmask a msk nan = ok a' → i < (shape a).1 → j < (shape a).2 →
  get msk i j = true → get a' i j = nan.
Proof.
  unfold setmask. destruct (decide (shape a = shape msk)); [|discriminate].
  intros [= <-] Hi Hj Hm. rewrite get_tabulate by assumption. rewrite Hm. reflexivity.
Qed.

Lemma setmask_shape a msk a' : setmask a msk nan = ok a' → shape msk = shape a.
Proof.
  unfold setmask. destruct (decide (shape a = shape msk)); [|discriminate]. congruence.
Qed.

(* filling twice under one mask is filling once *)
Lemma setmask_twice a msk a' : setmask a msk nan = ok a' → setmask a' msk nan = ok a'.
Proof.
  unfold setmask. destruct (decide (shape a = shape msk)) as [Hs|]; [|discriminate].
  intros [= <-]. simpl.
  destruct (decide (((shape a).1, (shape a).2) = shape msk)) as [_|Hne].
  - f_equal. apply tabulate_ext. intros i j Hi Hj.
    rewrite get_tabulate by assumption. destruct (get msk i j); reflexivity.
  - exfalso. apply Hne. rewrite <- Hs. destruct (shape a); reflexivity.
Qed.

Lemma h5_create_evolves T file path e w r w' :
  h5_create file path e w = (r, w') → evolves T w w'.
Proof.
  unfold h5_create. destruct (dget file (files w)) as [f|] eqn:Hf.
  2:{ intros [= <- <-]. reflexivity. }
  destruct (dmem path f) eqn:Hp.
  { intros [= <- <-]. reflexivity. }
  intros [= <- <-]. repeat split; simpl; eauto using nan_filled_refl.
  intros file0 f0 Hf0. destruct (decide (file = file0)) as [<-|Hne].
  - rewrite dget_dset_eq. eexists. split; [reflexivity|].
    intros p e0 Hp0. rewrite dget_dset_ne; [congruence|].
    intros <-. unfold dmem in Hp. replace f0 with f in Hp0 by congruence.
    rewrite Hp0 in Hp. discriminate.
  - rewrite dget_dset_ne by assumption. eauto.
Qed.

Lemma read_arr_same l w r w' : read_arr l w = (r, w') → w' = w.
Proof. unfold read_arr. destruct (heap w !! l) as [[]|]; intros [= <- <-]; reflexivity. Qed.

Lemma read_arr_ok l w (a : ndarray F) w' :
  read_arr l w = (ok a, w') → heap w !! l = Some (OArr a) ∧ w' = w.
Proof.
  unfold read_arr. destruct (heap w !! l) as [[]|]; intros [= <- <-]; try discriminate.
  split; reflexivity.
Qed.

Lemma read_arr_evolves T l w r w' : read_arr l w = (r, w') → evolves T w w'.
Proof. intros Hr. apply read_arr_same in Hr as ->. reflexivity. Qed.

Lemma arr_setmask_ok l msk w w' :
  arr_setmask l msk nan w = (ok tt, w') →
  ∃ a a', heap w !! l = Some (OArr a) ∧ setmask a msk nan = ok a' ∧
          w' = with_heap (<[l := OArr a']> (heap w)) w.
Proof.
  unfold arr_setmask, bind, lift, write_obj.
  destruct (read_arr l w) as [[e|a] w1] eqn:Hr; [discriminate|].
  apply read_arr_ok in Hr as [Ha ->].
  destruct (setmask a msk nan) as [e|a'] eqn:Hs; [discriminate|].
  intros [= <-]. eauto.
Qed.

Lemma arr_setmask_evolves T l msk w r w' :
  T l → arr_setmask l msk nan w = (r, w') → evolves T w w'.
Proof.
  intros HT. unfold arr_setmask, bind, lift, write_obj.
  destruct (read_arr l w) as [[e|a] w1] eqn:Hr.
  { apply read_arr_same in Hr as ->. intros [= <- <-]. reflexivity. }
  apply read_arr_ok in Hr as [Ha ->].
  destruct (setmask a msk nan) as [e|a'] eqn:Hs.
  { intros [= <- <-]. reflexivity. }
  intros [= <- <-]. split; [|split; [|split]]; simpl.
  - apply length_insert.
  - intros l0 Hl0. apply list_lookup_insert_ne. intros ->. contradiction.
  - intros l0 a0 Ha0. destruct (decide (l = l0)) as [<-|Hne].
    + rewrite list_lookup_insert_eq by (eapply lookup_lt_Some, Ha).
      exists a'. split; [reflexivity|]. replace a0 with a by congruence.
      apply setmask_nan_filled with msk, Hs.
    + rewrite list_lookup_insert_ne by assumption. eauto using nan_filled_refl.
  - eauto.
Qed.

Lemma evolves_persisted T (sm : saveModel F) w w' p e :
  evolves T w w' → persisted sm w p = Some e → persisted sm w' p = Some e.
Proof.
  intros (_ & _ & _ & Hf) Hp. unfold persisted in *.
  destruct (dget (hdf5 sm) (files w)) as [f|] eqn:Hfile; [|discriminate].
  destruct (Hf _ _ Hfile) as (f' & -> & Hk). simpl in *. apply Hk, Hp.
Qed.

Lemma h5_create_persisted (sm : saveModel F) path e w w' :
  h5_create (hdf5 sm) path e w = (ok tt, w') →
  persisted sm w' path = Some e ∧ heap w' = heap w.
Proof.
  unfold h5_create, persisted. destruct (dget (hdf5 sm) (files w)) as [f|]; [|discriminate].
  destruct (dmem path f); [discriminate|]. intros [= <-]. simpl.
  rewrite dget_dset_eq. simpl. rewrite dget_dset_eq. split; reflexivity.
Qed.

End evolution_properties.

#[global] Existing Instance evolves_preorder.

Section saving_views.
Context {F : Type} `{FloatOps F}.
Implicit Types (w : World F) (a : ndarray F) (T : nat → Prop) (sm : saveModel F).

Lemma save_view_evolves T sm n m c w r w' :
  save_view sm n m c w = (r, w') → evolves T w w'.
Proof.
  unfold save_view. apply bind_preserves; [apply _|apply lift_preserves, _|].
  intros view. apply bind_preserves; [apply _|apply read_arr_evolves|].
  intros a w1 r1 w1'. apply h5_create_evolves.
Qed.

(* line 124: the view is written as the transpose of the array *)
Lemma save_view_ok sm n m c w w' :
  save_view sm n m c w = (ok tt, w') →
  ∃ view a, views_names sm !! m = Some view ∧
            heap w !! cexp c = Some (OArr a) ∧
            persisted sm w' ["expectations"; n; view]
            = Some (H5Array (transpose a) (compression_level sm)).
Proof.
  unfold save_view, bind, lift.
  destruct (views_names sm !! m) as [view|]; [|discriminate]. simpl.
  destruct (read_arr (cexp c) w) as [[e|a] w1] eqn:Hr; [discriminate|].
  apply read_arr_ok in Hr as [Ha ->]. intros Hc.
  apply h5_create_persisted in Hc as [Hp _]. eauto.
Qed.

(* lines 112-120, the body of the loop over the groups *)
Lemma group_step_evolves T sm n m c view g w r w' :
  T (cexp c) →
  (let! attr := lift (of_option IndexError (sm_mask sm !! m)) in
   let! msk := lift (as_index attr) in
   arr_setmask (cexp c) msk nan ;;
   let! a := read_arr (cexp c) in
   let! rows := lift (take_rows (np_where_eq g (samples_groups sm)) a) in
   h5_create (hdf5 sm) ["expectations"; n; view; g]
     (H5Array rows (compression_level sm))) w = (r, w') →
  evolves T w w'.
Proof.
  intros HT. apply bind_preserves; [apply _|apply lift_preserves, _|].
  intros attr. apply bind_preserves; [apply _|apply lift_preserves, _|].
  intros msk. apply bind_preserves; [apply _|intros ???; apply arr_setmask_evolves, HT|].
  intros _. apply bind_preserves; [apply _|apply read_arr_evolves|].
  intros a. apply bind_preserves; [apply _|apply lift_preserves, _|].
  intros rows w1 r1 w1'. apply h5_create_evolves.
Qed.

Lemma save_view_groups_evolves T sm n m c w r w' :
  T (cexp c) → save_view_groups sm n m c w = (r, w') → evolves T w w'.
Proof.
  intros HT. unfold save_view_groups.
  apply bind_preserves; [apply _|apply lift_preserves, _|].
  intros view. apply bind_preserves; [apply _|intros ???; apply h5_create_evolves|].
  intros _. apply forM_preserves; [apply _|].
  intros g w1 r1 w1' _. apply group_step_evolves, HT.
Qed.

(* the loop over the groups: the array is filled under the mask, and the
   rows of every group are written as they are *)
Lemma groups_loop_ok sm n m (c : Child) view (gs : list string) w w' a :
  forM_ gs (λ g,
    let! attr := lift (of_option IndexError (sm_mask sm !! m)) in
    let! msk := lift (as_index attr) in
    arr_setmask (cexp c) msk nan ;;
    let! a := read_arr (cexp c) in
    let! rows := lift (take_rows (np_where_eq g (samples_groups sm)) a) in
    h5_create (hdf5 sm) ["expectations"; n; view; g]
      (H5Array rows (compression_level sm))) w = (ok tt, w') →
  heap w !! cexp c = Some (OArr a) →
  gs ≠ [] →
  ∃ msk a1, sm_mask sm !! m = Some (MaskArray msk) ∧ setmask a msk nan = ok a1 ∧
            heap w' !! cexp c = Some (OArr a1) ∧
            ∀ g, g ∈ gs →
              ∃ rows, take_rows (np_where_eq g (samples_groups sm)) a1 = ok rows ∧
                      persisted sm w' ["expectations"; n; view; g]
                      = Some (H5Array rows (compression_level sm)).
Proof.
  revert w a. induction gs as [|g gs IH]; intros w a Hrun Ha Hne; [congruence|].
  simpl in Hrun. unfold bind at 1 in Hrun.
  match type of Hrun with
  | match ?body w with _ => _ end = _ => destruct (body w) as [[e|[]] w1] eqn:Hbody
  end; [discriminate|].
  unfold bind at 1, lift at 1 in Hbody.
  destruct (sm_mask sm !! m) as [[msk|]|] eqn:Hmsk; try discriminate. simpl in Hbody.
  unfold bind at 1, lift at 1 in Hbody. simpl in Hbody.
  unfold bind at 1 in Hbody.
  destruct (arr_setmask (cexp c) msk nan w) as [[e|[]] ws] eqn:Hset; [discriminate|].
  apply arr_setmask_ok in Hset as (a0 & a1 & Ha0 & Hfill & ->).
  replace a0 with a in * by congruence. clear Ha0.
  unfold bind at 1 in Hbody.
  match type of Hbody with
  | context [read_arr ?l ?ws] => destruct (read_arr l ws) as [[e|a1'] ws'] eqn:Hr
  end; [discriminate|].
  apply read_arr_ok in Hr as [Ha1 ->]. simpl in Ha1.
  rewrite list_lookup_insert_eq in Ha1 by (eapply lookup_lt_Some, Ha).
  injection Ha1 as <-.
  unfold bind at 1, lift at 1 in Hbody.
  destruct (take_rows (np_where_eq g (samples_groups sm)) a1) as [e|rows] eqn:Hrows;
    [discriminate|].
  apply h5_create_persisted in Hbody as [Hp Hheap].
  assert (heap w1 !! cexp c = Some (OArr a1)) as Hw1.
  { rewrite Hheap. simpl. apply list_lookup_insert_eq. eapply lookup_lt_Some, Ha. }
  destruct gs as [|g' gs].
  - simpl in Hrun. injection Hrun as <-.
    exists msk, a1. repeat split; try assumption.
    intros g0 Hg0. apply list_elem_of_singleton in Hg0 as ->. eauto.
  - destruct (IH w1 a1 Hrun Hw1 ltac:(discriminate)) as (msk' & a2 & Hmsk' & Hfill' & Hw' & Hall).
    injection Hmsk' as <-.
    rewrite (setmask_twice a msk a1 Hfill) in Hfill'. injection Hfill' as <-.
    exists msk, a1. repeat split; try assumption.
    intros g0 Hg0. apply elem_of_cons in Hg0 as [->|Hg0]; [|apply Hall, Hg0].
    exists rows. split; [exact Hrows|].
    eapply (evolves_persisted (λ _, True)); [|exact Hp].
    rewrite <- Hmsk in Hrun.
    eapply (forM_preserves (evolves (λ _, True))); [|exact Hrun].
    intros g1 w2 r2 w2' _. apply group_step_evolves. exact I.
Qed.

Lemma save_view_groups_ok sm n m c w w' a :
  save_view_groups sm n m c w = (ok tt, w') →
  heap w !! cexp c = Some (OArr a) →
  ∃ view, views_names sm !! m = Some view ∧
    (groups_names sm ≠ [] →
     ∃ msk a1, sm_mask sm !! m = Some (MaskArray msk) ∧ setmask a msk nan = ok a1 ∧
       heap w' !! cexp c = Some (OArr a1) ∧
       ∀ g, g ∈ groups_names sm →
         ∃ rows, take_rows (np_where_eq g (samples_groups sm)) a1 = ok rows ∧
                 persisted sm w' ["expectations"; n; view; g]
                 = Some (H5Array rows (compression_level sm))).
Proof.
  unfold save_view_groups. intros Hrun Ha. unfold bind at 1, lift at 1 in Hrun.
  destruct (views_names sm !! m) as [view|]; [|discriminate]. simpl in Hrun.
  unfold bind at 1 in Hrun.
  match type of Hrun with
  | context [h5_create ?f ?p ?e w] => destruct (h5_create f p e w) as [[e0|[]] w1] eqn:Hc
  end; [discriminate|].
  apply h5_create_persisted in Hc as [_ Hheap].
  exists view. split; [reflexivity|]. intros Hne.
  eapply groups_loop_ok; [exact Hrun|rewrite Hheap; exact Ha|exact Hne].
Qed.

End saving_views.

Section saving_nodes.
Context {F : Type} `{FloatOps F}.
Implicit Types (w : World F) (a : ndarray F) (T : nat → Prop) (sm : saveModel F).

Lemma save_node_evolves T sm n nd w r w' :
  (∀ ch c, nd = Multiview_Node ch → n ∈ multigroup_nodes → c ∈ ch → T (cexp c)) →
  save_node sm n nd w = (r, w') → evolves T w w'.
Proof.
  intros HT. unfold save_node.
  apply bind_preserves; [apply _|intros ???; apply h5_create_evolves|].
  intros _. destruct nd as [ch|e].
  - apply forM_preserves; [apply _|].
    intros [m c] w1 r1 w1' Hin. simpl.
    apply elem_of_lookup_imap_1 in Hin as (m' & c' & [= -> ->] & Hc).
    destruct (bool_decide (n ∈ multigroup_nodes)) eqn:Hn.
    + apply save_view_groups_evolves. apply (HT ch); [reflexivity| |].
      * apply bool_decide_eq_true in Hn. exact Hn.
      * apply list_elem_of_lookup. eauto.
    + apply save_view_evolves.
  - destruct (bool_decide (n ∈ multigroup_nodes)).
    + apply forM_preserves; [apply _|]. intros g w1 r1 w1' _.
      apply bind_preserves; [apply _|apply read_arr_evolves|].
      intros a. apply bind_preserves; [apply _|apply lift_preserves, _|].
      intros rows w2 r2 w2'. apply h5_create_evolves.
    + apply bind_preserves; [apply _|apply read_arr_evolves|].
      intros a w2 r2 w2'. apply h5_create_evolves.
Qed.

Lemma evolves_untouched w w' l :
  evolves (λ _, False) w w' → heap w' !! l = heap w !! l.
Proof. intros (_ & Hf & _). apply Hf. tauto. Qed.

(* after the node's own group is created, the heap is as before *)
Lemma save_node_start sm n nd w w' :
  save_node sm n nd w = (ok tt, w') →
  ∃ w0, heap w0 = heap w ∧
    match nd with
    | Multiview_Node children =>
        forM_ (imap pair children) (λ mc,
          if bool_decide (n ∈ multigroup_nodes)
          then save_view_groups sm n mc.1 mc.2
          else save_view sm n mc.1 mc.2) w0 = (ok tt, w')
    | Single_Node e =>
        (if bool_decide (n ∈ multigroup_nodes)
         then forM_ (groups_names sm) (λ g,
                let! a := read_arr e in
                let! rows := lift (take_rows (np_where_eq g (samples_groups sm)) a) in
                h5_create (hdf5 sm) ["expectations"; n; g]
                  (H5Array (transpose rows) (compression_level sm)))
         else
           let! a := read_arr e in
           h5_create (hdf5 sm) ["expectations"; n; "E"]
             (H5Array (transpose a) (compression_level sm))) w0 = (ok tt, w')
    end.
Proof.
  unfold save_node. unfold bind at 1.
  destruct (h5_create (hdf5 sm) ["expectations"; n] H5Group w) as [[e0|[]] w0] eqn:Hc;
    [discriminate|].
  apply h5_create_persisted in Hc as [_ Hheap]. intros Hrun.
  exists w0. split; [exact Hheap|]. destruct nd; exact Hrun.
Qed.

(* a multi-view, single-group node: every view is written transposed *)
Lemma save_node_views sm n ch m c w w' :
  save_node sm n (Multiview_Node ch) w = (ok tt, w') →
  n ∉ multigroup_nodes → ch !! m = Some c →
  ∃ view a, views_names sm !! m = Some view ∧
            heap w !! cexp c = Some (OArr a) ∧
            persisted sm w' ["expectations"; n; view]
            = Some (H5Array (transpose a) (compression_level sm)).
Proof.
  intros Hrun Hn Hc. apply save_node_start in Hrun as (w0 & Hheap & Hrun).
  rewrite bool_decide_eq_false_2 in Hrun by exact Hn.
  assert ((m, c) ∈ imap pair ch) as Hin by (apply (elem_of_lookup_imap_2 pair), Hc).
  destruct (forM_elem _ _ _ _ _ Hrun Hin) as (l1 & l2 & w1 & w2 & _ & H1 & Hx & H2).
  simpl in Hx. apply save_view_ok in Hx as (view & a & Hview & Ha & Hp).
  exists view, a. split; [exact Hview|]. split.
  - rewrite <- Hheap, <- Ha. symmetry. apply evolves_untouched.
    eapply (forM_preserves (evolves (λ _, False))); [|exact H1].
    intros mc w3 r3 w3' _. apply save_view_evolves.
  - eapply (evolves_persisted (λ _, False)); [|exact Hp].
    eapply (forM_preserves (evolves (λ _, False))); [|exact H2].
    intros mc w3 r3 w3' _. apply save_view_evolves.
Qed.

(* a multi-view, multi-group node: every view is filled with NaN under
   its mask and written group by group, as it is *)
Lemma save_node_view_groups sm n ch m c w w' a :
  save_node sm n (Multiview_Node ch) w = (ok tt, w') →
  n ∈ multigroup_nodes → ch !! m = Some c →
  heap w !! cexp c = Some (OArr a) →
  ∃ view, views_names sm !! m = Some view ∧
    (groups_names sm ≠ [] →
     ∃ msk a_t a1 a', sm_mask sm !! m = Some (MaskArray msk) ∧ nan_filled a a_t ∧
       setmask a_t msk nan = ok a1 ∧
       heap w' !! cexp c = Some (OArr a') ∧ nan_filled a1 a' ∧
       ∀ g, g ∈ groups_names sm →
         ∃ rows, take_rows (np_where_eq g (samples_groups sm)) a1 = ok rows ∧
                 persisted sm w' ["expectations"; n; view; g]
                 = Some (H5Array rows (compression_level sm))).
Proof.
  intros Hrun Hn Hc Ha. apply save_node_start in Hrun as (w0 & Hheap & Hrun).
  rewrite bool_decide_eq_true_2 in Hrun by exact Hn.
  assert ((m, c) ∈ imap pair ch) as Hin by (apply (elem_of_lookup_imap_2 pair), Hc).
  destruct (forM_elem _ _ _ _ _ Hrun Hin) as (l1 & l2 & w1 & w2 & _ & H1 & Hx & H2).
  simpl in Hx.
  assert (evolves (λ _, True) w0 w1) as (_ & _ & Hn1 & _).
  { eapply (forM_preserves (evolves (λ _, True))); [|exact H1].
    intros mc w3 r3 w3' _. apply save_view_groups_evolves. exact I. }
  assert (evolves (λ _, True) w2 w') as Hev2.
  { eapply (forM_preserves (evolves (λ _, True))); [|exact H2].
    intros mc w3 r3 w3' _. apply save_view_groups_evolves. exact I. }
  rewrite <- Hheap in Ha. destruct (Hn1 _ _ Ha) as (a_t & Hat & Hfill_t).
  destruct (save_view_groups_ok _ _ _ _ _ _ _ Hx Hat) as (view & Hview & Hgroups).
  exists view. split; [exact Hview|]. intros Hne.
  destruct (Hgroups Hne) as (msk & a1 & Hmsk & Hfill & Ha1 & Hall).
  destruct Hev2 as (Hl2 & Hf2 & Hn2 & Hp2).
  destruct (Hn2 _ _ Ha1) as (a' & Ha' & Hfill').
  exists msk, a_t, a1, a'. repeat split; try assumption.
  - apply Hfill_t.
  - apply Hfill_t.
  - apply Hfill'.
  - apply Hfill'.
  - intros g Hg. destruct (Hall g Hg) as (rows & Hrows & Hp).
    exists rows. split; [exact Hrows|].
    eapply (evolves_persisted (λ _, True)); [|exact Hp].
    repeat split; assumption.
Qed.

(* a single-view, multi-group node: the rows of every group, transposed *)
Lemma save_node_single_groups sm n e g w w' :
  save_node sm n (Single_Node e) w = (ok tt, w') →
  n ∈ multigroup_nodes → g ∈ groups_names sm →
  ∃ a rows, heap w !! e = Some (OArr a) ∧
    take_rows (np_where_eq g (samples_groups sm)) a = ok rows ∧
    persisted sm w' ["expectations"; n; g]
    = Some (H5Array (transpose rows) (compression_level sm)).
Proof.
  intros Hrun Hn Hg. apply save_node_start in Hrun as (w0 & Hheap & Hrun).
  rewrite bool_decide_eq_true_2 in Hrun by exact Hn.
  assert (∀ g0 w3 r3 w3',
    (let! a := read_arr e in
     let! rows := lift (take_rows (np_where_eq g0 (samples_groups sm)) a) in
     h5_create (hdf5 sm) ["expectations"; n; g0]
       (H5Array (transpose rows) (compression_level sm))) w3 = (r3, w3') →
    evolves (λ _, False) w3 w3') as Hbody.
  { intros g0. apply bind_preserves; [apply _|apply read_arr_evolves|].
    intros a. apply bind_preserves; [apply _|apply lift_preserves, _|].
    intros rows w4 r4 w4'. apply h5_create_evolves. }
  destruct (forM_elem _ _ _ _ _ Hrun Hg) as (l1 & l2 & w1 & w2 & _ & H1 & Hx & H2).
  simpl in Hx. unfold bind at 1 in Hx.
  destruct (read_arr e w1) as [[e0|a] w1'] eqn:Hr; [discriminate|].
  apply read_arr_ok in Hr as [Ha ->]. unfold bind at 1, lift at 1 in Hx.
  destruct (take_rows (np_where_eq g (samples_groups sm)) a) as [e0|rows] eqn:Hrows;
    [discriminate|].
  apply h5_create_persisted in Hx as [Hp _].
  exists a, rows. split; [|split; [exact Hrows|]].
  - rewrite <- Hheap, <- Ha. symmetry. apply evolves_untouched.
    eapply (forM_preserves (evolves (λ _, False))); [|exact H1].
    intros g0 w3 r3 w3' _. apply Hbody.
  - eapply (evolves_persisted (λ _, False)); [|exact Hp].
    eapply (forM_preserves (evolves (λ _, False))); [|exact H2].
    intros g0 w3 r3 w3' _. apply Hbody.
Qed.

(* a single-view, single-group node: one dataset "E", transposed *)
Lemma save_node_single sm n e w w' :
  save_node sm n (Single_Node e) w = (ok tt, w') →
  n ∉ multigroup_nodes →
  ∃ a, heap w !! e = Some (OArr a) ∧
    persisted sm w' ["expectations"; n; "E"]
    = Some (H5Array (transpose a) (compression_level sm)).
Proof.
  intros Hrun Hn. apply save_node_start in Hrun as (w0 & Hheap & Hrun).
  rewrite bool_decide_eq_false_2 in Hrun by exact Hn.
  unfold bind at 1 in Hrun.
  destruct (read_arr e w0) as [[e0|a] w1'] eqn:Hr; [discriminate|].
  apply read_arr_ok in Hr as [Ha ->].
  apply h5_create_persisted in Hrun as [Hp _].
  exists a. split; [rewrite <- Hheap; exact Ha|exact Hp].
Qed.

(* the run of saveExpectations around the export of one node *)
Lemma saveExpectations_node sm arg names n nd w w' :
  saveExpectations sm arg w = (ok tt, w') →
  select_nodes arg (getNodes (model sm)) = ok names →
  (n, nd) ∈ restrict_nodes names (getNodes (model sm)) →
  let T := masked_on_save (restrict_nodes names (getNodes (model sm))) in
  ∃ w1 w2, evolves T w w1 ∧ save_node sm n nd w1 = (ok tt, w2) ∧ evolves T w2 w'.
Proof.
  intros Hrun Hsel Hin T. unfold saveExpectations in Hrun.
  unfold bind at 1, lift at 1 in Hrun. rewrite Hsel in Hrun.
  cbv beta iota delta [ok] in Hrun. unfold bind at 1 in Hrun.
  destruct (h5_create (hdf5 sm) ["expectations"] H5Group w) as [[e0|[]] w0] eqn:Hc;
    [discriminate|].
  apply (h5_create_evolves T) in Hc.
  assert (∀ x w3 r3 w3', x ∈ restrict_nodes names (getNodes (model sm)) →
            save_node sm x.1 x.2 w3 = (r3, w3') → evolves T w3 w3') as Hbody.
  { intros [n0 nd0] w3 r3 w3' Hx. simpl. apply save_node_evolves.
    intros ch c -> Hn0 Hcc. exists n0, ch, c. repeat split; assumption. }
  destruct (forM_elem _ _ _ _ _ Hrun Hin) as (l1 & l2 & w1 & w2 & Hl & H1 & Hx & H2).
  exists w1, w2. split; [|split; [exact Hx|]].
  - transitivity w0; [exact Hc|].
    eapply (forM_preserves (evolves T)); [|exact H1].
    intros x w3 r3 w3' Hx3. apply Hbody. rewrite Hl. apply elem_of_app. left. exact Hx3.
  - eapply (forM_preserves (evolves T)); [|exact H2].
    intros x w3 r3 w3' Hx3. apply Hbody. rewrite Hl.
    apply elem_of_app. right. apply list_elem_of_further, Hx3.
Qed.

End saving_nodes.

(** ** The serializer *)

Section serializer_results.
Context {F : Type} `{FloatOps F}.
Implicit Types (w : World F) (a : ndarray F) (sm : saveModel F).

Lemma take_rows_shape {A} `{Inhabited A} (ix : list nat) (a rows : ndarray A) :
  take_rows ix a = ok rows → shape rows = (length ix, (shape a).2).
Proof.
  unfold take_rows. destruct (forallb _ ix); [|discriminate].
  intros [= <-]. reflexivity.
Qed.

Lemma setmask_result_shape a msk a' : setmask a msk nan = ok a' → shape a' = shape a.
Proof. intros Hs. apply setmask_nan_filled in Hs as [Hs _]. exact Hs. Qed.

(** C7.  For every node that a completed [saveExpectations] exports:
    a multi-view node outside the multi-group list has, for each view, one
    dataset that is the transpose of its in-memory matrix, so its first
    axis is the second axis (the factors) of that matrix; a single-view
    node has the transposed rows of each group under the group's name when
    it is in the multi-group list, and its transposed matrix under "E"
    otherwise; a multi-view node of the multi-group list has, for each view
    and group, the rows of the group of its matrix filled with NaN under
    the mask, not transposed.  The transposed arrays are the ones held
    before the call when they are not among the arrays that the call fills
    with NaN. *)
Theorem saveExpectations_orientation sm (arg : NodesArg) (names : list string) w w' :
  saveExpectations sm arg w = (ok tt, w') →
  select_nodes arg (getNodes (model sm)) = ok names →
  let exported := restrict_nodes names (getNodes (model sm)) in
  let level := compression_level sm in
  (∀ n ch m c a,
     (n, Multiview_Node ch) ∈ exported → n ∉ multigroup_nodes →
     ch !! m = Some c → heap w !! cexp c = Some (OArr a) →
     ¬ masked_on_save exported (cexp c) →
     ∃ view, views_names sm !! m = Some view ∧
       persisted sm w' ["expectations"; n; view] = Some (H5Array (transpose a) level) ∧
       (shape (transpose a)).1 = (shape a).2) ∧
  (∀ n e a g,
     (n, Single_Node e) ∈ exported → n ∈ multigroup_nodes →
     heap w !! e = Some (OArr a) → ¬ masked_on_save exported e →
     g ∈ groups_names sm →
     ∃ rows, take_rows (np_where_eq g (samples_groups sm)) a = ok rows ∧
       persisted sm w' ["expectations"; n; g] = Some (H5Array (transpose rows) level)) ∧
  (∀ n e a,
     (n, Single_Node e) ∈ exported → n ∉ multigroup_nodes →
     heap w !! e = Some (OArr a) → ¬ masked_on_save exported e →
     persisted sm w' ["expectations"; n; "E"] = Some (H5Array (transpose a) level)) ∧
  (∀ n ch m c a g,
     (n, Multiview_Node ch) ∈ exported → n ∈ multigroup_nodes →
     ch !! m = Some c → heap w !! cexp c = Some (OArr a) →
     g ∈ groups_names sm →
     ∃ view msk a_t a1 rows,
       views_names sm !! m = Some view ∧ sm_mask sm !! m = Some (MaskArray msk) ∧
       nan_filled a a_t ∧ setmask a_t msk nan = ok a1 ∧
       take_rows (np_where_eq g (samples_groups sm)) a1 = ok rows ∧
       persisted sm w' ["expectations"; n; view; g] = Some (H5Array rows level) ∧
       (shape rows).2 = (shape a).2).
Proof.
  intros Hrun Hsel exported level. repeat split.
  - intros n ch m c a Hin Hn Hc Ha Hfree.
    destruct (saveExpectations_node _ _ _ _ _ _ _ Hrun Hsel Hin)
      as (w1 & w2 & Hev1 & Hx & Hev2).
    destruct (save_node_views _ _ _ _ _ _ _ Hx Hn Hc) as (view & a1 & Hview & Ha1 & Hp).
    destruct Hev1 as (_ & Hframe & _). rewrite (Hframe _ Hfree), Ha in Ha1.
    injection Ha1 as <-. exists view. repeat split; [exact Hview|].
    eapply evolves_persisted; [exact Hev2|exact Hp].
  - intros n e a g Hin Hn Ha Hfree Hg.
    destruct (saveExpectations_node _ _ _ _ _ _ _ Hrun Hsel Hin)
      as (w1 & w2 & Hev1 & Hx & Hev2).
    destruct (save_node_single_groups _ _ _ _ _ _ Hx Hn Hg) as (a1 & rows & Ha1 & Hrows & Hp).
    destruct Hev1 as (_ & Hframe & _). rewrite (Hframe _ Hfree), Ha in Ha1.
    injection Ha1 as <-. exists rows. split; [exact Hrows|].
    eapply evolves_persisted; [exact Hev2|exact Hp].
  - intros n e a Hin Hn Ha Hfree.
    destruct (saveExpectations_node _ _ _ _ _ _ _ Hrun Hsel Hin)
      as (w1 & w2 & Hev1 & Hx & Hev2).
    destruct (save_node_single _ _ _ _ _ Hx Hn) as (a1 & Ha1 & Hp).
    destruct Hev1 as (_ & Hframe & _). rewrite (Hframe _ Hfree), Ha in Ha1.
    injection Ha1 as <-. eapply evolves_persisted; [exact Hev2|exact Hp].
  - intros n ch m c a g Hin Hn Hc Ha Hg.
    destruct (saveExpectations_node _ _ _ _ _ _ _ Hrun Hsel Hin)
      as (w1 & w2 & Hev1 & Hx & Hev2).
    destruct Hev1 as (_ & _ & Hn1 & _). destruct (Hn1 _ _ Ha) as (a_w & Haw & Hfw).
    destruct (save_node_view_groups _ _ _ _ _ _ _ _ Hx Hn Hc Haw) as (view & Hview & Hgroups).
    assert (groups_names sm ≠ []) as Hne by (intros Hnil; rewrite Hnil in Hg; inversion Hg).
    destruct (Hgroups Hne) as (msk & a_t & a1 & a' & Hmsk & Hft & Hfill & _ & _ & Hall).
    destruct (Hall g Hg) as (rows & Hrows & Hp).
    exists view, msk, a_t, a1, rows. repeat split; try assumption.
    + destruct Hfw as [Hs1 _], Hft as [Hs2 _]. congruence.
    + intros i j Hi Hj. eapply nan_filled_trans; eassumption.
    + eapply evolves_persisted; [exact Hev2|exact Hp].
    + rewrite (take_rows_shape _ _ _ Hrows). simpl.
      rewrite (setmask_result_shape _ _ _ Hfill).
      destruct Hfw as [Hs1 _], Hft as [Hs2 _]. congruence.
Qed.

(* Where the mask of the view is an array (a node class that holds one in
   its attribute [mask]): a completed [saveExpectations] has written into
   the arrays of every exported multi-view node of the multi-group list,
   and with at least one sample group the array that [getExpectation()]
   returned for the view holds NaN at every position that the mask marks.
   The [Y_Node] of [Y_nodes.py] holds no array there, and the call does
   not get this far. *)
Lemma saveExpectations_overwrites_masked sm (arg : NodesArg) (names : list string)
    w w' (n : string) (ch : list Child) (m : nat) (c : Child)
    (msk : ndarray bool) a :
  (∀ x : F, feqb nan x = false) →
  saveExpectations sm arg w = (ok tt, w') →
  select_nodes arg (getNodes (model sm)) = ok names →
  (n, Multiview_Node ch) ∈ restrict_nodes names (getNodes (model sm)) →
  n ∈ multigroup_nodes →
  ch !! m = Some c →
  sm_mask sm !! m = Some (MaskArray msk) →
  groups_names sm ≠ [] →
  heap w !! cexp c = Some (OArr a) →
  ∃ a', heap w' !! cexp c = Some (OArr a') ∧
        shape a' = shape a ∧ shape msk = shape a ∧
        ∀ i j, i < (shape a).1 → j < (shape a).2 → get msk i j = true →
               get a' i j = nan ∧ feqb (get a' i j) (get a i j) = false.
Proof.
  intros Hnan Hrun Hsel Hin Hn Hc Hmsk Hne Ha.
  destruct (saveExpectations_node _ _ _ _ _ _ _ Hrun Hsel Hin)
    as (w1 & w2 & Hev1 & Hx & Hev2).
  destruct Hev1 as (_ & _ & Hn1 & _). destruct (Hn1 _ _ Ha) as (a_w & Haw & Hfw).
  destruct (save_node_view_groups _ _ _ _ _ _ _ _ Hx Hn Hc Haw) as (view & Hview & Hgroups).
  destruct (Hgroups Hne) as (msk' & a_t & a1 & a2 & Hmsk' & Hft & Hfill & Ha2 & Hf2 & _).
  replace msk' with msk in * by congruence.
  destruct Hev2 as (_ & _ & Hn2 & _). destruct (Hn2 _ _ Ha2) as (a' & Ha' & Hf').
  assert (shape a_t = shape a) as Hst.
  { destruct Hfw as [Hs1 _], Hft as [Hs2 _]. congruence. }
  assert (shape a1 = shape a) as Hs1.
  { rewrite (setmask_result_shape _ _ _ Hfill). exact Hst. }
  assert (shape a2 = shape a) as Hs2 by (destruct Hf2 as [Hs _]; congruence).
  exists a'. split; [exact Ha'|]. split; [destruct Hf' as [Hs _]; congruence|].
  split; [rewrite (setmask_shape _ _ _ Hfill); exact Hst|].
  intros i j Hi Hj Hm.
  assert (get a' i j = nan) as Hij.
  { eapply nan_filled_sticky; [exact Hf'|rewrite Hs2; exact Hi|rewrite Hs2; exact Hj|].
    eapply nan_filled_sticky; [exact Hf2|rewrite Hs1; exact Hi|rewrite Hs1; exact Hj|].
    eapply setmask_masked; [exact Hfill|rewrite Hst; exact Hi|rewrite Hst; exact Hj|exact Hm]. }
  split; [exact Hij|]. rewrite Hij. apply Hnan.
Qed.

(* line 82: a single name is not held against the recognised names; one
   that is no node of the model leaves an empty group behind *)
Lemma saveExpectations_string_unchecked sm (s : string) w (f : h5file F) :
  s ≠ "all" → dget s (getNodes (model sm)) = None →
  dget (hdf5 sm) (files w) = Some f → dget ["expectations"] f = None →
  saveExpectations sm (ArgStr s) w
  = (ok tt, with_files (dset (hdf5 sm) (dset ["expectations"] H5Group f) (files w)) w).
Proof.
  intros Hs Hnode Hf Hfree. unfold saveExpectations, select_nodes.
  rewrite decide_False by exact Hs. unfold bind at 1, lift at 1.
  cbv beta iota delta [ok]. unfold restrict_nodes. simpl. rewrite Hnode.
  unfold bind. rewrite (h5_create_at _ _ _ f) by assumption. reflexivity.
Qed.

(* np.unique of some labels has a label *)
Lemma np_unique_nonempty (l : list string) : l ≠ [] → np_unique l ≠ [].
Proof.
  destruct l as [|x l]; [congruence|]. intros _. simpl.
  destruct (np_unique l) as [|y k]; simpl; [discriminate|].
  destruct (String.compare x y); discriminate.
Qed.

(* lines 83-84: a list or a tuple with an unrecognised name is refused *)
Lemma saveExpectations_list_refused sm (l : list string) (x : string) w :
  x ∈ l → x ∉ recognised_nodes →
  saveExpectations sm (ArgList l) w = (raise (AssertionError "Unrecognised nodes"), w) ∧
  saveExpectations sm (ArgTuple l) w = (raise (AssertionError "Unrecognised nodes"), w).
Proof.
  intros Hin Hx.
  assert (forallb (λ x, bool_decide (x ∈ recognised_nodes)) l = false) as Hall.
  { apply not_true_is_false. intros Hall. rewrite forallb_forall in Hall.
    apply list_elem_of_In, Hall, bool_decide_eq_true in Hin. contradiction. }
  unfold saveExpectations, bind, lift, select_nodes. rewrite Hall. split; reflexivity.
Qed.

(** C5, as the code has it.  An untrained model makes the constructor fail
    with the assertion "Model is not trained" before the output file is
    opened, and the world is as before.  With a trained model the output
    file is opened for writing first; when the group labels then do not
    match the sample count of the first data matrix, the constructor fails
    with the assertion about the sample groups, and the empty container is
    there. *)
Theorem saveModel_init_preconditions (mdl : Model) (outfile : string)
    (dat : list (ndarray F)) (sg : list string) (opts mopts : nat)
    (fn : list (list string)) (vn sn : list string) (level : nat) w :
  (trained mdl = false →
   saveModel_init mdl outfile dat sg opts mopts fn vn sn level w
   = (raise (AssertionError "Model is not trained"), w)) ∧
  (trained mdl = true →
   files (saveModel_init mdl outfile dat sg opts mopts fn vn sn level w).2
   = dset outfile [] (files w)) ∧
  (∀ d0 ch masks,
     trained mdl = true →
     dget "Y" (getNodes mdl) = Some (Multiview_Node ch) →
     mapR (λ x, of_option (AttributeError "mask") (cmask x)) ch = ok masks →
     dat !! 0 = Some d0 →
     length sg ≠ (shape d0).1 →
     saveModel_init mdl outfile dat sg opts mopts fn vn sn level w
     = (raise (AssertionError
          "length of samples groups does not match the number of samples in the data"),
        with_files (dset outfile [] (files w)) w)).
Proof.
  repeat split.
  - intros Ht. unfold saveModel_init, bind, assert. rewrite Ht. reflexivity.
  - intros Ht. unfold saveModel_init, bind, assert, lift, ret, throw, h5py_File_w.
    rewrite Ht. cbv beta iota delta [ok].
    destruct (dsub "Y" (getNodes mdl)) as [|[ch|]]; try reflexivity.
    destruct (mapR _ ch); [reflexivity|].
    destruct (of_option IndexError (dat !! 0)); [reflexivity|].
    destruct (bool_decide _); reflexivity.
  - intros d0 ch masks Ht HY Hmasks Hd0 Hlen.
    unfold saveModel_init, bind, assert, lift, ret, throw, h5py_File_w, dsub.
    rewrite Ht, HY. cbn [of_option]. cbv beta iota delta [ok]. rewrite Hmasks.
    cbv beta iota delta [ok]. rewrite Hd0. cbn [of_option]. cbv beta iota delta [ok]. rewrite bool_decide_eq_false_2 by exact Hlen.
    reflexivity.
Qed.

End serializer_results.

(** ** The small model, run *)

Example ex_node_precomputed : precompute ex_options ex_Y_node = ok (ex_Y_pre, false).
Proof. reflexivity. Qed.

Example ex_constructed opts :
  saveModel_init (ex_model true) "out.hdf5" [ex_Y_raw] ex_groups 0 0
    [["f0"; "f1"]] ["view0"] ["s0"; "s1"; "s2"] 9 (ex_world0 opts)
  = (ok ex_sm, ex_world1 opts).
Proof. reflexivity. Qed.

Example ex_elbo : calculateELBO (ex_Y_ready NaN) = ok (Fin (-30637877 # 400000)).
Proof. vm_compute. reflexivity. Qed.

(* With the Y_Node of Y_nodes.py under "Y" the constructor stores the bound
   methods, and line 115 cannot index with them: the export of "Y" stops
   there, after its groups were created. *)
Example ex_constructed_Y_Node :
  saveModel_init ex_model_Y_Node "out.hdf5" [ex_Y_raw] ex_groups 0 0
    [["f0"; "f1"]] ["view0"] ["s0"; "s1"; "s2"] 9 (ex_world0 ex_train_opts)
  = (ok ex_sm_Y_Node, ex_world1 ex_train_opts).
Proof. reflexivity. Qed.

Example ex_saved_Y_Node :
  saveExpectations ex_sm_Y_Node (ArgStr "Y") (ex_world1 ex_train_opts)
  = (raise IndexError,
     {| heap := ex_heap ex_train_opts;
        files := [("out.hdf5", [(["expectations"], H5Group);
                                (["expectations"; "Y"], H5Group);
                                (["expectations"; "Y"; "view0"], H5Group)])] |}).
Proof. reflexivity. Qed.

(** Witnesses and counterexamples on the small model. *)

Lemma calculateELBO_formula_witness :
  calculateELBO (ex_Y_ready NaN)
  = ok (elbo_spec (Fin (-1837877 # 400000)) ex_mask ex_Tau_E ex_Tau_lnE
          (NdArray (3, 2) [[Fin 1; NaN]; [Fin 2; Fin 3]; [Fin 0; Fin 1]])
          ex_Z_E ex_Z_E2 ex_W_E ex_W_E2).
Proof.
  apply (calculateELBO_formula (ex_Y_ready NaN) (Fin (-1837877 # 400000))
           [("E", ex_Tau_E); ("lnE", ex_Tau_lnE)]
           [("E", ex_W_E); ("E2", ex_W_E2)]
           [("E", ex_Z_E); ("E2", ex_Z_E2)]
           ex_Tau_E ex_Tau_lnE ex_W_E ex_W_E2 ex_Z_E ex_Z_E2 3 2 1);
    reflexivity.
Defined.

Lemma calculateELBO_masked_values_irrelevant_witness :
  calculateELBO (ex_Y_ready NaN) = calculateELBO (ex_Y_ready (Fin 1000)).
Proof.
  apply (calculateELBO_masked_values_irrelevant (ex_Y_ready NaN) (ex_Y_ready (Fin 1000)));
    try reflexivity.
  intros i j Hi Hj Hm.
  destruct i as [|[|[|i]]]; destruct j as [|[|j]];
    simpl in Hi, Hj; try lia; try reflexivity; try discriminate Hm.
Defined.

Lemma precompute_observed_counts_witness :
  ∃ n d, N ex_Y_pre = Some n ∧ D ex_Y_pre = Some d ∧
    (∀ j, j < 2 →
       ∃ x, n !! j = Some x ∧ (x + missing_in_col (getMask ex_Y_node) j = 3)%Z) ∧
    (∀ i, i < 3 →
       ∃ x, d !! i = Some x ∧ (x + missing_in_row (getMask ex_Y_node) i = 2)%Z).
Proof.
  apply (precompute_observed_counts ex_Y_node ex_Y_pre ex_options false).
  - split; [reflexivity|]. repeat constructor.
  - reflexivity.
  - reflexivity.
Defined.

(* C3 as the specification words it: N by rows against the feature count *)
Lemma observed_counts_by_row_counterexample :
  precompute ex_options ex_Y_node = ok (ex_Y_pre, false) ∧
  ¬ observed_counts_by_row ex_Y_pre.
Proof.
  split; [reflexivity|].
  intros (n & d & Hn & _ & Hrows & _). injection Hn as <-.
  destruct (Hrows 0) as (x & Hx & Hsum); [simpl; lia|].
  injection Hx as <-. vm_compute in Hsum. discriminate Hsum.
Qed.

Lemma saveModel_init_preconditions_witness :
  saveModel_init (ex_model false) "out.hdf5" [ex_Y_raw] ex_groups 0 0
    [["f0"; "f1"]] ["view0"] ["s0"; "s1"; "s2"] 9 (ex_world0 ex_train_opts)
  = (raise (AssertionError "Model is not trained"), ex_world0 ex_train_opts) ∧
  files (saveModel_init (ex_model true) "out.hdf5" [ex_Y_raw] ["g1"; "g2"] 0 0
           [["f0"; "f1"]] ["view0"] ["s0"; "s1"; "s2"] 9 (ex_world0 ex_train_opts)).2
  = [("out.hdf5", [])] ∧
  saveModel_init (ex_model true) "out.hdf5" [ex_Y_raw] ["g1"; "g2"] 0 0
    [["f0"; "f1"]] ["view0"] ["s0"; "s1"; "s2"] 9 (ex_world0 ex_train_opts)
  = (raise (AssertionError
       "length of samples groups does not match the number of samples in the data"),
     ex_world1 ex_train_opts).
Proof.
  split; [|split].
  - apply (saveModel_init_preconditions (ex_model false) "out.hdf5" [ex_Y_raw] ex_groups
             0 0 [["f0"; "f1"]] ["view0"] ["s0"; "s1"; "s2"] 9 (ex_world0 ex_train_opts)).
    reflexivity.
  - apply (saveModel_init_preconditions (ex_model true) "out.hdf5" [ex_Y_raw] ["g1"; "g2"]
             0 0 [["f0"; "f1"]] ["view0"] ["s0"; "s1"; "s2"] 9 (ex_world0 ex_train_opts)).
    reflexivity.
  - apply (proj2 (proj2 (saveModel_init_preconditions (ex_model true) "out.hdf5"
             [ex_Y_raw] ["g1"; "g2"] 0 0 [["f0"; "f1"]] ["view0"] ["s0"; "s1"; "s2"] 9
             (ex_world0 ex_train_opts)))
             ex_Y_raw [{| cmask := Some (MaskArray ex_mask); cexp := 1 |}] [MaskArray ex_mask]);
      try reflexivity.
    simpl. lia.
Defined.

(* C5 as stated: two labels for three samples, and the file is there *)
Lemma saveModel_init_file_counterexample :
  length ["g1"; "g2"] ≠ (shape ex_Y_raw).1 ∧
  dget "out.hdf5" (files (ex_world0 ex_train_opts)) = None ∧
  (saveModel_init (ex_model true) "out.hdf5" [ex_Y_raw] ["g1"; "g2"] 0 0
     [["f0"; "f1"]] ["view0"] ["s0"; "s1"; "s2"] 9 (ex_world0 ex_train_opts)).1
  = raise (AssertionError
      "length of samples groups does not match the number of samples in the data") ∧
  dget "out.hdf5"
    (files (saveModel_init (ex_model true) "out.hdf5" [ex_Y_raw] ["g1"; "g2"] 0 0
              [["f0"; "f1"]] ["view0"] ["s0"; "s1"; "s2"] 9 (ex_world0 ex_train_opts)).2)
  = Some [].
Proof. repeat split. simpl. lia. Qed.

(** C4.  The name "Foo" is not recognised and is no node of the model;
    passed as a string it is accepted, and the call returns with an empty
    group "expectations"; passed in a list it is refused. *)
Theorem saveExpectations_unrecognised_string :
  ("Foo" ∉ recognised_nodes) ∧
  saveExpectations ex_sm (ArgStr "Foo") (ex_world1 ex_train_opts)
  = (ok tt, {| heap := ex_heap ex_train_opts;
               files := [("out.hdf5", [(["expectations"], H5Group)])] |}) ∧
  saveExpectations ex_sm (ArgList ["Foo"]) (ex_world1 ex_train_opts)
  = (raise (AssertionError "Unrecognised nodes"), ex_world1 ex_train_opts).
Proof.
  split; [|split; reflexivity].
  intros Hin. apply list_elem_of_In in Hin. simpl in Hin.
  repeat destruct Hin as [Hin|Hin]; try discriminate Hin. exact Hin.
Qed.

Lemma saveTrainOptions_table_witness :
  ∃ w' vals names,
    saveTrainOptions ex_sm (ex_world1 ex_train_opts) = (ok tt, w') ∧
    persisted ex_sm w' ["training_opts"] = Some (H5Vector vals (Some names)) ∧
    (∀ k v k1 x, (k, VDict v) ∈ ex_train_opts → (k1, VNum x) ∈ v →
                 table_has names vals (k +:+ "_" +:+ k1) x) ∧
    (∀ k v, (k, VDict v) ∈ ex_train_opts → k ∉ names) ∧
    ("schedule" ∉ names) ∧ ("convergence_mode" ∉ names).
Proof.
  apply (saveTrainOptions_table ex_sm (ex_world1 ex_train_opts) ex_train_opts []).
  - reflexivity.
  - apply (bool_decide_unpack _). vm_compute. exact I.
  - reflexivity.
  - reflexivity.
  - intros k Hin. vm_compute in Hin. elem_cases Hin; subst k; reflexivity.
  - intros k Hin. vm_compute in Hin. elem_cases Hin; subst k; reflexivity.
  - intros k v Hin Hd Hs Hc. elem_cases Hin; injection Hin as -> ->;
      try discriminate Hd; try congruence; eauto.
  - intros k v Hin. vm_compute in Hin. elem_cases Hin; injection Hin as -> ->; eauto.
  - apply (bool_decide_unpack _). vm_compute. exact I.
  - intros x Hin. vm_compute in Hin. elem_cases Hin; subst x.
    + split; [|split; discriminate]. intros Hp. vm_compute in Hp. elem_cases Hp.
      discriminate Hp.
    + split; [|split; discriminate]. intros Hp. vm_compute in Hp. elem_cases Hp.
      discriminate Hp.
Defined.

(* C8 as stated: the nested entry convergence/mode is flattened to the
   name 'convergence_mode', which is then dropped with the string option
   of that name; the table does not hold it *)
Lemma dropped_joined_name_counterexample :
  ("convergence", VDict [("mode", VNum (Fin 1))]) ∈ ex_opts_dropped ∧
  (saveTrainOptions ex_sm (ex_world1 ex_opts_dropped)).1 = ok tt ∧
  persisted ex_sm (saveTrainOptions ex_sm (ex_world1 ex_opts_dropped)).2 ["training_opts"]
  = Some (H5Vector [Fin 100] (Some ["maxiter"])) ∧
  ¬ table_has ["maxiter"] [Fin 100] "convergence_mode" (Fin 1).
Proof.
  split; [|split; [|split]].
  - apply list_elem_of_further, list_elem_of_here.
  - reflexivity.
  - reflexivity.
  - intros (i & Hname & _). destruct i as [|[|i]]; discriminate Hname.
Qed.

Lemma saveTrainOptions_mutates_caller_dict_witness :
  ∃ o', heap (saveTrainOptions ex_sm (ex_world1 ex_train_opts)).2 !! 0 = Some (ODict o') ∧
        (∀ k v, (k, VDict v) ∈ ex_train_opts → k ∉ dkeys o') ∧
        ("schedule" ∉ dkeys o') ∧
        ("convergence_mode" ∉ dkeys o') ∧
        (∀ k v k1 v1, (k, VDict v) ∈ ex_train_opts → (k1, v1) ∈ v →
                      k +:+ "_" +:+ k1 ∈ dkeys o').
Proof.
  apply (saveTrainOptions_mutates_caller_dict (ex_model true) "out.hdf5" [ex_Y_raw]
           ex_groups 0 0 [["f0"; "f1"]] ["view0"] ["s0"; "s1"; "s2"] 9 ex_sm
           (ex_world0 ex_train_opts) (ex_world1 ex_train_opts) ex_train_opts).
  - reflexivity.
  - reflexivity.
  - apply (bool_decide_unpack _). vm_compute. exact I.
  - intros x Hin. vm_compute in Hin. elem_cases Hin; subst x.
    + split; [|split; discriminate]. intros Hp. vm_compute in Hp. elem_cases Hp.
      discriminate Hp.
    + split; [|split; discriminate]. intros Hp. vm_compute in Hp. elem_cases Hp.
      discriminate Hp.
Defined.

(* C10 as stated: 'a_b' holds a nested dictionary before the call and is
   a key of the caller's dictionary after it, written there as the joined
   name of a/b *)
Lemma saveTrainOptions_parent_key_counterexample :
  saveModel_init (ex_model true) "out.hdf5" [ex_Y_raw] ex_groups 0 0
    [["f0"; "f1"]] ["view0"] ["s0"; "s1"; "s2"] 9 (ex_world0 ex_opts_parent)
  = (ok ex_sm, ex_world1 ex_opts_parent) ∧
  heap (ex_world0 ex_opts_parent) !! 0 = Some (ODict ex_opts_parent) ∧
  ("a_b", VDict [("c", VNum (Fin 1))]) ∈ ex_opts_parent ∧
  heap (saveTrainOptions ex_sm (ex_world1 ex_opts_parent)).2 !! 0
  = Some (ODict [("a_b_c", VNum (Fin 1)); ("a_b", VNum (Fin 2))]) ∧
  "a_b" ∈ dkeys [("a_b_c", VNum (Fin 1)); ("a_b", VNum (Fin 2))].
Proof.
  split; [reflexivity|]. split; [reflexivity|]. split; [apply list_elem_of_here|].
  split; [reflexivity|]. apply list_elem_of_further, list_elem_of_here.
Qed.

Lemma saveExpectations_orientation_witness :
  let w' := (saveExpectations ex_sm (ArgStr "all") (ex_world1 ex_train_opts)).2 in
  persisted ex_sm w' ["expectations"; "W"; "view0"]
  = Some (H5Array (transpose ex_W_E) 9) ∧
  (∃ rows, take_rows [0; 2] ex_Z_E = ok rows ∧
           persisted ex_sm w' ["expectations"; "Z"; "g1"]
           = Some (H5Array (transpose rows) 9)) ∧
  persisted ex_sm w' ["expectations"; "AlphaZ"; "E"]
  = Some (H5Array (transpose ex_AlphaZ) 9) ∧
  (∃ a_t a1 rows, nan_filled ex_Tau_E a_t ∧ setmask a_t ex_mask nan = ok a1 ∧
                  take_rows [0; 2] a1 = ok rows ∧
                  persisted ex_sm w' ["expectations"; "Tau"; "view0"; "g1"]
                  = Some (H5Array rows 9) ∧
                  (shape rows).2 = 2).
Proof.
  intros w'.
  destruct (saveExpectations_orientation ex_sm (ArgStr "all")
              ["Y"; "W"; "Z"; "Tau"; "AlphaZ"] (ex_world1 ex_train_opts) w'
              eq_refl eq_refl) as (Hviews & Hgroups & Hsingle & Hboth).
  split; [|split; [|split]].
  - destruct (Hviews "W" [{| cmask := None; cexp := 2 |}] 0
                {| cmask := None; cexp := 2 |} ex_W_E) as (view & Hview & Hp & _).
    + vm_compute. apply list_elem_of_further, list_elem_of_here.
    + intros Hn. elem_cases Hn; discriminate Hn.
    + reflexivity.
    + reflexivity.
    + not_masked.
    + injection Hview as <-. exact Hp.
  - apply (Hgroups "Z" 3 ex_Z_E "g1").
    + vm_compute. do 2 apply list_elem_of_further. apply list_elem_of_here.
    + do 2 apply list_elem_of_further. apply list_elem_of_here.
    + reflexivity.
    + not_masked.
    + apply list_elem_of_here.
  - apply (Hsingle "AlphaZ" 5 ex_AlphaZ).
    + vm_compute. do 4 apply list_elem_of_further. apply list_elem_of_here.
    + intros Hn. elem_cases Hn; discriminate Hn.
    + reflexivity.
    + not_masked.
  - destruct (Hboth "Tau" [{| cmask := None; cexp := 4 |}] 0
                {| cmask := None; cexp := 4 |} ex_Tau_E "g1")
      as (view & msk & a_t & a1 & rows & Hview & Hmsk & Hat & Hfill & Hrows & Hp & Hs).
    + vm_compute. do 3 apply list_elem_of_further. apply list_elem_of_here.
    + apply list_elem_of_further, list_elem_of_here.
    + reflexivity.
    + reflexivity.
    + apply list_elem_of_here.
    + injection Hview as <-. injection Hmsk as <-.
      exists a_t, a1, rows.
      split; [exact Hat|]. split; [exact Hfill|]. split; [exact Hrows|].
      split; [exact Hp|exact Hs].
Defined.

Lemma saveExpectations_overwrites_masked_witness :
  ∃ a', heap (saveExpectations ex_sm (ArgStr "all") (ex_world1 ex_train_opts)).2 !! 4
        = Some (OArr a') ∧
        shape a' = shape ex_Tau_E ∧ shape ex_mask = shape ex_Tau_E ∧
        ∀ i j, i < 3 → j < 2 → get ex_mask i j = true →
               get a' i j = nan ∧ feqb (get a' i j) (get ex_Tau_E i j) = false.
Proof.
  apply (saveExpectations_overwrites_masked ex_sm (ArgStr "all")
           ["Y"; "W"; "Z"; "Tau"; "AlphaZ"] (ex_world1 ex_train_opts)
           (saveExpectations ex_sm (ArgStr "all") (ex_world1 ex_train_opts)).2
           "Tau" [{| cmask := None; cexp := 4 |}] 0 {| cmask := None; cexp := 4 |}
           ex_mask ex_Tau_E).
  - intros x. reflexivity.
  - reflexivity.
  - reflexivity.
  - vm_compute. do 3 apply list_elem_of_further. apply list_elem_of_here.
  - apply list_elem_of_further, list_elem_of_here.
  - reflexivity.
  - reflexivity.
  - discriminate.
  - reflexivity.
Defined.

Example ex_Tau_after_saving :
  heap (saveExpectations ex_sm (ArgStr "all") (ex_world1 ex_train_opts)).2 !! 4
  = Some (OArr ex_Tau_saved).
Proof. reflexivity. Qed.

(** * Further properties *)

(** ** Group labels and sample positions *)

Lemma ascii_compare_lt_trans (a b c : Ascii.ascii) :
  Ascii.compare a b = Lt → Ascii.compare b c = Lt → Ascii.compare a c = Lt.
Proof.
  unfold Ascii.compare. rewrite !N.compare_lt_iff. apply N.lt_trans.
Qed.

Lemma ascii_compare_refl (a : Ascii.ascii) : Ascii.compare a a = Eq.
Proof. unfold Ascii.compare. apply N.compare_refl. Qed.

Lemma str_lt_trans (a b c : string) : str_lt a b → str_lt b c → str_lt a c.
Proof.
  unfold str_lt. revert b c. induction a as [|x a IH]; intros [|y b] [|z c]; simpl;
    try discriminate; try reflexivity.
  destruct (Ascii.compare x y) eqn:Hxy; try discriminate.
  - apply Ascii.compare_eq_iff in Hxy as ->.
    destruct (Ascii.compare y z); try discriminate; [apply IH|reflexivity].
  - intros _. destruct (Ascii.compare y z) eqn:Hyz; try discriminate.
    + apply Ascii.compare_eq_iff in Hyz as <-. rewrite Hxy. reflexivity.
    + rewrite (ascii_compare_lt_trans _ _ _ Hxy Hyz). reflexivity.
Qed.

Lemma str_compare_refl (a : string) : String.compare a a = Eq.
Proof. induction a as [|x a IH]; simpl; [reflexivity|]. rewrite ascii_compare_refl. exact IH. Qed.

Lemma str_lt_irrefl (a : string) : ¬ str_lt a a.
Proof. unfold str_lt. rewrite str_compare_refl. discriminate. Qed.

Lemma insert_unique_elem (x y : string) (l : list string) :
  y ∈ insert_unique x l ↔ y = x ∨ y ∈ l.
Proof.
  induction l as [|z l IH]; simpl.
  - rewrite list_elem_of_singleton. split; [tauto|]. intros [?|Hn]; [assumption|].
    apply elem_of_nil in Hn as [].
  - destruct (String.compare x z) eqn:Hc.
    + apply String.compare_eq_iff in Hc as ->. rewrite elem_of_cons. tauto.
    + rewrite !elem_of_cons. tauto.
    + rewrite !elem_of_cons, IH. tauto.
Qed.

Lemma insert_unique_sorted (x : string) (l : list string) :
  StronglySorted str_lt l → StronglySorted str_lt (insert_unique x l).
Proof.
  induction 1 as [|z l Hl IH Hz]; simpl.
  - repeat constructor.
  - destruct (String.compare x z) eqn:Hc.
    + constructor; assumption.
    + constructor; [constructor; assumption|].
      constructor; [exact Hc|].
      eapply Forall_impl; [exact Hz|]. intros y Hy. eapply str_lt_trans; eassumption.
    + constructor; [exact IH|].
      apply Forall_forall. intros y Hy. apply insert_unique_elem in Hy as [->|Hy].
      * unfold str_lt. rewrite String.compare_antisym, Hc. reflexivity.
      * eapply Forall_forall in Hz; eassumption.
Qed.

Lemma np_unique_sorted (l : list string) : StronglySorted str_lt (np_unique l).
Proof.
  induction l as [|x l IH]; simpl; [constructor|]. apply insert_unique_sorted, IH.
Qed.

Lemma np_unique_elem (l : list string) (x : string) : x ∈ np_unique l ↔ x ∈ l.
Proof.
  induction l as [|y l IH]; simpl; [reflexivity|].
  rewrite insert_unique_elem, elem_of_cons, IH. reflexivity.
Qed.

Lemma sorted_NoDup (l : list string) : StronglySorted str_lt l → NoDup l.
Proof.
  induction 1 as [|x l Hl IH Hx]; constructor; [|exact IH].
  intros Hin. eapply Forall_forall in Hx; [|exact Hin]. apply (str_lt_irrefl _ Hx).
Qed.

(* the positions of a label, counted from k *)
Lemma where_from_elem (k : nat) (g : string) (l : list string) (i : nat) :
  i ∈ omap (λ p : nat * string, if decide (p.2 = g) then Some p.1 else None)
        (imap (λ j, pair (k + j)) l)
  ↔ ∃ j, i = k + j ∧ l !! j = Some g.
Proof.
  rewrite list_elem_of_omap. split.
  - intros ([i' x] & Hin & Hg). simpl in Hg.
    destruct (decide (x = g)) as [->|]; [|discriminate]. injection Hg as ->.
    apply elem_of_lookup_imap_1 in Hin as (j & y & [= -> ->] & Hj). eauto.
  - intros (j & -> & Hj). exists (k + j, g). split.
    + apply (elem_of_lookup_imap_2 (λ j, pair (k + j)) l g j Hj).
    + simpl. destruct (decide (g = g)); [reflexivity|congruence].
Qed.

Lemma np_where_eq_elem (g : string) (l : list string) (i : nat) :
  i ∈ np_where_eq g l ↔ l !! i = Some g.
Proof.
  unfold np_where_eq.
  rewrite (where_from_elem 0 g l i). split.
  - intros (j & -> & Hj). exact Hj.
  - intros Hi. exists i. split; [reflexivity|exact Hi].
Qed.

Lemma where_from_sorted (k : nat) (g : string) (l : list string) :
  StronglySorted lt
    (omap (λ p : nat * string, if decide (p.2 = g) then Some p.1 else None)
       (imap (λ j, pair (k + j)) l)).
Proof.
  revert k. induction l as [|x l IH]; intros k; [constructor|].
  rewrite imap_cons. simpl.
  assert (imap ((λ j, pair (k + j)) ∘ S) l = imap (λ j, pair (S k + j)) l) as ->.
  { apply imap_ext. intros j y _. simpl. f_equal. lia. }
  destruct (decide (x = g)) as [->|]; [|apply IH].
  constructor; [apply IH|]. apply Forall_forall. intros i Hi.
  apply where_from_elem in Hi as (j & -> & _). lia.
Qed.

Lemma np_where_eq_sorted (g : string) (l : list string) :
  StronglySorted lt (np_where_eq g l).
Proof. apply (where_from_sorted 0). Qed.

(** ** The constructor of the serializer *)

Section constructor_properties.
Context {F : Type} `{FloatOps F}.
Implicit Types (w : World F) (sm : saveModel F).

(** X1.  [saveModel.__init__] completes exactly when the model is trained,
    has a multi-view node "Y" whose children all carry a [mask] attribute,
    there is a first data matrix, and there are as many group labels as
    that matrix has rows.  It then returns the serializer with the masks of
    the children and the sorted distinct labels, and the output file is
    empty; nothing else has changed. *)
Theorem saveModel_init_completes (mdl : Model) (outfile : string)
    (dat : list (ndarray F)) (sg : list string) (opts mopts : nat)
    (fn : list (list string)) (vn sn : list string) (level : nat) w sm w' :
  saveModel_init mdl outfile dat sg opts mopts fn vn sn level w = (ok sm, w')
  ↔ trained mdl = true ∧
    ∃ ch masks d0,
      dget "Y" (getNodes mdl) = Some (Multiview_Node ch) ∧
      mapR (λ x, of_option (AttributeError "mask") (cmask x)) ch = ok masks ∧
      dat !! 0 = Some d0 ∧
      length sg = (shape d0).1 ∧
      sm = {| model := mdl; hdf5 := outfile; compression_level := level;
              sm_data := dat; sm_mask := masks; samples_groups := sg;
              train_opts := opts; model_opts := mopts;
              views_names := vn; samples_names := sn; features_names := fn;
              groups_names := np_unique sg |} ∧
      w' = with_files (dset outfile [] (files w)) w.
Proof.
  unfold saveModel_init, bind, assert, lift, ret, throw, h5py_File_w, dsub.
  split.
  - destruct (trained mdl); [|discriminate]. cbv beta iota delta [ok].
    destruct (dget "Y" (getNodes mdl)) as [[ch|]|]; try discriminate.
    cbn [of_option]. cbv beta iota delta [ok].
    destruct (mapR _ ch) as [|masks] eqn:Hm; [discriminate|].
    destruct (dat !! 0) as [d0|]; [|discriminate].
    cbn [of_option]. cbv beta iota delta [ok].
    destruct (bool_decide _) eqn:Hlen; [|discriminate].
    apply bool_decide_eq_true in Hlen. intros [= <- <-].
    split; [reflexivity|]. exists ch, masks, d0. repeat split; assumption.
  - intros (Ht & ch & masks & d0 & HY & Hm & Hd & Hlen & -> & ->).
    rewrite Ht, HY. cbn [of_option]. cbv beta iota delta [ok]. rewrite Hm.
    cbv beta iota delta [ok]. rewrite Hd. cbn [of_option]. cbv beta iota delta [ok].
    rewrite bool_decide_eq_true_2 by exact Hlen. reflexivity.
Qed.

Lemma saveModel_init_fields (mdl : Model) (outfile : string)
    (dat : list (ndarray F)) (sg : list string) (opts mopts : nat)
    (fn : list (list string)) (vn sn : list string) (level : nat) w sm w' :
  saveModel_init mdl outfile dat sg opts mopts fn vn sn level w = (ok sm, w') →
  samples_groups sm = sg ∧ groups_names sm = np_unique sg ∧
  ∃ d0, dat !! 0 = Some d0 ∧ length sg = (shape d0).1.
Proof.
  unfold saveModel_init, bind, assert, lift, ret, throw, h5py_File_w, dsub.
  destruct (trained mdl); [|discriminate]. cbv beta iota delta [ok].
  destruct (dget "Y" (getNodes mdl)) as [[ch|]|]; try discriminate.
  cbn [of_option]. cbv beta iota delta [ok].
  destruct (mapR _ ch) as [|masks]; [discriminate|].
  destruct (dat !! 0) as [d0|]; [|discriminate].
  cbn [of_option]. cbv beta iota delta [ok].
  destruct (bool_decide _) eqn:Hlen; [|discriminate].
  apply bool_decide_eq_true in Hlen. intros [= <- <-]. simpl. eauto.
Qed.

(** X2.  The group names of a constructed serializer are the labels of
    [samples_groups], each once, in ascending order. *)
Theorem constructed_groups_names (mdl : Model) (outfile : string)
    (dat : list (ndarray F)) (sg : list string) (opts mopts : nat)
    (fn : list (list string)) (vn sn : list string) (level : nat) w sm w' :
  saveModel_init mdl outfile dat sg opts mopts fn vn sn level w = (ok sm, w') →
  StronglySorted str_lt (groups_names sm) ∧
  NoDup (groups_names sm) ∧
  ∀ g, g ∈ groups_names sm ↔ g ∈ sg.
Proof.
  intros Hinit. apply saveModel_init_fields in Hinit as (_ & -> & _).
  split; [apply np_unique_sorted|]. split; [apply sorted_NoDup, np_unique_sorted|].
  intros g. apply np_unique_elem.
Qed.

(** X3.  In a constructed serializer the groups split the samples: every
    row index of the first data matrix is a position of exactly one group
    name, the label of that sample, and the positions of a group are row
    indices, in ascending order. *)
Theorem groups_partition_samples (mdl : Model) (outfile : string)
    (dat : list (ndarray F)) (sg : list string) (opts mopts : nat)
    (fn : list (list string)) (vn sn : list string) (level : nat) w sm w'
    (d0 : ndarray F) :
  saveModel_init mdl outfile dat sg opts mopts fn vn sn level w = (ok sm, w') →
  dat !! 0 = Some d0 →
  (∀ i, i < (shape d0).1 →
     ∃ g, g ∈ groups_names sm ∧ i ∈ np_where_eq g (samples_groups sm) ∧
          ∀ g', i ∈ np_where_eq g' (samples_groups sm) → g' = g) ∧
  (∀ g i, i ∈ np_where_eq g (samples_groups sm) → i < (shape d0).1) ∧
  (∀ g, StronglySorted lt (np_where_eq g (samples_groups sm))).
Proof.
  intros Hinit Hd. apply saveModel_init_fields in Hinit as (-> & -> & d0' & Hd' & Hlen).
  replace d0' with d0 in * by congruence. repeat split.
  - intros i Hi. destruct (sg !! i) as [g|] eqn:Hg.
    2:{ apply lookup_ge_None in Hg. lia. }
    exists g. split; [|split].
    + apply np_unique_elem, list_elem_of_lookup. eauto.
    + apply np_where_eq_elem, Hg.
    + intros g' Hg'. apply np_where_eq_elem in Hg'. congruence.
  - intros g i Hi. apply np_where_eq_elem, lookup_lt_Some in Hi. lia.
  - intros g. apply np_where_eq_sorted.
Qed.

End constructor_properties.

Lemma constructed_groups_names_witness :
  StronglySorted str_lt (groups_names ex_sm) ∧
  NoDup (groups_names ex_sm) ∧
  ∀ g, g ∈ groups_names ex_sm ↔ g ∈ ex_groups.
Proof.
  apply (constructed_groups_names (ex_model true) "out.hdf5" [ex_Y_raw] ex_groups 0 0
           [["f0"; "f1"]] ["view0"] ["s0"; "s1"; "s2"] 9 (ex_world0 ex_train_opts)
           ex_sm (ex_world1 ex_train_opts)).
  reflexivity.
Defined.

Lemma groups_partition_samples_witness :
  (∀ i, i < 3 →
     ∃ g, g ∈ groups_names ex_sm ∧ i ∈ np_where_eq g (samples_groups ex_sm) ∧
          ∀ g', i ∈ np_where_eq g' (samples_groups ex_sm) → g' = g) ∧
  (∀ g i, i ∈ np_where_eq g (samples_groups ex_sm) → i < 3) ∧
  (∀ g, StronglySorted lt (np_where_eq g (samples_groups ex_sm))).
Proof.
  apply (groups_partition_samples (ex_model true) "out.hdf5" [ex_Y_raw] ex_groups 0 0
           [["f0"; "f1"]] ["view0"] ["s0"; "s1"; "s2"] 9 (ex_world0 ex_train_opts)
           ex_sm (ex_world1 ex_train_opts) ex_Y_raw); reflexivity.
Defined.

(** ** The nodes that are exported *)

Lemma restrict_fold_lookup (names : list string) (d acc : dict Node) (n : string) :
  dget n (foldl (λ acc x, match dget x d with
                          | Some nd => dset x nd acc
                          | None => acc
                          end) acc names)
  = match dget n d with
    | Some nd => if decide (n ∈ names) then Some nd else dget n acc
    | None => dget n acc
    end.
Proof.
  revert acc. induction names as [|x l IH]; intros acc; cbn [foldl].
  - destruct (dget n d); [|reflexivity].
    rewrite decide_False by apply not_elem_of_nil. reflexivity.
  - rewrite IH. destruct (dget n d) as [nd|] eqn:Hn.
    + destruct (decide (n ∈ l)) as [Hl|Hl].
      * rewrite decide_True by (apply list_elem_of_further, Hl). reflexivity.
      * destruct (decide (x = n)) as [->|Hx].
        -- rewrite Hn, dget_dset_eq.
           rewrite decide_True by apply list_elem_of_here. reflexivity.
        -- rewrite decide_False.
           2:{ intros Hin. apply elem_of_cons in Hin as [->|Hin]; [apply Hx|apply Hl]; auto. }
           destruct (dget x d); [apply dget_dset_ne, Hx|reflexivity].
    + destruct (decide (x = n)) as [->|Hx].
      * rewrite Hn. reflexivity.
      * destruct (dget x d); [apply dget_dset_ne, Hx|reflexivity].
Qed.

Lemma restrict_fold_NoDup (names : list string) (d acc : dict Node) :
  NoDup (dkeys acc) →
  NoDup (dkeys (foldl (λ acc x, match dget x d with
                                | Some nd => dset x nd acc
                                | None => acc
                                end) acc names)).
Proof.
  revert acc. induction names as [|x l IH]; intros acc Hacc; simpl; [exact Hacc|].
  apply IH. destruct (dget x d); [apply NoDup_dset, Hacc|exact Hacc].
Qed.

Lemma restrict_nodes_NoDup (names : list string) (d : dict Node) :
  NoDup (dkeys (restrict_nodes names d)).
Proof. apply restrict_fold_NoDup, NoDup_nil_2. Qed.

Lemma restrict_nodes_lookup (names : list string) (d : dict Node) (n : string) :
  dget n (restrict_nodes names d) = if decide (n ∈ names) then dget n d else None.
Proof.
  unfold restrict_nodes. rewrite restrict_fold_lookup.
  destruct (dget n d), (decide (n ∈ names)); reflexivity.
Qed.

Lemma restrict_nodes_elem (names : list string) (d : dict Node) n nd :
  (n, nd) ∈ restrict_nodes names d ↔ n ∈ names ∧ dget n d = Some nd.
Proof.
  split.
  - intros Hin. apply elem_dget in Hin; [|apply restrict_nodes_NoDup].
    rewrite restrict_nodes_lookup in Hin.
    destruct (decide (n ∈ names)); [split; assumption|discriminate].
  - intros [Hn Hd]. apply dget_Some_elem. rewrite restrict_nodes_lookup.
    rewrite decide_True by exact Hn. exact Hd.
Qed.

Lemma dget_app_here {V} (acc rest : dict V) k v :
  k ∉ dkeys acc → dget k (acc ++ (k, v) :: rest) = Some v.
Proof.
  induction acc as [|[k0 v0] acc IH]; intros Hk; simpl.
  - rewrite decide_True by reflexivity. reflexivity.
  - rewrite decide_False.
    + apply IH. intros Hin. apply Hk. simpl. apply list_elem_of_further, Hin.
    + intros ->. apply Hk. simpl. apply list_elem_of_here.
Qed.

Lemma restrict_fold_all (d acc rest : dict Node) :
  d = acc ++ rest → NoDup (dkeys d) →
  foldl (λ acc x, match dget x d with
                  | Some nd => dset x nd acc
                  | None => acc
                  end) acc (dkeys rest) = d.
Proof.
  revert acc. induction rest as [|[k v] rest IH]; intros acc Hd Hnd; simpl.
  - rewrite Hd, app_nil_r. reflexivity.
  - assert (k ∉ dkeys acc) as Hk.
    { rewrite Hd in Hnd. unfold dkeys in Hnd. rewrite map_app in Hnd.
      apply NoDup_app in Hnd as (_ & Hdisj & _). intros Hin.
      apply (Hdisj k Hin). simpl. apply list_elem_of_here. }
    assert (dget k d = Some v) as Hg by (rewrite Hd; apply dget_app_here, Hk).
    rewrite Hg.
    rewrite dset_absent by (apply dget_None_keys, Hk).
    apply IH; [|exact Hnd]. rewrite Hd, <- app_assoc. reflexivity.
Qed.

(** X4.  The dictionary comprehension of [saveExpectations] keeps, for
    every requested name that is a node of the model, the node the model
    has under that name, once, however often the name is requested; a
    requested name that the model does not have is dropped in silence.
    Asked for the model's own names, which is what nodes="all" does, it
    gives the model's dictionary back, in its order. *)
Theorem restrict_nodes_exported (names : list string) (d : dict Node) :
  NoDup (dkeys (restrict_nodes names d)) ∧
  (∀ n nd, (n, nd) ∈ restrict_nodes names d ↔ n ∈ names ∧ dget n d = Some nd) ∧
  (∀ n, n ∈ names → dget n d = None → n ∉ dkeys (restrict_nodes names d)) ∧
  (NoDup (dkeys d) →
   select_nodes (ArgStr "all") d = ok (dkeys d) ∧ restrict_nodes (dkeys d) d = d).
Proof.
  split; [apply restrict_nodes_NoDup|]. split; [apply restrict_nodes_elem|]. split.
  - intros n Hn Hd. apply dget_None_keys. rewrite restrict_nodes_lookup.
    destruct (decide (n ∈ names)); [exact Hd|reflexivity].
  - intros Hnd. split; [reflexivity|]. apply (restrict_fold_all d [] d); [reflexivity|exact Hnd].
Qed.

(** ** What a run of [saveExpectations] preserves *)

Section saving_preserves.
Context {F : Type} `{FloatOps F}.
Variable sm : saveModel F.
Variable R : World F → World F → Prop.
Variable T : nat → Prop.
Context `{!PreOrder R}.
Hypothesis R_create : ∀ q e w r w',
  h5_create (hdf5 sm) ("expectations" :: q) e w = (r, w') → R w w'.
Hypothesis R_fill : ∀ l msk w r w', T l → arr_setmask l msk nan w = (r, w') → R w w'.
Implicit Types (w : World F).

Lemma read_arr_preserves l w r w' : read_arr l w = (r, w') → R w w'.
Proof. intros Hr. apply read_arr_same in Hr as ->. reflexivity. Qed.

Lemma save_node_preserves n nd w r w' :
  (∀ ch c, nd = Multiview_Node ch → n ∈ multigroup_nodes → c ∈ ch → T (cexp c)) →
  save_node sm n nd w = (r, w') → R w w'.
Proof.
  intros HT. unfold save_node.
  apply bind_preserves; [apply _|intros ???; apply R_create|].
  intros _. destruct nd as [ch|e].
  - apply forM_preserves; [apply _|].
    intros [m c] w1 r1 w1' Hin. simpl.
    apply elem_of_lookup_imap_1 in Hin as (m' & c' & [= -> ->] & Hc).
    destruct (bool_decide (n ∈ multigroup_nodes)) eqn:Hn.
    + assert (T (cexp c')) as HTc.
      { apply (HT ch); [reflexivity| |].
        - apply bool_decide_eq_true in Hn. exact Hn.
        - apply list_elem_of_lookup. eauto. }
      unfold save_view_groups.
      apply bind_preserves; [apply _|apply lift_preserves, _|].
      intros view. apply bind_preserves; [apply _|intros ???; apply R_create|].
      intros _. apply forM_preserves; [apply _|].
      intros g w2 r2 w2' _.
      apply bind_preserves; [apply _|apply lift_preserves, _|].
      intros attr. apply bind_preserves; [apply _|apply lift_preserves, _|].
      intros msk. apply bind_preserves; [apply _|intros ???; apply R_fill, HTc|].
      intros _. apply bind_preserves; [apply _|apply read_arr_preserves|].
      intros a. apply bind_preserves; [apply _|apply lift_preserves, _|].
      intros rows w3 r3 w3'. apply R_create.
    + unfold save_view.
      apply bind_preserves; [apply _|apply lift_preserves, _|].
      intros view. apply bind_preserves; [apply _|apply read_arr_preserves|].
      intros a w3 r3 w3'. apply R_create.
  - destruct (bool_decide (n ∈ multigroup_nodes)).
    + apply forM_preserves; [apply _|]. intros g w1 r1 w1' _.
      apply bind_preserves; [apply _|apply read_arr_preserves|].
      intros a. apply bind_preserves; [apply _|apply lift_preserves, _|].
      intros rows w2 r2 w2'. apply R_create.
    + apply bind_preserves; [apply _|apply read_arr_preserves|].
      intros a w2 r2 w2'. apply R_create.
Qed.

Lemma saveExpectations_preserves arg w r w' :
  (∀ l, masked_on_save (getNodes (model sm)) l → T l) →
  saveExpectations sm arg w = (r, w') → R w w'.
Proof.
  intros HT. unfold saveExpectations.
  apply bind_preserves; [apply _|apply lift_preserves, _|].
  intros names. apply bind_preserves; [apply _|intros ???; apply R_create|].
  intros _. apply forM_preserves; [apply _|].
  intros [n nd] w1 r1 w1' Hin. simpl. apply save_node_preserves.
  intros ch c -> Hn Hc. apply HT. exists n, ch, c.
  apply restrict_nodes_elem in Hin as [_ Hd]. apply dget_Some_elem in Hd.
  repeat split; assumption.
Qed.

End saving_preserves.

Section saving_frame.
Context {F : Type} `{FloatOps F}.
Implicit Types (w : World F) (sm : saveModel F) (a : ndarray F).

Lemma h5_create_error file path e w err w' :
  h5_create file path e w = (raise err, w') → w' = w.
Proof.
  unfold h5_create. destruct (dget file (files w)) as [f|]; [|intros [= _ <-]; reflexivity].
  destruct (dmem path f); [intros [= _ <-]; reflexivity|discriminate].
Qed.

Lemma h5_create_exists file path e w f :
  dget file (files w) = Some f → is_Some (dget path f) →
  h5_create file path e w = (raise ValueError, w).
Proof.
  intros Hf [e0 Hp]. unfold h5_create. rewrite Hf. unfold dmem. rewrite Hp. reflexivity.
Qed.

Lemma keeps_dicts_preorder : PreOrder (@keeps_dicts F).
Proof.
  split.
  - intros w l d Hl. exact Hl.
  - intros w1 w2 w3 H12 H23 l d Hl. apply H23, H12, Hl.
Qed.

Lemma h5_create_keeps_dicts file path e w r w' :
  h5_create file path e w = (r, w') → keeps_dicts w w'.
Proof.
  intros Hc l d Hl. replace w' with (h5_create file path e w).2 by (rewrite Hc; reflexivity).
  rewrite h5_create_heap. exact Hl.
Qed.

Lemma arr_setmask_keeps_dicts l msk (v : F) w r w' :
  arr_setmask l msk v w = (r, w') → keeps_dicts w w'.
Proof.
  unfold arr_setmask, bind, lift, write_obj.
  destruct (read_arr l w) as [[e|a] w1] eqn:Hr.
  { apply read_arr_same in Hr as ->. intros [= <- <-] l0 d Hl. exact Hl. }
  apply read_arr_ok in Hr as [Ha ->].
  destruct (setmask a msk v) as [e|a'].
  { intros [= <- <-] l0 d Hl. exact Hl. }
  intros [= <- <-] l0 d Hl. simpl.
  rewrite list_lookup_insert_ne; [exact Hl|]. intros ->. congruence.
Qed.

Lemma writes_under_preorder file top : PreOrder (@writes_under F file top).
Proof.
  split.
  - intros w. split; [reflexivity|]. intros f' Hf'. exists f'. split; [exact Hf'|]. auto.
  - intros w1 w2 w3 [Ho12 Hf12] [Ho23 Hf23]. split.
    + intros file' Hne. rewrite (Ho23 _ Hne). apply Ho12, Hne.
    + intros f3 Hf3. destruct (Hf23 _ Hf3) as (f2 & Hf2 & H32).
      destruct (Hf12 _ Hf2) as (f1 & Hf1 & H21). exists f1. split; [exact Hf1|].
      intros p e Hp. destruct (H32 _ _ Hp) as [Hp2|Htop]; [apply (H21 _ _ Hp2)|auto].
Qed.

Lemma h5_create_writes_under file top q e w r w' :
  h5_create file (top :: q) e w = (r, w') → writes_under file top w w'.
Proof.
  pose proof (writes_under_preorder file top).
  unfold h5_create. destruct (dget file (files w)) as [f|] eqn:Hf.
  2:{ intros [= <- <-]. reflexivity. }
  destruct (dmem (top :: q) f).
  { intros [= <- <-]. reflexivity. }
  intros [= <- <-]. split; simpl.
  - intros file' Hne. apply dget_dset_ne. congruence.
  - intros f'. rewrite dget_dset_eq. intros [= <-]. exists f. split; [exact Hf|].
    intros p e0. rewrite dget_dset. destruct (decide (top :: q = p)) as [<-|_]; auto.
Qed.

Lemma arr_setmask_files l msk (v : F) w r w' :
  arr_setmask l msk v w = (r, w') → files w' = files w.
Proof.
  unfold arr_setmask, bind, lift, write_obj.
  destruct (read_arr l w) as [[e|a] w1] eqn:Hr; apply read_arr_same in Hr as ->.
  { intros [= <- <-]. reflexivity. }
  destruct (setmask a msk v) as [e|a']; intros [= <- <-]; reflexivity.
Qed.

(** X5.  Whatever its outcome, a call of [saveExpectations] leaves the
    heap at its size, leaves every object alone that is not an array of a
    multi-view node named in [Y, Tau, Z], changes an array at most by
    putting NaN into entries, and leaves every dictionary (the training
    options among them) as it is.  It only adds to its file, and only
    under the name "expectations": every entry the file had is still
    there, every new one lies under that name, and the other files are as
    they were. *)
Theorem saveExpectations_frame sm (arg : NodesArg) w r w' :
  saveExpectations sm arg w = (r, w') →
  length (heap w') = length (heap w) ∧
  (∀ l, ¬ masked_on_save (getNodes (model sm)) l → heap w' !! l = heap w !! l) ∧
  (∀ l a, heap w !! l = Some (OArr a) →
          ∃ a', heap w' !! l = Some (OArr a') ∧ nan_filled a a') ∧
  (∀ l d, heap w !! l = Some (ODict d) → heap w' !! l = Some (ODict d)) ∧
  (∀ p e, persisted sm w p = Some e → persisted sm w' p = Some e) ∧
  (∀ p e, persisted sm w' p = Some e →
          persisted sm w p = Some e ∨ head p = Some "expectations") ∧
  (∀ file, file ≠ hdf5 sm → dget file (files w') = dget file (files w)).
Proof.
  intros Hrun.
  assert (evolves (masked_on_save (getNodes (model sm))) w w') as Hev.
  { eapply (saveExpectations_preserves sm (evolves (masked_on_save (getNodes (model sm))))
              (masked_on_save (getNodes (model sm))));
      [| |intros l Hl; exact Hl|exact Hrun].
    - intros. eapply h5_create_evolves. eassumption.
    - intros. eapply arr_setmask_evolves; eassumption. }
  assert (keeps_dicts w w') as Hdicts.
  { pose proof keeps_dicts_preorder.
    eapply (saveExpectations_preserves sm keeps_dicts (λ _, True));
      [| |intros; exact I|exact Hrun].
    - intros. eapply h5_create_keeps_dicts. eassumption.
    - intros. eapply arr_setmask_keeps_dicts. eassumption. }
  assert (writes_under (hdf5 sm) "expectations" w w') as [Hother Hunder].
  { pose proof (writes_under_preorder (hdf5 sm) "expectations") as HP.
    eapply (saveExpectations_preserves sm (writes_under (hdf5 sm) "expectations")
              (λ _, True)); [| |intros; exact I|exact Hrun].
    - intros. eapply h5_create_writes_under. eassumption.
    - intros l msk w1 r1 w1' _ Hfill. apply arr_setmask_files in Hfill.
      split.
      + intros. rewrite Hfill. reflexivity.
      + intros f' Hf'. rewrite Hfill in Hf'. exists f'. split; [exact Hf'|]. auto. }
  pose proof Hev as (Hlen & Hout & Harr & _).
  split; [exact Hlen|]. split; [exact Hout|]. split; [exact Harr|].
  split; [exact Hdicts|]. split; [|split; [|exact Hother]].
  - intros p e. apply evolves_persisted with (masked_on_save (getNodes (model sm))), Hev.
  - intros p e. unfold persisted.
    destruct (dget (hdf5 sm) (files w')) as [f'|] eqn:Hf'; [|discriminate]. simpl.
    destruct (Hunder f' eq_refl) as (f & -> & Hpe). simpl. apply Hpe.
Qed.

(** X6.  A call of [saveExpectations] either fails without changing
    anything, or leaves the group "expectations" in the file, whether it
    then completed or failed half-way; after that every further call on
    the same serializer, whatever nodes it names, returns an error and
    leaves the heap and the files as they are. *)
Theorem saveExpectations_once sm (arg : NodesArg) w r w' :
  saveExpectations sm arg w = (r, w') →
  (r ≠ ok tt ∧ w' = w) ∨
  (persisted sm w' ["expectations"] = Some H5Group ∧
   ∀ arg', ∃ err, saveExpectations sm arg' w' = (raise err, w')).
Proof.
  intros Hrun. unfold saveExpectations in Hrun. unfold bind at 1, lift at 1 in Hrun.
  destruct (select_nodes arg (getNodes (model sm))) as [e|names].
  { left. injection Hrun as <- <-. split; [discriminate|reflexivity]. }
  cbv beta iota delta [ok] in Hrun. unfold bind at 1 in Hrun.
  destruct (h5_create (hdf5 sm) ["expectations"] H5Group w) as [[e0|[]] w0] eqn:Hc.
  { left. apply h5_create_error in Hc as ->. injection Hrun as <- <-.
    split; [discriminate|reflexivity]. }
  right.
  assert (persisted sm w' ["expectations"] = Some H5Group) as Hp.
  { apply h5_create_persisted in Hc as [Hp0 _].
    eapply (evolves_persisted (λ _, True)); [|exact Hp0].
    eapply (forM_preserves (evolves (λ _, True))); [|exact Hrun].
    intros [n nd] w1 r1 w1' _. simpl. apply save_node_evolves. intros. exact I. }
  split; [exact Hp|]. intros arg'.
  unfold saveExpectations. unfold bind at 1, lift at 1.
  destruct (select_nodes arg' (getNodes (model sm))) as [e|names']; [eexists; reflexivity|].
  cbv beta iota delta [ok]. unfold bind at 1. unfold h5_create, persisted in *.
  destruct (dget (hdf5 sm) (files w')) as [f|]; [|discriminate]. simpl in Hp.
  unfold dmem. rewrite Hp. eexists. reflexivity.
Qed.

End saving_frame.

Lemma saveExpectations_frame_witness :
  let w := ex_world1 ex_train_opts in
  let w' := (saveExpectations ex_sm (ArgStr "all") w).2 in
  length (heap w') = length (heap w) ∧
  (∀ l, ¬ masked_on_save (getNodes (model ex_sm)) l → heap w' !! l = heap w !! l) ∧
  (∀ l a, heap w !! l = Some (OArr a) →
          ∃ a', heap w' !! l = Some (OArr a') ∧ nan_filled a a') ∧
  (∀ l d, heap w !! l = Some (ODict d) → heap w' !! l = Some (ODict d)) ∧
  (∀ p e, persisted ex_sm w p = Some e → persisted ex_sm w' p = Some e) ∧
  (∀ p e, persisted ex_sm w' p = Some e →
          persisted ex_sm w p = Some e ∨ head p = Some "expectations") ∧
  (∀ file, file ≠ hdf5 ex_sm → dget file (files w') = dget file (files w)).
Proof.
  intros w w'.
  apply (saveExpectations_frame ex_sm (ArgStr "all") w
           (saveExpectations ex_sm (ArgStr "all") w).1 w').
  apply surjective_pairing.
Defined.

Lemma saveExpectations_once_witness :
  let w' := (saveExpectations ex_sm_Y_Node (ArgStr "all") (ex_world1 ex_train_opts)).2 in
  (raise IndexError ≠ ok tt ∧ w' = ex_world1 ex_train_opts) ∨
  (persisted ex_sm_Y_Node w' ["expectations"] = Some H5Group ∧
   ∀ arg', ∃ err, saveExpectations ex_sm_Y_Node arg' w' = (raise err, w')).
Proof.
  intros w'.
  apply (saveExpectations_once ex_sm_Y_Node (ArgStr "all") (ex_world1 ex_train_opts)
           (raise IndexError) w').
  reflexivity.
Defined.

(** ** The rows of the groups *)

Lemma take_rows_bound {A} `{Inhabited A} (ix : list nat) (a rows : ndarray A) i :
  take_rows ix a = ok rows → i ∈ ix → i < (shape a).1.
Proof.
  unfold take_rows. destruct (forallb _ ix) eqn:Hall; [|discriminate].
  intros _ Hi. rewrite forallb_forall in Hall.
  apply list_elem_of_In, Hall, bool_decide_eq_true in Hi. exact Hi.
Qed.

Lemma get_take_rows {A} `{Inhabited A} (ix : list nat) (a rows : ndarray A) k i j :
  take_rows ix a = ok rows → ix !! k = Some i → j < (shape a).2 →
  get rows k j = get a i j.
Proof.
  unfold take_rows. destruct (forallb _ ix); [|discriminate].
  intros [= <-] Hk Hj. unfold get at 1. simpl.
  rewrite list_lookup_fmap, Hk. simpl.
  rewrite list_lookup_fmap, lookup_seq_lt by exact Hj. reflexivity.
Qed.

(* when the rows of every group can be taken, there is a row for every sample *)
Lemma groups_rows_cover {A} `{Inhabited A} (sg : list string) (a : ndarray A) :
  (∀ g, g ∈ np_unique sg → ∃ rows, take_rows (np_where_eq g sg) a = ok rows) →
  length sg ≤ (shape a).1.
Proof.
  intros Hall. destruct (decide (length sg = 0)) as [->|Hne]; [lia|].
  destruct (sg !! (length sg - 1)) as [g|] eqn:Hg.
  2:{ apply lookup_ge_None in Hg. lia. }
  destruct (Hall g) as [rows Hrows].
  { apply np_unique_elem, list_elem_of_lookup. eauto. }
  assert (length sg - 1 < (shape a).1); [|lia].
  eapply take_rows_bound; [exact Hrows|]. apply np_where_eq_elem, Hg.
Qed.

Section group_rows.
Context {F : Type} `{FloatOps F}.
Implicit Types (w : World F) (sm : saveModel F) (a : ndarray F).

(** X7.  What a completed [saveExpectations] needed of an exported node
    named in [Y, Tau, Z], in a serializer whose group names are the sorted
    labels: the array of a single-view node, and of every view of a
    multi-view node, has a row for every sample; every view of a
    multi-view node has a name; with at least one sample, the mask of the
    view is an array of the very shape of the view's array. *)
Theorem saveExpectations_needs_sample_rows sm (arg : NodesArg) (names : list string) w w' :
  saveExpectations sm arg w = (ok tt, w') →
  select_nodes arg (getNodes (model sm)) = ok names →
  groups_names sm = np_unique (samples_groups sm) →
  (∀ n e a,
     (n, Single_Node e) ∈ restrict_nodes names (getNodes (model sm)) →
     n ∈ multigroup_nodes → heap w !! e = Some (OArr a) →
     length (samples_groups sm) ≤ (shape a).1) ∧
  (∀ n ch m c a,
     (n, Multiview_Node ch) ∈ restrict_nodes names (getNodes (model sm)) →
     n ∈ multigroup_nodes → ch !! m = Some c → heap w !! cexp c = Some (OArr a) →
     length (samples_groups sm) ≤ (shape a).1 ∧
     is_Some (views_names sm !! m) ∧
     (samples_groups sm ≠ [] →
      ∃ msk, sm_mask sm !! m = Some (MaskArray msk) ∧ shape msk = shape a)).
Proof.
  intros Hrun Hsel Hgroups. split.
  - intros n e a Hin Hn Ha.
    destruct (saveExpectations_node _ _ _ _ _ _ _ Hrun Hsel Hin)
      as (w1 & w2 & (_ & _ & Harr & _) & Hx & _).
    destruct (Harr _ _ Ha) as (a1 & Ha1 & [Hshape _]).
    rewrite <- Hshape. apply groups_rows_cover. intros g Hg.
    rewrite <- Hgroups in Hg.
    destruct (save_node_single_groups _ _ _ _ _ _ Hx Hn Hg) as (a2 & rows & Ha2 & Hrows & _).
    exists rows. replace a1 with a2 by congruence. exact Hrows.
  - intros n ch m c a Hin Hn Hc Ha.
    destruct (saveExpectations_node _ _ _ _ _ _ _ Hrun Hsel Hin)
      as (w1 & w2 & (_ & _ & Harr & _) & Hx & _).
    destruct (Harr _ _ Ha) as (a1 & Ha1 & [Hshape _]).
    destruct (save_node_view_groups _ _ _ _ _ _ _ _ Hx Hn Hc Ha1) as (view & Hview & Hgr).
    assert (samples_groups sm ≠ [] →
            ∃ msk a2, sm_mask sm !! m = Some (MaskArray msk) ∧ shape msk = shape a ∧
                      shape a2 = shape a ∧
                      ∀ g, g ∈ np_unique (samples_groups sm) →
                           ∃ rows, take_rows (np_where_eq g (samples_groups sm)) a2 = ok rows)
      as Hfilled.
    { intros Hne. destruct Hgr as (msk & a_t & a2 & a' & Hmsk & [Hst _] & Hfill & _ & _ & Hall).
      { rewrite Hgroups. apply np_unique_nonempty, Hne. }
      exists msk, a2. split; [exact Hmsk|].
      split; [rewrite (setmask_shape _ _ _ Hfill); congruence|].
      split; [rewrite (setmask_result_shape _ _ _ Hfill); congruence|].
      intros g Hg. rewrite <- Hgroups in Hg. destruct (Hall g Hg) as (rows & Hrows & _).
      eauto. }
    split; [|split].
    + destruct (samples_groups sm) as [|g0 sg] eqn:Hsg; [simpl; lia|].
      destruct Hfilled as (msk & a2 & _ & _ & Hs2 & Hall); [discriminate|].
      rewrite <- Hs2. apply groups_rows_cover, Hall.
    + rewrite Hview. eauto.
    + intros Hne. destruct (Hfilled Hne) as (msk & a2 & Hmsk & Hs & _). eauto.
Qed.

(** X8.  After a completed [saveExpectations], the values of every sample
    can be read back from the dataset of the sample's group: for an
    exported single-view node named in [Y, Tau, Z], the sample at position
    i, with label g, is a column of the dataset written under g, the
    column at the rank of i among the positions of g, and that column
    holds row i of the node's array. *)
Theorem saveExpectations_sample_column sm (arg : NodesArg) (names : list string) w w'
    (n : string) (e : nat) a (i : nat) (g : string) :
  saveExpectations sm arg w = (ok tt, w') →
  select_nodes arg (getNodes (model sm)) = ok names →
  groups_names sm = np_unique (samples_groups sm) →
  (n, Single_Node e) ∈ restrict_nodes names (getNodes (model sm)) →
  n ∈ multigroup_nodes →
  heap w !! e = Some (OArr a) →
  ¬ masked_on_save (restrict_nodes names (getNodes (model sm))) e →
  samples_groups sm !! i = Some g →
  ∃ k t, np_where_eq g (samples_groups sm) !! k = Some i ∧
         persisted sm w' ["expectations"; n; g] = Some (H5Array t (compression_level sm)) ∧
         shape t = ((shape a).2, length (np_where_eq g (samples_groups sm))) ∧
         ∀ j, j < (shape a).2 → get t j k = get a i j.
Proof.
  intros Hrun Hsel Hgroups Hin Hn Ha Hout Hg.
  destruct (saveExpectations_node _ _ _ _ _ _ _ Hrun Hsel Hin)
    as (w1 & w2 & (_ & Hsame & _ & _) & Hx & Hev2).
  assert (g ∈ groups_names sm) as Hgin.
  { rewrite Hgroups. apply np_unique_elem, list_elem_of_lookup. eauto. }
  destruct (save_node_single_groups _ _ _ _ _ _ Hx Hn Hgin) as (a1 & rows & Ha1 & Hrows & Hp).
  rewrite (Hsame _ Hout), Ha in Ha1. injection Ha1 as <-.
  assert (i ∈ np_where_eq g (samples_groups sm)) as Hi by (apply np_where_eq_elem, Hg).
  apply list_elem_of_lookup in Hi as [k Hk].
  exists k, (transpose rows). split; [exact Hk|]. split.
  { eapply evolves_persisted; [exact Hev2|exact Hp]. }
  pose proof (take_rows_shape _ _ _ Hrows) as Hshape.
  split.
  - unfold transpose. rewrite shape_tabulate, Hshape. reflexivity.
  - intros j Hj. unfold transpose. rewrite get_tabulate.
    + eapply get_take_rows; eassumption.
    + rewrite Hshape. exact Hj.
    + rewrite Hshape. simpl. eapply lookup_lt_Some, Hk.
Qed.

End group_rows.

Lemma saveExpectations_needs_sample_rows_witness :
  let w := ex_world1 ex_train_opts in
  let names := ["Y"; "W"; "Z"; "Tau"; "AlphaZ"] in
  (∀ n e a,
     (n, Single_Node e) ∈ restrict_nodes names (getNodes (model ex_sm)) →
     n ∈ multigroup_nodes → heap w !! e = Some (OArr a) →
     length (samples_groups ex_sm) ≤ (shape a).1) ∧
  (∀ n ch m c a,
     (n, Multiview_Node ch) ∈ restrict_nodes names (getNodes (model ex_sm)) →
     n ∈ multigroup_nodes → ch !! m = Some c → heap w !! cexp c = Some (OArr a) →
     length (samples_groups ex_sm) ≤ (shape a).1 ∧
     is_Some (views_names ex_sm !! m) ∧
     (samples_groups ex_sm ≠ [] →
      ∃ msk, sm_mask ex_sm !! m = Some (MaskArray msk) ∧ shape msk = shape a)).
Proof.
  intros w names.
  apply (saveExpectations_needs_sample_rows ex_sm (ArgStr "all") names w
           (saveExpectations ex_sm (ArgStr "all") w).2); reflexivity.
Defined.

Lemma saveExpectations_sample_column_witness :
  let w' := (saveExpectations ex_sm (ArgStr "all") (ex_world1 ex_train_opts)).2 in
  ∃ k t, np_where_eq "g1" (samples_groups ex_sm) !! k = Some 2 ∧
         persisted ex_sm w' ["expectations"; "Z"; "g1"] = Some (H5Array t 9) ∧
         shape t = (1, 2) ∧
         ∀ j, j < 1 → get t j k = get ex_Z_E 2 j.
Proof.
  intros w'.
  apply (saveExpectations_sample_column ex_sm (ArgStr "all")
           ["Y"; "W"; "Z"; "Tau"; "AlphaZ"] (ex_world1 ex_train_opts) w'
           "Z" 3 ex_Z_E 2 "g1").
  - reflexivity.
  - reflexivity.
  - reflexivity.
  - vm_compute. do 2 apply list_elem_of_further. apply list_elem_of_here.
  - do 2 apply list_elem_of_further. apply list_elem_of_here.
  - reflexivity.
  - not_masked.
  - reflexivity.
Defined.

(** ** The table of the training options *)

Lemma mapR_length {A B} (f : A → res B) (l : list A) (l' : list B) :
  mapR f l = ok l' → length l' = length l.
Proof.
  revert l'. induction l as [|a l IH]; intros l' Hm; simpl in Hm.
  - injection Hm as <-. reflexivity.
  - destruct (f a) as [|b]; [discriminate|]. simpl in Hm.
    destruct (mapR f l) as [|bs]; [discriminate|]. simpl in Hm.
    injection Hm as <-. simpl. f_equal. apply IH. reflexivity.
Qed.

Lemma dset_dset_eq {K V} `{EqDecision K} (d : assoc K V) k v v' :
  dset k v (dset k v' d) = dset k v d.
Proof.
  induction d as [|[k0 v0] d IH]; simpl.
  - rewrite decide_True by reflexivity. reflexivity.
  - destruct (decide (k0 = k)) as [->|Hne]; simpl.
    + rewrite decide_True by reflexivity. reflexivity.
    + rewrite decide_False by exact Hne. rewrite IH. reflexivity.
Qed.

Lemma dvalues_lookup {V} (d : dict V) i k v :
  d !! i = Some (k, v) → dvalues d !! i = Some v.
Proof.
  revert i. induction d as [|[k0 v0] d IH]; intros [|i] Hi; try discriminate Hi.
  - injection Hi as -> ->. reflexivity.
  - apply (IH i), Hi.
Qed.

Section train_table.
Context {F : Type} `{FloatOps F}.
Implicit Types (w : World F) (sm : saveModel F) (o : dict (OptVal F)).

Lemma same_files_preorder : PreOrder (@same_files F).
Proof.
  split.
  - intros w. reflexivity.
  - intros w1 w2 w3 H12 H23. unfold same_files in *. congruence.
Qed.

Lemma read_dict_same l w r w' : read_dict l w = (r, w') → w' = w.
Proof. unfold read_dict. destruct (heap w !! l) as [[]|]; intros [= <- <-]; reflexivity. Qed.

Lemma read_dict_ok l w o w' :
  read_dict l w = (ok o, w') → heap w !! l = Some (ODict o) ∧ w' = w.
Proof.
  unfold read_dict. destruct (heap w !! l) as [[]|]; intros [= <- <-]; try discriminate.
  split; reflexivity.
Qed.

Lemma dict_setitem_files l k v w r w' : dict_setitem l k v w = (r, w') → same_files w w'.
Proof.
  unfold dict_setitem, bind, write_obj.
  destruct (read_dict l w) as [[e|d] w1] eqn:Hr; apply read_dict_same in Hr as ->;
    intros [= <- <-]; reflexivity.
Qed.

Lemma dict_pop_files l k w r w' : dict_pop l k w = (r, w') → same_files w w'.
Proof.
  unfold dict_pop, bind, write_obj, throw.
  destruct (read_dict l w) as [[e|d] w1] eqn:Hr; apply read_dict_same in Hr as ->.
  - intros [= <- <-]. reflexivity.
  - destruct (dmem k d); intros [= <- <-]; reflexivity.
Qed.

Lemma drop_key_files l k w r w' : drop_key l k w = (r, w') → same_files w w'.
Proof.
  unfold drop_key, dict_contains, bind, ret.
  destruct (read_dict l w) as [[e|d] w1] eqn:Hr; apply read_dict_same in Hr as ->.
  - intros [= <- <-]. reflexivity.
  - destruct (dmem k d); [apply dict_pop_files|intros [= <- <-]; reflexivity].
Qed.

Lemma flatten_entry_files l kv w r w' : flatten_entry l kv w = (r, w') → same_files w w'.
Proof.
  pose proof same_files_preorder.
  unfold flatten_entry. destruct (kv.2) as [x|s|ls|v]; try (intros [= <- <-]; reflexivity).
  apply bind_preserves; [apply _| |intros _ ???; apply dict_pop_files].
  apply forM_preserves; [apply _|]. intros kv1 w1 r1 w1' _. apply dict_setitem_files.
Qed.

Lemma h5_create_ok file path (e : h5entry F) w w' :
  h5_create file path e w = (ok tt, w') →
  ∃ f, dget file (files w) = Some f ∧ dget path f = None ∧
       w' = with_files (dset file (dset path e f) (files w)) w.
Proof.
  unfold h5_create. destruct (dget file (files w)) as [f|]; [|discriminate].
  unfold dmem. destruct (dget path f) eqn:Hp; [discriminate|].
  intros [= <-]. exists f. repeat split; assumption.
Qed.

Lemma astype_S_ok (names bytes : list string) :
  astype_S names = ok bytes → bytes = names ∧ ∀ k, k ∈ names → is_ascii k = true.
Proof.
  unfold astype_S. destruct (forallb is_ascii names) eqn:Hall; [|discriminate].
  intros [= <-]. split; [reflexivity|]. intros k Hk.
  rewrite forallb_forall in Hall. apply Hall, list_elem_of_In, Hk.
Qed.

Lemma astype_S_error (names : list string) e :
  astype_S names = inl e →
  e = UnicodeEncodeError ∧ ∃ k, k ∈ names ∧ is_ascii k = false.
Proof.
  unfold astype_S. destruct (forallb is_ascii names) eqn:Hall; [discriminate|].
  intros [= <-]. split; [reflexivity|].
  induction names as [|k names IH]; [discriminate|]. simpl in Hall.
  destruct (is_ascii k) eqn:Hk.
  - destruct (IH Hall) as (k' & Hin & Hk'). exists k'. split; [|exact Hk'].
    apply list_elem_of_further, Hin.
  - exists k. split; [apply list_elem_of_here|exact Hk].
Qed.

(* the names of a table that is in the file can be set when they are ASCII *)
Lemma h5_set_names_table file (t : FloatTable F) names f w :
  astype_S names = ok names →
  dget file (files w) = Some f →
  dget ["training_opts"] f = Some (table_entry t None) →
  h5_set_names file ["training_opts"] names w
  = (ok tt,
     with_files (dset file (dset ["training_opts"] (table_entry t (Some names)) f) (files w)) w).
Proof.
  intros Hn Hf Hp. unfold h5_set_names. rewrite Hn, Hf, Hp. destruct t; reflexivity.
Qed.

(** X9.  What an unsuccessful [saveTrainOptions] leaves in the files:
    either nothing, the files being as they were before the call, or the
    error is the UnicodeEncodeError of line 185 for a key of the flattened
    dictionary that is not ASCII, and then the table training_opts has
    been written, without its names, into a file that had no entry of
    that name. *)
Theorem saveTrainOptions_error_files sm w err w' :
  saveTrainOptions sm w = (raise err, w') →
  files w' = files w ∨
  (err = UnicodeEncodeError ∧
   ∃ o' t f,
     heap w' !! train_opts sm = Some (ODict o') ∧
     (∃ k, k ∈ dkeys o' ∧ is_ascii k = false) ∧
     np_array_float (dvalues o') = ok t ∧
     dget (hdf5 sm) (files w) = Some f ∧ dget ["training_opts"] f = None ∧
     files w'
     = dset (hdf5 sm) (dset ["training_opts"] (table_entry t None) f) (files w)).
Proof.
  pose proof same_files_preorder as HP.
  unfold saveTrainOptions. unfold bind at 1.
  destruct (read_dict (train_opts sm) w) as [[e|copy] w0] eqn:H0;
    apply read_dict_same in H0 as ->.
  { intros [= _ <-]. left. reflexivity. }
  unfold bind at 1.
  destruct (forM_ copy (flatten_entry (train_opts sm)) w) as [r1 w1] eqn:H1.
  assert (same_files w w1) as S1.
  { eapply (forM_preserves same_files); [|exact H1].
    intros kv w2 r2 w2' _. apply flatten_entry_files. }
  destruct r1 as [e|[]]; [intros [= _ <-]; left; exact S1|].
  unfold bind at 1.
  destruct (drop_key (train_opts sm) "schedule" w1) as [r2 w2] eqn:H2.
  pose proof (drop_key_files _ _ _ _ _ H2) as S2.
  destruct r2 as [e|[]]; [intros [= _ <-]; left; unfold same_files in *; congruence|].
  unfold bind at 1.
  destruct (drop_key (train_opts sm) "convergence_mode" w2) as [r3 w3] eqn:H3.
  pose proof (drop_key_files _ _ _ _ _ H3) as S3.
  assert (files w3 = files w) as S by (unfold same_files in *; congruence).
  destruct r3 as [e|[]]; [intros [= _ <-]; left; exact S|].
  unfold bind at 1.
  destruct (read_dict (train_opts sm) w3) as [[e|final] w3'] eqn:H4.
  { apply read_dict_same in H4 as ->. intros [= _ <-]. left. exact S. }
  apply read_dict_ok in H4 as [Hfinal ->].
  unfold bind at 1, lift at 1.
  destruct (np_array_float (dvalues final)) as [e|t] eqn:Ht;
    [intros [= _ <-]; left; exact S|].
  unfold bind at 1.
  destruct (h5_create (hdf5 sm) ["training_opts"] (table_entry t None) w3)
    as [[e|[]] w4] eqn:H5.
  { apply h5_create_error in H5 as ->. intros [= _ <-]. left. exact S. }
  apply h5_create_ok in H5 as (f & Hf & Hp & ->).
  unfold bind at 1, read_dict at 1. cbn [heap with_files]. rewrite Hfinal.
  cbv beta iota delta [ok]. rewrite S in Hf |- *.
  destruct (astype_S (dkeys final)) as [e|bytes] eqn:Hn.
  - unfold h5_set_names. rewrite Hn. intros [= <- <-]. right.
    apply astype_S_error in Hn as [-> Hk]. split; [reflexivity|].
    exists final, t, f. cbn [heap files with_files].
    repeat split; assumption.
  - apply astype_S_ok in Hn as [-> Hascii].
    erewrite h5_set_names_table; [discriminate| | |].
    + apply astype_S_ascii, Hascii.
    + cbn [files with_files]. apply dget_dset_eq.
    + apply dget_dset_eq.
Qed.

(* a dictionary without nested dictionaries is not flattened *)
Lemma flattened_flat (items o : dict (OptVal F)) :
  (∀ kv, kv ∈ items → is_dict kv.2 = false) → flattened items o = o.
Proof.
  revert o. induction items as [|kv items IH]; intros o Hflat; [reflexivity|].
  unfold flattened. simpl. rewrite flatten_step_not_dict by apply Hflat, list_elem_of_here.
  apply IH. intros kv' Hin. apply Hflat, list_elem_of_further, Hin.
Qed.

Lemma final_opts_flat o :
  (∀ kv, kv ∈ o → is_dict kv.2 = false) →
  dget "schedule" o = None → dget "convergence_mode" o = None →
  final_opts o = o.
Proof.
  intros Hflat Hs Hc. unfold final_opts. rewrite flattened_flat by exact Hflat.
  rewrite (ddel_absent o "schedule") by exact Hs. apply ddel_absent, Hc.
Qed.

Lemma to_float_not_dict (v : OptVal F) x : to_float v = ok x → is_dict v = false.
Proof. destruct v; [reflexivity..|discriminate]. Qed.

Lemma mapR_ok_Forall {A B} (f : A → res B) (l : list A) (l' : list B) :
  mapR f l = ok l' → Forall (λ x, ∃ y, f x = ok y) l.
Proof.
  revert l'. induction l as [|a l IH]; intros l' Hm; [constructor|].
  simpl in Hm. destruct (f a) as [|b] eqn:Hfa; [discriminate|]. simpl in Hm.
  destruct (mapR f l) as [|bs]; [discriminate|]. constructor; eauto.
Qed.

(* what the array of a successful conversion is made of *)
Lemma np_array_float_ok (vals : list (OptVal F)) (t : FloatTable F) :
  np_array_float vals = ok t →
  match t with
  | Table1 xs => mapR to_float vals = ok xs
  | Table2 a =>
      ∃ n, shape a = (length vals, n) ∧
           mapR (λ v, mapR (λ s, of_option ValueError (parse_float s)) (list_items v)) vals
           = ok (data a) ∧
           Forall (λ v, ∃ l, v = VList l ∧ length l = n) vals
  end.
Proof.
  unfold np_array_float. destruct (forallb (λ v, negb (is_list v)) vals).
  - destruct (mapR to_float vals) as [|xs]; [discriminate|]. intros [= <-]. reflexivity.
  - destruct vals as [|[x|s|l0|d] vals]; try discriminate.
    destruct (forallb _ (VList l0 :: vals)) eqn:Hall; [|discriminate].
    destruct (mapR _ (VList l0 :: vals)) as [|rows] eqn:Hrows; [discriminate|].
    intros [= <-]. exists (length l0). split; [reflexivity|]. split; [reflexivity|].
    apply Forall_forall. intros v Hv. rewrite forallb_forall in Hall.
    apply list_elem_of_In, Hall, andb_true_iff in Hv as [Hlist Hlen].
    apply bool_decide_eq_true in Hlen. destruct v; try discriminate Hlist. eauto.
Qed.

Lemma np_array_float_no_dict (vals : list (OptVal F)) (t : FloatTable F) :
  np_array_float vals = ok t → Forall (λ v, is_dict v = false) vals.
Proof.
  intros Ht. apply np_array_float_ok in Ht. destruct t as [xs|a].
  - apply mapR_ok_Forall in Ht. eapply Forall_impl; [exact Ht|].
    intros v [x Hx]. eapply to_float_not_dict, Hx.
  - destruct Ht as (n & _ & _ & Hall). eapply Forall_impl; [exact Hall|].
    intros v (l & -> & _). reflexivity.
Qed.

(* what the run of a completed call was *)
Lemma saveTrainOptions_ok_inv sm w w' o :
  heap w !! train_opts sm = Some (ODict o) → NoDup (dkeys o) →
  saveTrainOptions sm w = (ok tt, w') →
  ∃ t f,
    np_array_float (dvalues (final_opts o)) = ok t ∧
    (∀ k, k ∈ dkeys (final_opts o) → is_ascii k = true) ∧
    dget (hdf5 sm) (files w) = Some f ∧ dget ["training_opts"] f = None ∧
    w' = with_files
           (dset (hdf5 sm)
              (dset ["training_opts"] (table_entry t (Some (dkeys (final_opts o)))) f)
              (files w))
           (set_dict (train_opts sm) (final_opts o) w).
Proof.
  intros Hl Hnd. rewrite (saveTrainOptions_run sm w o Hl Hnd). cbv zeta.
  assert (train_opts sm < length (heap w)) as Hlt by (eapply lookup_lt_Some, Hl).
  destruct (np_array_float (dvalues (final_opts o))) as [e|t]; [discriminate|].
  unfold bind at 1.
  destruct (h5_create (hdf5 sm) ["training_opts"] (table_entry t None)
              (set_dict (train_opts sm) (final_opts o) w)) as [[e|[]] w4] eqn:H5;
    [discriminate|].
  apply h5_create_ok in H5 as (f & Hf & Hp & ->).
  unfold bind at 1, read_dict at 1. cbn [heap with_files].
  rewrite heap_set_dict by exact Hlt. cbv beta iota delta [ok].
  destruct (astype_S (dkeys (final_opts o))) as [e|bytes] eqn:Hn.
  { unfold h5_set_names. rewrite Hn. discriminate. }
  apply astype_S_ok in Hn as [-> Hascii].
  erewrite h5_set_names_table.
  2:{ apply astype_S_ascii, Hascii. }
  2:{ cbn [files with_files]. apply dget_dset_eq. }
  2:{ apply dget_dset_eq. }
  cbn [files with_files]. rewrite !dset_dset_eq.
  intros [= <-]. exists t, f. repeat split; try assumption.
Qed.

(** X10.  The table that a completed [saveTrainOptions] has written agrees
    with the dictionary it leaves behind: the names are the keys of that
    dictionary, all ASCII, each once and in its order.  The table is
    either 1-D, the value at every position being the number that the
    item at that position converts to (a number or a numeric string), or,
    when every remaining value is a list and all have one length, 2-D
    with one row per item, holding the items of the list parsed as
    numbers.  The name training_opts was free before, the other objects of
    the heap are untouched, and every other entry of the file is kept. *)
Theorem saveTrainOptions_names_and_values sm w w' o :
  heap w !! train_opts sm = Some (ODict o) → NoDup (dkeys o) →
  saveTrainOptions sm w = (ok tt, w') →
  persisted sm w ["training_opts"] = None ∧
  ∃ o' t,
    heap w' !! train_opts sm = Some (ODict o') ∧ NoDup (dkeys o') ∧
    (∀ k, k ∈ dkeys o' → is_ascii k = true) ∧
    persisted sm w' ["training_opts"] = Some (table_entry t (Some (dkeys o'))) ∧
    match t with
    | Table1 vals =>
        length vals = length (dkeys o') ∧
        ∀ i k v, o' !! i = Some (k, v) → ∃ x, to_float v = ok x ∧ vals !! i = Some x
    | Table2 a =>
        ∃ n, shape a = (length (dkeys o'), n) ∧
          ∀ i k v, o' !! i = Some (k, v) →
            ∃ l row, v = VList l ∧ length l = n ∧ data a !! i = Some row ∧
              ∀ j s, l !! j = Some s →
                ∃ x, parse_float s = Some x ∧ row !! j = Some x
    end ∧
    (∀ l, l ≠ train_opts sm → heap w' !! l = heap w !! l) ∧
    (∀ p e, persisted sm w p = Some e → persisted sm w' p = Some e).
Proof.
  intros Hl Hnd Hrun.
  destruct (saveTrainOptions_ok_inv _ _ _ _ Hl Hnd Hrun)
    as (t & f & Ht & Hascii & Hf & Hp & ->).
  assert (train_opts sm < length (heap w)) as Hlt by (eapply lookup_lt_Some, Hl).
  split. { unfold persisted. rewrite Hf. exact Hp. }
  exists (final_opts o), t.
  split; [|split; [|split; [|split; [|split; [|split]]]]].
  - cbn [heap with_files]. apply heap_set_dict, Hlt.
  - apply NoDup_final_opts, Hnd.
  - exact Hascii.
  - unfold persisted. cbn [files with_files]. rewrite dget_dset_eq. simpl.
    apply dget_dset_eq.
  - apply np_array_float_ok in Ht. destruct t as [vals|a].
    + split.
      * rewrite (mapR_length _ _ _ Ht). unfold dvalues, dkeys. rewrite !length_map.
        reflexivity.
      * intros i k v Hi. apply (mapR_lookup _ _ _ i v Ht). eapply dvalues_lookup, Hi.
    + destruct Ht as (n & Hshape & Hrows & Hall). exists n. split.
      { rewrite Hshape. unfold dvalues, dkeys. rewrite !length_map. reflexivity. }
      intros i k v Hi. pose proof (dvalues_lookup _ _ _ _ Hi) as Hv.
      destruct (mapR_lookup _ _ _ i v Hrows Hv) as (row & Hrow & Hdata).
      assert (∃ l, v = VList l ∧ length l = n) as (l & -> & Hlen).
      { eapply Forall_forall in Hall; [exact Hall|]. apply list_elem_of_lookup. eauto. }
      exists l, row. split; [reflexivity|]. split; [exact Hlen|]. split; [exact Hdata|].
      intros j s Hj. simpl in Hrow.
      destruct (mapR_lookup _ _ _ j s Hrow Hj) as (x & Hx & Hxj).
      exists x. split; [|exact Hxj]. destruct (parse_float s); [|discriminate].
      injection Hx as <-. reflexivity.
  - intros l Hne. cbn [heap with_files]. simpl. apply list_lookup_insert_ne. congruence.
  - intros p e. unfold persisted. cbn [files with_files]. rewrite dget_dset_eq, Hf. simpl.
    intros He. rewrite dget_dset_ne; [exact He|]. intros <-. congruence.
Qed.

(** X11.  [saveTrainOptions] can complete once for a file: a second call
    after a completed one fails with the error of h5py for a name that
    exists, and changes nothing, neither the files nor the dictionary. *)
Theorem saveTrainOptions_once sm w w' o :
  heap w !! train_opts sm = Some (ODict o) → NoDup (dkeys o) →
  saveTrainOptions sm w = (ok tt, w') →
  saveTrainOptions sm w' = (raise ValueError, w').
Proof.
  intros Hl Hnd Hrun.
  destruct (saveTrainOptions_ok_inv _ _ _ _ Hl Hnd Hrun)
    as (t & f & Ht & _ & Hf & Hp & ->).
  assert (train_opts sm < length (heap w)) as Hlt by (eapply lookup_lt_Some, Hl).
  set (o' := final_opts o) in *.
  set (w' := with_files _ _).
  assert (heap w' !! train_opts sm = Some (ODict o')) as Hl'
    by (cbn [heap with_files]; apply heap_set_dict, Hlt).
  assert (NoDup (dkeys o')) as Hnd' by apply NoDup_final_opts, Hnd.
  assert (final_opts o' = o') as Hfix.
  { apply final_opts_flat.
    - intros [k v] Hin. simpl.
      apply list_elem_of_lookup in Hin as [i Hi].
      pose proof (np_array_float_no_dict _ _ Ht) as Hflat.
      eapply Forall_forall in Hflat; [exact Hflat|].
      apply list_elem_of_lookup. exists i. eapply dvalues_lookup, Hi.
    - unfold o'. rewrite final_opts_lookup by exact Hnd.
      destruct (decide ("convergence_mode" = "schedule")); [reflexivity|].
      rewrite decide_True by reflexivity. reflexivity.
    - unfold o'. rewrite final_opts_lookup by exact Hnd.
      rewrite decide_True by reflexivity. reflexivity. }
  rewrite (saveTrainOptions_run sm w' o' Hl' Hnd'). cbv zeta.
  rewrite Hfix, Ht, (set_dict_id _ _ _ Hl'). cbv beta iota delta [ok].
  unfold bind at 1.
  erewrite h5_create_exists; [reflexivity| |].
  - unfold w'. cbn [files with_files]. apply dget_dset_eq.
  - rewrite dget_dset_eq. eauto.
Qed.

(** X12.  Options without nesting: when every key is ASCII, every value is
    a number and neither 'schedule' nor 'convergence_mode' is a key,
    [saveTrainOptions] on an open file without the name training_opts
    completes, leaves the dictionary and the rest of the heap as they
    are, and writes the values in the order of the dictionary, with its
    keys as the names. *)
Theorem saveTrainOptions_flat sm w o (f : h5file F) :
  heap w !! train_opts sm = Some (ODict o) → NoDup (dkeys o) →
  (∀ k, k ∈ dkeys o → is_ascii k = true) →
  (∀ k v, (k, v) ∈ o → ∃ x, v = VNum x) →
  ("schedule" ∉ dkeys o) → ("convergence_mode" ∉ dkeys o) →
  dget (hdf5 sm) (files w) = Some f → dget ["training_opts"] f = None →
  ∃ vals,
    Forall2 (λ kv x, kv.2 = VNum x) o vals ∧
    saveTrainOptions sm w
    = (ok tt,
       with_files
         (dset (hdf5 sm) (dset ["training_opts"] (H5Vector vals (Some (dkeys o))) f)
            (files w)) w).
Proof.
  intros Hl Hnd Hascii Hnum Hs Hc Hf Hp.
  assert (train_opts sm < length (heap w)) as Hlt by (eapply lookup_lt_Some, Hl).
  assert (final_opts o = o) as Hfix.
  { apply final_opts_flat.
    - intros [k v] Hin. destruct (Hnum k v Hin) as [x ->]. reflexivity.
    - apply dget_None_keys, Hs.
    - apply dget_None_keys, Hc. }
  assert (∃ vals, Forall2 (λ kv x, kv.2 = VNum x) o vals ∧
                  mapR to_float (dvalues o) = ok vals) as (vals & Hvals & Ht).
  { clear -Hnum. induction o as [|[k v] o IH].
    - exists []. split; [constructor|reflexivity].
    - destruct (Hnum k v) as [x ->]; [apply list_elem_of_here|].
      destruct IH as (vals & Hvals & Ht).
      { intros k' v' Hin. apply (Hnum k' v'), list_elem_of_further, Hin. }
      exists (x :: vals). split; [constructor; [reflexivity|exact Hvals]|].
      simpl. rewrite Ht. reflexivity. }
  assert (np_array_float (dvalues o) = ok (Table1 vals)) as Harray.
  { destruct (np_array_float_scalars (dvalues o)) as (xs & Hxs & Harr).
    - eapply mapR_ok_Forall, Ht.
    - rewrite Ht in Hxs. injection Hxs as <-. exact Harr. }
  exists vals. split; [exact Hvals|].
  rewrite (saveTrainOptions_run sm w o Hl Hnd). cbv zeta.
  rewrite Hfix, Harray, (set_dict_id _ _ _ Hl). cbv beta iota delta [ok].
  cbn [table_entry].
  unfold bind at 1. rewrite (h5_create_at _ _ _ f) by assumption.
  cbv beta iota delta [ok]. unfold bind at 1, read_dict at 1. cbn [heap with_files].
  rewrite Hl. cbv beta iota delta [ok].
  rewrite (h5_set_names_table _ (Table1 vals) _ (dset ["training_opts"] (H5Vector vals None) f)).
  - cbn [files with_files table_entry]. rewrite !dset_dset_eq. reflexivity.
  - apply astype_S_ascii, Hascii.
  - cbn [files with_files]. apply dget_dset_eq.
  - apply dget_dset_eq.
Qed.

End train_table.

Lemma saveTrainOptions_error_files_witness :
  let w := ex_world1 ex_opts_accent in
  let w' := (saveTrainOptions ex_sm w).2 in
  files w' = files w ∨
  (UnicodeEncodeError = UnicodeEncodeError ∧
   ∃ o' t f,
     heap w' !! train_opts ex_sm = Some (ODict o') ∧
     (∃ k, k ∈ dkeys o' ∧ is_ascii k = false) ∧
     np_array_float (dvalues o') = ok t ∧
     dget (hdf5 ex_sm) (files w) = Some f ∧ dget ["training_opts"] f = None ∧
     files w'
     = dset (hdf5 ex_sm) (dset ["training_opts"] (table_entry t None) f) (files w)).
Proof.
  intros w w'.
  apply (saveTrainOptions_error_files ex_sm w UnicodeEncodeError w').
  reflexivity.
Defined.

Lemma saveTrainOptions_names_and_values_witness :
  let w := ex_world1 ex_opts_lists in
  let w' := (saveTrainOptions ex_sm w).2 in
  persisted ex_sm w ["training_opts"] = None ∧
  ∃ o' t,
    heap w' !! train_opts ex_sm = Some (ODict o') ∧ NoDup (dkeys o') ∧
    (∀ k, k ∈ dkeys o' → is_ascii k = true) ∧
    persisted ex_sm w' ["training_opts"] = Some (table_entry t (Some (dkeys o'))) ∧
    match t with
    | Table1 vals =>
        length vals = length (dkeys o') ∧
        ∀ i k v, o' !! i = Some (k, v) → ∃ x, to_float v = ok x ∧ vals !! i = Some x
    | Table2 a =>
        ∃ n, shape a = (length (dkeys o'), n) ∧
          ∀ i k v, o' !! i = Some (k, v) →
            ∃ l row, v = VList l ∧ length l = n ∧ data a !! i = Some row ∧
              ∀ j s, l !! j = Some s →
                ∃ x, parse_float s = Some x ∧ row !! j = Some x
    end ∧
    (∀ l, l ≠ train_opts ex_sm → heap w' !! l = heap w !! l) ∧
    (∀ p e, persisted ex_sm w p = Some e → persisted ex_sm w' p = Some e).
Proof.
  intros w w'.
  apply (saveTrainOptions_names_and_values ex_sm w w' ex_opts_lists).
  - reflexivity.
  - apply (bool_decide_unpack _). vm_compute. exact I.
  - reflexivity.
Defined.

Lemma saveTrainOptions_once_witness :
  let w' := (saveTrainOptions ex_sm (ex_world1 ex_train_opts)).2 in
  saveTrainOptions ex_sm w' = (raise ValueError, w').
Proof.
  intros w'.
  apply (saveTrainOptions_once ex_sm (ex_world1 ex_train_opts) w' ex_train_opts).
  - reflexivity.
  - apply (bool_decide_unpack _). vm_compute. exact I.
  - reflexivity.
Defined.

Lemma saveTrainOptions_flat_witness :
  ∃ vals,
    Forall2 (λ kv x, kv.2 = VNum x) ex_opts_flat vals ∧
    saveTrainOptions ex_sm (ex_world1 ex_opts_flat)
    = (ok tt,
       with_files
         (dset "out.hdf5"
            (dset ["training_opts"] (H5Vector vals (Some (dkeys ex_opts_flat))) [])
            (files (ex_world1 ex_opts_flat)))
         (ex_world1 ex_opts_flat)).
Proof.
  apply (saveTrainOptions_flat ex_sm (ex_world1 ex_opts_flat) ex_opts_flat []).
  - reflexivity.
  - apply (bool_decide_unpack _). vm_compute. exact I.
  - intros k Hin. vm_compute in Hin. elem_cases Hin; subst k; reflexivity.
  - intros k v Hin. elem_cases Hin; injection Hin as -> ->; eauto.
  - intros Hin. vm_compute in Hin. elem_cases Hin; discriminate Hin.
  - intros Hin. vm_compute in Hin. elem_cases Hin; discriminate Hin.
  - reflexivity.
  - reflexivity.
Defined.

(* the 2-D table of two lists of one length *)
Example ex_table_of_lists :
  saveTrainOptions ex_sm (ex_world1 ex_opts_lists)
  = (ok tt,
     with_files
       [("out.hdf5",
         [(["training_opts"],
           H5Table (NdArray (2, 2) [[Fin 1; Fin 2]; [Fin 3; Fin 4]])
             (Some ["drop_factor"; "start"]))])]
       (ex_world1 ex_opts_lists)).
Proof. reflexivity. Qed.

(* a list beside a number has no common shape *)
Example ex_table_ragged :
  (saveTrainOptions ex_sm (ex_world1 [("maxiter", VNum (Fin 100)); ("start", VList ["1"; "2"])])).1
  = raise ValueError.
Proof. reflexivity. Qed.

(** ** The training statistics *)

Section training_stats_results.
Context {F : Type} `{FloatOps F}.
Implicit Types (w : World F) (sm : saveModel F) (f : h5file F) (stats : dict (list F)).

(* the run on an open file that has nothing of the name training_stats *)
Lemma saveTrainingStats_run sm stats w f :
  dget (hdf5 sm) (files w) = Some f →
  dget ["training_stats"] f = None →
  (∀ x, dget ["training_stats"; x] f = None) →
  saveTrainingStats sm stats w
  = let f1 := dset ["training_stats"] H5Group f in
    match dget "number_factors" stats with
    | None => (raise (KeyError "number_factors"), with_files (dset (hdf5 sm) f1 (files w)) w)
    | Some nf =>
        let f2 := dset ["training_stats"; "number_factors"] (H5Vector nf None) f1 in
        match dget "time" stats with
        | None => (raise (KeyError "time"), with_files (dset (hdf5 sm) f2 (files w)) w)
        | Some t =>
            let f3 := dset ["training_stats"; "time"] (H5Vector t None) f2 in
            match dget "elbo" stats with
            | None => (raise (KeyError "elbo"), with_files (dset (hdf5 sm) f3 (files w)) w)
            | Some e =>
                (ok tt,
                 with_files
                   (dset (hdf5 sm)
                      (dset ["training_stats"; "elbo"] (H5Vector e None) f3) (files w)) w)
            end
        end
    end.
Proof.
  intros Hf Hfree Hunder. unfold saveTrainingStats. cbv zeta.
  unfold bind at 1. rewrite (h5_create_at _ _ _ f) by assumption.
  cbv beta iota delta [ok]. unfold bind at 1, lift at 1, dsub at 1.
  destruct (dget "number_factors" stats) as [nf|]; [|reflexivity].
  cbn [of_option]. cbv beta iota delta [ok]. unfold bind at 1.
  erewrite h5_create_at.
  2:{ cbn [files with_files]. apply dget_dset_eq. }
  2:{ rewrite dget_dset_ne by discriminate. apply Hunder. }
  cbv beta iota delta [ok]. unfold bind at 1, lift at 1, dsub at 1.
  cbn [files with_files]. rewrite dset_dset_eq.
  destruct (dget "time" stats) as [t|]; [|reflexivity].
  cbn [of_option]. cbv beta iota delta [ok]. unfold bind at 1.
  erewrite h5_create_at.
  2:{ cbn [files with_files]. apply dget_dset_eq. }
  2:{ rewrite !dget_dset_ne by discriminate. apply Hunder. }
  cbv beta iota delta [ok]. unfold bind at 1, lift at 1, dsub at 1.
  cbn [files with_files]. rewrite dset_dset_eq.
  destruct (dget "elbo" stats) as [e|]; [|reflexivity].
  cbn [of_option]. cbv beta iota delta [ok].
  erewrite h5_create_at.
  2:{ cbn [files with_files]. apply dget_dset_eq. }
  2:{ rewrite !dget_dset_ne by discriminate. apply Hunder. }
  cbn [files with_files]. rewrite dset_dset_eq. reflexivity.
Qed.

(** X13.  On an open file that has nothing of the name training_stats,
    [saveTrainingStats] completes exactly when the statistics hold the
    three series number_factors, time and elbo; the file then has the
    group training_stats and, under it, the three series as they are, in
    that order, after what it had; the heap is untouched. *)
Theorem saveTrainingStats_completes sm stats w w' f :
  dget (hdf5 sm) (files w) = Some f →
  dget ["training_stats"] f = None →
  (∀ x, dget ["training_stats"; x] f = None) →
  saveTrainingStats sm stats w = (ok tt, w')
  ↔ ∃ nf t e,
      dget "number_factors" stats = Some nf ∧ dget "time" stats = Some t ∧
      dget "elbo" stats = Some e ∧
      w' = with_files
             (dset (hdf5 sm)
                (f ++ [(["training_stats"], H5Group);
                       (["training_stats"; "number_factors"], H5Vector nf None);
                       (["training_stats"; "time"], H5Vector t None);
                       (["training_stats"; "elbo"], H5Vector e None)])
                (files w)) w.
Proof.
  intros Hf Hfree Hunder. rewrite (saveTrainingStats_run sm stats w f Hf Hfree Hunder).
  cbv zeta.
  assert (∀ nf t e,
    dset ["training_stats"; "elbo"] (H5Vector e None)
      (dset ["training_stats"; "time"] (H5Vector t None)
         (dset ["training_stats"; "number_factors"] (H5Vector nf None)
            (dset ["training_stats"] H5Group f)))
    = f ++ [(["training_stats"], H5Group);
            (["training_stats"; "number_factors"], H5Vector nf None);
            (["training_stats"; "time"], H5Vector t None);
            (["training_stats"; "elbo"], H5Vector e None)]) as Happ.
  { intros nf t e.
    rewrite (dset_absent f ["training_stats"]) by exact Hfree.
    rewrite (dset_absent _ ["training_stats"; "number_factors"]).
    2:{ rewrite <- (dset_absent f ["training_stats"] H5Group) by exact Hfree.
        rewrite dget_dset_ne by discriminate. apply Hunder. }
    rewrite <- app_assoc. simpl.
    rewrite (dset_absent _ ["training_stats"; "time"]).
    2:{ change (f ++ [(["training_stats"], H5Group);
                      (["training_stats"; "number_factors"], H5Vector nf None)])
          with (f ++ [(["training_stats"], H5Group)]
                  ++ [(["training_stats"; "number_factors"], H5Vector nf None)]).
        rewrite app_assoc.
        rewrite <- (dset_absent f ["training_stats"] H5Group) by exact Hfree.
        rewrite <- (dset_absent _ ["training_stats"; "number_factors"] (H5Vector nf None)).
        - rewrite !dget_dset_ne by discriminate. apply Hunder.
        - rewrite dget_dset_ne by discriminate. apply Hunder. }
    rewrite <- app_assoc. simpl.
    rewrite (dset_absent _ ["training_stats"; "elbo"]).
    2:{ change (f ++ [(["training_stats"], H5Group);
                      (["training_stats"; "number_factors"], H5Vector nf None);
                      (["training_stats"; "time"], H5Vector t None)])
          with (f ++ [(["training_stats"], H5Group)]
                  ++ [(["training_stats"; "number_factors"], H5Vector nf None)]
                  ++ [(["training_stats"; "time"], H5Vector t None)]).
        rewrite !app_assoc.
        rewrite <- (dset_absent f ["training_stats"] H5Group) by exact Hfree.
        rewrite <- (dset_absent _ ["training_stats"; "number_factors"] (H5Vector nf None)).
        2:{ rewrite dget_dset_ne by discriminate. apply Hunder. }
        rewrite <- (dset_absent _ ["training_stats"; "time"] (H5Vector t None)).
        - rewrite !dget_dset_ne by discriminate. apply Hunder.
        - rewrite !dget_dset_ne by discriminate. apply Hunder. }
    rewrite <- app_assoc. reflexivity. }
  split.
  - destruct (dget "number_factors" stats) as [nf|]; [|discriminate].
    destruct (dget "time" stats) as [t|]; [|discriminate].
    destruct (dget "elbo" stats) as [e|]; [|discriminate].
    intros [= <-]. exists nf, t, e. rewrite Happ. repeat split.
  - intros (nf & t & e & -> & -> & -> & ->). rewrite Happ. reflexivity.
Qed.

Lemma dget_app_absent {K V} `{EqDecision K} (d d' : assoc K V) k :
  dget k d = None → dget k (d ++ d') = dget k d'.
Proof.
  induction d as [|[k0 v0] d IH]; simpl; [reflexivity|].
  destruct (decide (k0 = k)); [discriminate|]. exact IH.
Qed.

(* the file after the group and the first series have been created *)
Lemma stats_file_group f :
  dget ["training_stats"] f = None →
  dset ["training_stats"] H5Group f = f ++ [(["training_stats"], H5Group)].
Proof. intros Hfree. apply dset_absent, Hfree. Qed.

Lemma stats_file_number_factors f (nf : list F) :
  dget ["training_stats"] f = None →
  (∀ x, dget ["training_stats"; x] f = None) →
  dset ["training_stats"; "number_factors"] (H5Vector nf None)
    (dset ["training_stats"] H5Group f)
  = f ++ [(["training_stats"], H5Group);
          (["training_stats"; "number_factors"], H5Vector nf None)].
Proof.
  intros Hfree Hunder. rewrite stats_file_group by exact Hfree.
  rewrite dset_absent.
  - rewrite <- app_assoc. reflexivity.
  - rewrite dget_app_absent by apply Hunder. reflexivity.
Qed.

Lemma stats_file_time f (nf t : list F) :
  dget ["training_stats"] f = None →
  (∀ x, dget ["training_stats"; x] f = None) →
  dset ["training_stats"; "time"] (H5Vector t None)
    (dset ["training_stats"; "number_factors"] (H5Vector nf None)
       (dset ["training_stats"] H5Group f))
  = f ++ [(["training_stats"], H5Group);
          (["training_stats"; "number_factors"], H5Vector nf None);
          (["training_stats"; "time"], H5Vector t None)].
Proof.
  intros Hfree Hunder. rewrite stats_file_number_factors by assumption.
  rewrite dset_absent.
  - rewrite <- app_assoc. reflexivity.
  - rewrite dget_app_absent by apply Hunder. reflexivity.
Qed.

(** X14.  On an open file that has nothing of the name training_stats,
    the only failure of [saveTrainingStats] is a missing series: the error
    is the KeyError of the first of number_factors, time and elbo that the
    statistics lack, and the file has by then got the group training_stats
    and, under it, the series that come before the missing one, and no
    more.  So a second attempt on the same file, with whatever statistics,
    fails with the error of h5py for a name that exists and changes
    nothing. *)
Theorem saveTrainingStats_missing_series sm stats w f err w' :
  dget (hdf5 sm) (files w) = Some f →
  dget ["training_stats"] f = None →
  (∀ x, dget ["training_stats"; x] f = None) →
  saveTrainingStats sm stats w = (raise err, w') →
  ((dget "number_factors" stats = None ∧ err = KeyError "number_factors" ∧
    w' = with_files (dset (hdf5 sm) (f ++ [(["training_stats"], H5Group)]) (files w)) w)
   ∨ (∃ nf, dget "number_factors" stats = Some nf ∧ dget "time" stats = None ∧
            err = KeyError "time" ∧
            w' = with_files
                   (dset (hdf5 sm)
                      (f ++ [(["training_stats"], H5Group);
                             (["training_stats"; "number_factors"], H5Vector nf None)])
                      (files w)) w)
   ∨ (∃ nf t, dget "number_factors" stats = Some nf ∧ dget "time" stats = Some t ∧
              dget "elbo" stats = None ∧ err = KeyError "elbo" ∧
              w' = with_files
                     (dset (hdf5 sm)
                        (f ++ [(["training_stats"], H5Group);
                               (["training_stats"; "number_factors"], H5Vector nf None);
                               (["training_stats"; "time"], H5Vector t None)])
                        (files w)) w)) ∧
  persisted sm w' ["training_stats"] = Some H5Group ∧
  heap w' = heap w ∧
  ∀ stats', saveTrainingStats sm stats' w' = (raise ValueError, w').
Proof.
  intros Hf Hfree Hunder. rewrite (saveTrainingStats_run sm stats w f Hf Hfree Hunder).
  cbv zeta. intros Hrun.
  assert (∀ tail, persisted sm
            (with_files (dset (hdf5 sm) (f ++ (["training_stats"], H5Group) :: tail)
                           (files w)) w) ["training_stats"] = Some H5Group) as Hgr.
  { intros tail. unfold persisted. cbn [files with_files]. rewrite dget_dset_eq. simpl.
    rewrite dget_app_absent by exact Hfree. reflexivity. }
  assert (∀ stats' w1, persisted sm w1 ["training_stats"] = Some H5Group →
            saveTrainingStats sm stats' w1 = (raise ValueError, w1)) as Hretry.
  { intros stats' w1 Hgroup. unfold saveTrainingStats, bind. unfold persisted in Hgroup.
    destruct (dget (hdf5 sm) (files w1)) as [f'|] eqn:Hf'; [|discriminate].
    simpl in Hgroup. erewrite h5_create_exists; [reflexivity|exact Hf'|].
    rewrite Hgroup. eauto. }
  destruct (dget "number_factors" stats) as [nf|] eqn:H1.
  2:{ injection Hrun as <- <-. rewrite stats_file_group by exact Hfree.
      split; [left; repeat split|]. split; [apply Hgr|]. split; [reflexivity|].
      intros stats'. apply Hretry, Hgr. }
  destruct (dget "time" stats) as [t|] eqn:H2.
  2:{ injection Hrun as <- <-. rewrite stats_file_number_factors by assumption.
      split; [right; left; exists nf; repeat split|]. split; [apply Hgr|].
      split; [reflexivity|]. intros stats'. apply Hretry, Hgr. }
  destruct (dget "elbo" stats) as [e|] eqn:H3; [discriminate|].
  injection Hrun as <- <-. rewrite stats_file_time by assumption.
  split; [right; right; exists nf, t; repeat split|]. split; [apply Hgr|].
  split; [reflexivity|]. intros stats'. apply Hretry, Hgr.
Qed.

End training_stats_results.

Lemma saveTrainingStats_completes_witness :
  saveTrainingStats ex_sm ex_stats (ex_world1 ex_train_opts)
  = (ok tt,
     with_files
       (dset "out.hdf5"
          ([] ++ [(["training_stats"], H5Group);
                  (["training_stats"; "number_factors"], H5Vector [Fin 1; Fin 1] None);
                  (["training_stats"; "time"], H5Vector [Fin 3; Fin 2] None);
                  (["training_stats"; "elbo"], H5Vector [Fin (-40); Fin (-38)] None)])
          (files (ex_world1 ex_train_opts))) (ex_world1 ex_train_opts)).
Proof.
  apply (saveTrainingStats_completes ex_sm ex_stats (ex_world1 ex_train_opts) _ []).
  - reflexivity.
  - reflexivity.
  - intros x. reflexivity.
  - exists [Fin 1; Fin 1], [Fin 3; Fin 2], [Fin (-40); Fin (-38)].
    repeat split.
Defined.

Lemma saveTrainingStats_missing_series_witness :
  let w := ex_world1 ex_train_opts in
  let w' := (saveTrainingStats ex_sm ex_stats_no_time w).2 in
  ((dget "number_factors" ex_stats_no_time = None ∧
    KeyError "time" = KeyError "number_factors" ∧
    w' = with_files (dset (hdf5 ex_sm) ([] ++ [(["training_stats"], H5Group)]) (files w)) w)
   ∨ (∃ nf, dget "number_factors" ex_stats_no_time = Some nf ∧
            dget "time" ex_stats_no_time = None ∧
            KeyError "time" = KeyError "time" ∧
            w' = with_files
                   (dset (hdf5 ex_sm)
                      ([] ++ [(["training_stats"], H5Group);
                              (["training_stats"; "number_factors"], H5Vector nf None)])
                      (files w)) w)
   ∨ (∃ nf t, dget "number_factors" ex_stats_no_time = Some nf ∧
              dget "time" ex_stats_no_time = Some t ∧
              dget "elbo" ex_stats_no_time = None ∧ KeyError "time" = KeyError "elbo" ∧
              w' = with_files
                     (dset (hdf5 ex_sm)
                        ([] ++ [(["training_stats"], H5Group);
                                (["training_stats"; "number_factors"], H5Vector nf None);
                                (["training_stats"; "time"], H5Vector t None)])
                        (files w)) w)) ∧
  persisted ex_sm w' ["training_stats"] = Some H5Group ∧
  heap w' = heap w ∧
  ∀ stats', saveTrainingStats ex_sm stats' w' = (raise ValueError, w').
Proof.
  intros w w'.
  apply (saveTrainingStats_missing_series ex_sm ex_stats_no_time w []).
  - reflexivity.
  - reflexivity.
  - intros x. reflexivity.
  - reflexivity.
Defined.

(** ** The counts of the observation node *)

Lemma zsum_zip_add (a b : list Z) :
  length a = length b → zsum (zip_with Z.add a b) = (zsum a + zsum b)%Z.
Proof.
  revert b. induction a as [|x a IH]; intros [|y b] Hl; try discriminate Hl; simpl.
  - reflexivity.
  - rewrite IH by (simpl in Hl; lia). lia.
Qed.

Lemma zsum_replicate_0 c : zsum (replicate c 0%Z) = 0%Z.
Proof. induction c as [|c IH]; simpl; [reflexivity|]. rewrite IH. reflexivity. Qed.

Lemma length_sum_rows (rows : list (list bool)) c :
  Forall (λ r, length r = c) rows →
  length (foldr (zip_with Z.add) (replicate c 0%Z) (map (map b2z) rows)) = c.
Proof.
  induction 1 as [|r rows Hr _ IH]; simpl.
  - apply length_replicate.
  - rewrite length_zip_with, IH, length_map, Hr. lia.
Qed.

(* adding the column counts gives what adding the row counts gives *)
Lemma zsum_sum_rows (rows : list (list bool)) c :
  Forall (λ r, length r = c) rows →
  zsum (foldr (zip_with Z.add) (replicate c 0%Z) (map (map b2z) rows))
  = zsum (map (λ r, zsum (map b2z r)) rows).
Proof.
  intros Hrows. induction Hrows as [|r rows Hr Hrows IH]; simpl.
  - apply zsum_replicate_0.
  - rewrite zsum_zip_add, IH; [reflexivity|].
    rewrite length_map, Hr. symmetry. apply length_sum_rows, Hrows.
Qed.

Lemma zsum_map_sub (K : Z) (l : list Z) :
  zsum (map (λ x, (K - x)%Z) l) = (K * Z.of_nat (length l) - zsum l)%Z.
Proof. induction l as [|x l IH]; simpl; [lia|]. rewrite IH. lia. Qed.

Lemma count_false (l : list bool) :
  Z.of_nat (length (filter (λ b, b = false) l))
  = (Z.of_nat (length l) - zsum (map b2z l))%Z.
Proof.
  induction l as [|b l IH]; [reflexivity|].
  rewrite filter_cons. destruct b; simpl.
  - destruct (decide (true = false)); [discriminate|]. rewrite IH. lia.
  - destruct (decide (false = false)); [|congruence]. simpl.
    rewrite Nat2Z.inj_succ, IH. lia.
Qed.

Lemma count_false_concat (rows : list (list bool)) c :
  Forall (λ r, length r = c) rows →
  Z.of_nat (length (filter (λ b, b = false) (concat rows)))
  = (Z.of_nat (length rows) * Z.of_nat c
     - zsum (map (λ r, zsum (map b2z r)) rows))%Z.
Proof.
  induction 1 as [|r rows Hr _ IH]; [reflexivity|].
  simpl. rewrite filter_app, length_app, Nat2Z.inj_add, IH, count_false, Hr. lia.
Qed.

Lemma map_lookup_seq {A} `{Inhabited A} (r : list A) :
  map (λ j, default inhabitant (r !! j)) (seq 0 (length r)) = r.
Proof.
  apply list_eq. intros i. change (map ?f ?l) with (f <$> l).
  rewrite list_lookup_fmap. destruct (r !! i) as [x|] eqn:Hi.
  - rewrite lookup_seq_lt by (eapply lookup_lt_Some, Hi). simpl. rewrite Hi. reflexivity.
  - rewrite lookup_seq_ge; [reflexivity|]. apply lookup_ge_None, Hi.
Qed.

(* the entries of a full array, row after row, are its data *)
Lemma entries_get {A} `{Inhabited A} (m : ndarray A) :
  wf m → entries (shape m).1 (shape m).2 (get m) = concat (data m).
Proof.
  intros [Hn Hd]. unfold entries, get. rewrite <- Hn.
  generalize dependent (shape m).2. intros d Hd. clear Hn.
  induction (data m) as [|r rows IH] using rev_ind; [reflexivity|].
  apply Forall_app in Hd as [Hrows Hr]. apply Forall_inv in Hr.
  rewrite length_app. simpl. rewrite Nat.add_1_r, seq_S, flat_map_app, concat_app.
  simpl. rewrite !app_nil_r. f_equal.
  - rewrite <- (IH Hrows). rewrite !flat_map_concat_map. f_equal.
    apply map_ext_in. intros i Hi. apply in_seq in Hi.
    rewrite lookup_app_l by lia. reflexivity.
  - rewrite lookup_app_r, Nat.sub_diag by lia. simpl. rewrite <- Hr. apply map_lookup_seq.
Qed.

(* the positions that a predicate and its negation select share the list *)
Lemma count_complement (p q : nat → bool) (l : list nat) :
  (∀ i, i ∈ l → q i = negb (p i)) →
  (Z.of_nat (length (filter (λ i, p i = true) l))
   + Z.of_nat (length (filter (λ i, q i = true) l)) = Z.of_nat (length l))%Z.
Proof.
  induction l as [|i l IH]; intros Hpq; [reflexivity|].
  rewrite !filter_cons. rewrite (Hpq i) by apply list_elem_of_here.
  assert (∀ i0, i0 ∈ l → q i0 = negb (p i0)) as Hl
    by (intros i0 Hi0; apply Hpq, list_elem_of_further, Hi0).
  specialize (IH Hl).
  destruct (p i); simpl.
  - destruct (decide (true = true)); [|congruence].
    destruct (decide (false = true)); [discriminate|]. simpl. lia.
  - destruct (decide (false = true)); [discriminate|].
    destruct (decide (true = true)); [|congruence]. simpl. lia.
Qed.

Section node_counts.
Context {F : Type} `{FloatOps F}.
Implicit Types (nd : Y_Node F) (a : ndarray F).

(** X15.  After [precompute] on a node whose mask is a full array of the
    shape [dim], the entries of [N] and the entries of [D] both add up to
    the number of observed entries, and [likconst] is
    -0.5 * (number of observed entries) * log(2 pi): it depends on the
    data only through that number. *)
Theorem precompute_observed_total nd nd' options gpu :
  wf (getMask nd) →
  shape (getMask nd) = dim nd →
  precompute options nd = ok (nd', gpu) →
  ∃ n d, N nd' = Some n ∧ D nd' = Some d ∧
    zsum n = observed_entries (getMask nd) ∧
    zsum d = observed_entries (getMask nd) ∧
    likconst nd'
    = Some (mul (mul (neg half) (of_int (observed_entries (getMask nd)))) log_2pi).
Proof.
  intros Hwf Hshape Hpre. unfold precompute in Hpre.
  destruct options as [opts|]; [|discriminate]. simpl in Hpre.
  unfold dsub in Hpre. destruct (dget "gpu_mode" opts); [|discriminate].
  simpl in Hpre. injection Hpre as <- <-. simpl.
  assert (observed_entries (getMask nd)
          = (Z.of_nat (dim nd).1 * Z.of_nat (dim nd).2
             - zsum (sum_axis1 (getMask nd)))%Z) as Hobs.
  { unfold observed_entries. rewrite entries_get by exact Hwf.
    destruct Hwf as [Hn Hd]. rewrite (count_false_concat _ _ Hd), Hn, Hshape.
    reflexivity. }
  assert (zsum (map (λ c, (Z.of_nat (dim nd).1 - c)%Z) (sum_axis0 (getMask nd)))
          = observed_entries (getMask nd)) as HN.
  { rewrite zsum_map_sub, Hobs. destruct Hwf as [Hn Hd]. unfold sum_axis0, sum_axis1.
    rewrite (length_sum_rows _ _ Hd), (zsum_sum_rows _ _ Hd), Hshape. reflexivity. }
  assert (zsum (map (λ c, (Z.of_nat (dim nd).2 - c)%Z) (sum_axis1 (getMask nd)))
          = observed_entries (getMask nd)) as HD.
  { rewrite zsum_map_sub, Hobs. destruct Hwf as [Hn Hd]. unfold sum_axis1.
    rewrite length_map, Hn, Hshape. lia. }
  eexists _, _. split; [reflexivity|]. split; [reflexivity|].
  split; [exact HN|]. split; [exact HD|]. rewrite HN. reflexivity.
Qed.

(** X16.  Construction followed by [precompute]: for a node made from a
    plain array, with the shape of the array as [dim], [N] has one entry
    per column, the number of finite entries of that column, and [D] one
    entry per row, the number of finite entries of that row. *)
Theorem precompute_counts_finite a options nd' gpu :
  precompute options (Y_Node_init (shape a) (Plain a)) = ok (nd', gpu) →
  ∃ n d, N nd' = Some n ∧ D nd' = Some d ∧
    length n = (shape a).2 ∧ length d = (shape a).1 ∧
    (∀ j, j < (shape a).2 → n !! j = Some (finite_in_col a j)) ∧
    (∀ i, i < (shape a).1 → d !! i = Some (finite_in_row a i)).
Proof.
  intros Hpre. unfold precompute in Hpre.
  destruct options as [opts|]; [|discriminate]. simpl in Hpre.
  unfold dsub in Hpre. destruct (dget "gpu_mode" opts); [|discriminate].
  simpl in Hpre. injection Hpre as <- <-. cbn [N D].
  set (m := getMask (Y_Node_init (shape a) (Plain a))).
  assert (wf m) as Hwf by apply wf_tabulate.
  assert (shape m = shape a) as Hshape.
  { unfold m, getMask. simpl. destruct (shape a); reflexivity. }
  assert (∀ i j, i < (shape a).1 → j < (shape a).2 →
                 get m i j = negb (isfinite (get a i j))) as Hget.
  { intros i j Hi Hj. unfold m, getMask. simpl. unfold amap.
    rewrite get_tabulate by assumption. reflexivity. }
  cbn [dim Y_Node_init with_mini_batch mask with_value].
  eexists _, _. split; [reflexivity|]. split; [reflexivity|].
  split; [|split; [|split]].
  - rewrite length_map. unfold sum_axis0. destruct Hwf as [_ Hd].
    rewrite (length_sum_rows _ _ Hd), Hshape. reflexivity.
  - rewrite length_map. unfold sum_axis1. destruct Hwf as [Hn _].
    rewrite length_map, Hn, Hshape. reflexivity.
  - intros j Hj. change (map ?f ?l) with (f <$> l). rewrite list_lookup_fmap.
    rewrite sum_axis0_lookup by (rewrite ?Hshape; assumption). simpl. f_equal.
    unfold missing_in_col, finite_in_col. rewrite Hshape.
    pose proof (count_complement (λ i, isfinite (get a i j)) (λ i, get m i j)
                  (seq 0 (shape a).1)) as Hc.
    rewrite length_seq in Hc. rewrite <- Hc; [lia|].
    intros i Hi. apply elem_of_seq in Hi. apply Hget; [lia|exact Hj].
  - intros i Hi. change (map ?f ?l) with (f <$> l). rewrite list_lookup_fmap.
    rewrite sum_axis1_lookup by (rewrite ?Hshape; assumption). simpl. f_equal.
    unfold missing_in_row, finite_in_row. rewrite Hshape.
    pose proof (count_complement (λ j, isfinite (get a i j)) (λ j, get m i j)
                  (seq 0 (shape a).2)) as Hc.
    rewrite length_seq in Hc. rewrite <- Hc; [lia|].
    intros j Hj. apply elem_of_seq in Hj. apply Hget; [exact Hi|lia].
Qed.

End node_counts.

Lemma precompute_observed_total_witness :
  ∃ n d, N ex_Y_pre = Some n ∧ D ex_Y_pre = Some d ∧
    zsum n = observed_entries (getMask ex_Y_node) ∧
    zsum d = observed_entries (getMask ex_Y_node) ∧
    likconst ex_Y_pre
    = Some (mul (mul (neg half) (of_int (observed_entries (getMask ex_Y_node)))) log_2pi).
Proof.
  apply (precompute_observed_total ex_Y_node ex_Y_pre ex_options false).
  - apply wf_tabulate.
  - reflexivity.
  - reflexivity.
Defined.

Lemma precompute_counts_finite_witness :
  ∃ n d, N ex_Y_pre = Some n ∧ D ex_Y_pre = Some d ∧
    length n = 2 ∧ length d = 3 ∧
    (∀ j, j < 2 → n !! j = Some (finite_in_col ex_Y_raw j)) ∧
    (∀ i, i < 3 → d !! i = Some (finite_in_row ex_Y_raw i)).
Proof.
  apply (precompute_counts_finite ex_Y_raw ex_options ex_Y_pre false).
  reflexivity.
Defined.

(** ** Mini-batches *)

Lemma take_rows_in_range {A} `{Inhabited A} (ix : list nat) (a : ndarray A) :
  (∀ i, i ∈ ix → i < (shape a).1) →
  take_rows ix a
  = ok (NdArray (length ix, (shape a).2)
          ((λ i, (λ j, get a i j) <$> seq 0 (shape a).2) <$> ix)).
Proof.
  intros Hall. unfold take_rows.
  assert (forallb (λ i, bool_decide (i < (shape a).1)) ix = true) as ->; [|reflexivity].
  apply forallb_forall. intros i Hi. apply bool_decide_eq_true, Hall, list_elem_of_In, Hi.
Qed.

Lemma take_rows_out_of_range {A} `{Inhabited A} (ix : list nat) (a : ndarray A) i :
  i ∈ ix → (shape a).1 ≤ i → take_rows ix a = raise IndexError.
Proof.
  intros Hi Hge. unfold take_rows.
  destruct (forallb (λ i, bool_decide (i < (shape a).1)) ix) eqn:Hall; [|reflexivity].
  rewrite forallb_forall in Hall. apply list_elem_of_In, Hall, bool_decide_eq_true in Hi. lia.
Qed.

Section mini_batches.
Context {F : Type} `{FloatOps F}.
Implicit Types (nd : Y_Node F) (a : ndarray F).

(** X17.  [define_mini_batch] on a node whose masked value has a mask of
    the shape of its data: an index that is no row of the data makes it
    fail with IndexError; with every index a row, the node gets a
    mini-batch with one row per index, in the order of the indices, row k
    holding the data and the mask of row ix[k], and [getMask] is from then
    on the mask of the mini-batch.  The value, [dim], [N], [D] and
    [likconst] stay as they were. *)
Theorem define_mini_batch_rows nd (m : MaskedArray F) (ix : list nat) :
  value nd = Masked m →
  shape (ma_mask m) = shape (ma_data m) →
  ((∃ i, i ∈ ix ∧ (shape (ma_data m)).1 ≤ i) →
   define_mini_batch ix nd = raise IndexError) ∧
  ((∀ i, i ∈ ix → i < (shape (ma_data m)).1) →
   ∃ nd' b,
     define_mini_batch ix nd = ok nd' ∧ get_mini_batch nd' = Masked b ∧
     value nd' = value nd ∧ dim nd' = dim nd ∧
     N nd' = N nd ∧ D nd' = D nd ∧ likconst nd' = likconst nd ∧
     getMask nd' = ma_mask b ∧
     shape (ma_mask b) = (length ix, (shape (ma_data m)).2) ∧
     shape (ma_data b) = (length ix, (shape (ma_data m)).2) ∧
     ∀ k i j, ix !! k = Some i → j < (shape (ma_data m)).2 →
       get (ma_mask b) k j = get (ma_mask m) i j ∧
       get (ma_data b) k j = get (ma_data m) i j).
Proof.
  intros Hv Hshape. unfold define_mini_batch, value_rows. rewrite Hv. split.
  - intros (i & Hi & Hge). rewrite (take_rows_out_of_range ix (ma_data m) i Hi Hge).
    reflexivity.
  - intros Hall.
    destruct (take_rows ix (ma_data m)) as [|r] eqn:Hr.
    { rewrite take_rows_in_range in Hr by exact Hall. discriminate. }
    destruct (take_rows ix (ma_mask m)) as [|k] eqn:Hk.
    { rewrite take_rows_in_range in Hk by (rewrite Hshape; exact Hall). discriminate. }
    cbn [rbind]. eexists _, _. split; [reflexivity|].
    cbn [get_mini_batch getMask with_mini_batch mini_batch value dim N D likconst
         getmask ma_mask ma_data].
    rewrite Hv. repeat (split; [reflexivity|]). cbn [ma_mask ma_data].
    split; [rewrite (take_rows_shape _ _ _ Hk), Hshape; reflexivity|].
    split; [rewrite (take_rows_shape _ _ _ Hr); reflexivity|].
    intros k0 i j Hk0 Hj. split.
    + eapply get_take_rows; [exact Hk|exact Hk0|rewrite Hshape; exact Hj].
    + eapply get_take_rows; [exact Hr|exact Hk0|exact Hj].
Qed.

End mini_batches.

Lemma define_mini_batch_rows_witness :
  let m := {| ma_data := ex_Y_raw; ma_mask := getMask ex_Y_node; fill_value := zero |} in
  ((∃ i, i ∈ [2; 0] ∧ (shape (ma_data m)).1 ≤ i) →
   define_mini_batch [2; 0] ex_Y_node = raise IndexError) ∧
  ((∀ i, i ∈ [2; 0] → i < (shape (ma_data m)).1) →
   ∃ nd' b,
     define_mini_batch [2; 0] ex_Y_node = ok nd' ∧ get_mini_batch nd' = Masked b ∧
     value nd' = value ex_Y_node ∧ dim nd' = dim ex_Y_node ∧
     N nd' = N ex_Y_node ∧ D nd' = D ex_Y_node ∧ likconst nd' = likconst ex_Y_node ∧
     getMask nd' = ma_mask b ∧
     shape (ma_mask b) = (length [2; 0], (shape (ma_data m)).2) ∧
     shape (ma_data b) = (length [2; 0], (shape (ma_data m)).2) ∧
     ∀ k i j, [2; 0] !! k = Some i → j < (shape (ma_data m)).2 →
       get (ma_mask b) k j = get (ma_mask m) i j ∧
       get (ma_data b) k j = get (ma_data m) i j).
Proof.
  intros m. apply (define_mini_batch_rows ex_Y_node m [2; 0]); reflexivity.
Defined.

Lemma filter_ext_elem {A} (P Q : A → Prop) `{∀ x, Decision (P x)} `{∀ x, Decision (Q x)}
    (l : list A) :
  (∀ x, x ∈ l → P x ↔ Q x) → filter P l = filter Q l.
Proof.
  induction l as [|a l IH]; intros Hpq; [reflexivity|].
  rewrite !filter_cons.
  rewrite IH by (intros x Hx; apply Hpq, list_elem_of_further, Hx).
  pose proof (Hpq a (list_elem_of_here _ _)) as Ha.
  destruct (decide (P a)), (decide (Q a)); tauto || reflexivity.
Qed.

Lemma wf_take_rows {A} `{Inhabited A} (ix : list nat) (a rows : ndarray A) :
  take_rows ix a = ok rows → wf rows.
Proof.
  unfold take_rows. destruct (forallb _ ix); [|discriminate]. intros [= <-].
  split; simpl.
  - apply length_fmap.
  - apply Forall_fmap, Forall_forall. intros i _. simpl.
    rewrite length_fmap. apply length_seq.
Qed.

(* a row that holds the entries of another row misses as many *)
Lemma missing_in_row_ext (m m' : ndarray bool) i i' :
  (shape m).2 = (shape m').2 →
  (∀ j, j < (shape m').2 → get m i j = get m' i' j) →
  missing_in_row m i = missing_in_row m' i'.
Proof.
  intros Hs Hget. unfold missing_in_row. rewrite Hs. do 2 f_equal.
  apply filter_ext_elem. intros j Hj. apply elem_of_seq in Hj.
  rewrite Hget by lia. reflexivity.
Qed.

Section mini_batch_counts.
Context {F : Type} `{FloatOps F}.
Implicit Types (nd : Y_Node F).

(** X18.  [precompute] after [define_mini_batch] counts on the mask of
    the mini-batch: [D] has one entry per row of the batch, the number
    [dim[1]] less the missing entries of the sample that the row holds,
    and [N] has one entry per column, the whole sample count [dim[0]]
    less the missing entries of that column within the batch, so the
    samples outside the batch count as observed. *)
Theorem precompute_on_mini_batch nd0 (m0 : MaskedArray F) (ix : list nat) nd
    options nd' gpu :
  value nd0 = Masked m0 →
  shape (ma_mask m0) = shape (ma_data m0) →
  define_mini_batch ix nd0 = ok nd →
  precompute options nd = ok (nd', gpu) →
  ∃ n d, N nd' = Some n ∧ D nd' = Some d ∧
    length n = (shape (ma_mask m0)).2 ∧ length d = length ix ∧
    (∀ k i, ix !! k = Some i →
       d !! k = Some (Z.of_nat (dim nd0).2 - missing_in_row (ma_mask m0) i)%Z) ∧
    (∀ j, j < (shape (ma_mask m0)).2 →
       n !! j = Some (Z.of_nat (dim nd0).1 - missing_in_col (getMask nd) j)%Z).
Proof.
  intros Hv Hshape Hbatch Hpre.
  unfold define_mini_batch, value_rows in Hbatch. rewrite Hv in Hbatch.
  destruct (take_rows ix (ma_data m0)) as [|r] eqn:Hr; [discriminate|].
  destruct (take_rows ix (ma_mask m0)) as [|k] eqn:Hk; [discriminate|].
  cbn [rbind] in Hbatch. injection Hbatch as <-.
  unfold precompute in Hpre.
  destruct options as [opts|]; [|discriminate]. simpl in Hpre.
  unfold dsub in Hpre. destruct (dget "gpu_mode" opts); [|discriminate].
  simpl in Hpre. injection Hpre as <- <-. cbn [N D].
  change (getMask (with_mini_batch _ nd0)) with k.
  pose proof (wf_take_rows _ _ _ Hk) as Hwf.
  pose proof (take_rows_shape _ _ _ Hk) as Hsk.
  eexists _, _. split; [reflexivity|]. split; [reflexivity|].
  split; [|split; [|split]].
  - rewrite length_map. unfold sum_axis0. destruct Hwf as [_ Hd].
    rewrite (length_sum_rows _ _ Hd), Hsk. reflexivity.
  - rewrite length_map. unfold sum_axis1. destruct Hwf as [Hn _].
    rewrite length_map, Hn, Hsk. reflexivity.
  - intros k0 i Hk0. change (map ?f ?l) with (f <$> l). rewrite list_lookup_fmap.
    rewrite sum_axis1_lookup; [|exact Hwf|rewrite Hsk; simpl; eapply lookup_lt_Some, Hk0].
    simpl. do 2 f_equal. apply missing_in_row_ext.
    + rewrite Hsk. reflexivity.
    + intros j Hj. eapply get_take_rows; eassumption.
  - intros j Hj. change (map ?f ?l) with (f <$> l). rewrite list_lookup_fmap.
    rewrite sum_axis0_lookup; [reflexivity|exact Hwf|rewrite Hsk; exact Hj].
Qed.

End mini_batch_counts.

Lemma precompute_on_mini_batch_witness :
  let nd := match define_mini_batch [0] ex_Y_node with
            | inr x => x
            | inl _ => ex_Y_node
            end in
  let nd' := match precompute ex_options nd with
             | inr p => p.1
             | inl _ => nd
             end in
  ∃ n d, N nd' = Some n ∧ D nd' = Some d ∧
    length n = 2 ∧ length d = 1 ∧
    (∀ k i, [0] !! k = Some i →
       d !! k = Some (2 - missing_in_row (getMask ex_Y_node) i)%Z) ∧
    (∀ j, j < 2 → n !! j = Some (3 - missing_in_col (getMask nd) j)%Z).
Proof.
  intros nd nd'.
  apply (precompute_on_mini_batch ex_Y_node
           {| ma_data := ex_Y_raw; ma_mask := getMask ex_Y_node; fill_value := zero |}
           [0] nd ex_options nd' false); reflexivity.
Defined.

(** ** What [calculateELBO] needs, and what it ignores *)

Section elbo_requirements.
Context {F : Type} `{FloatOps F}.
Implicit Types (nd : Y_Node F) (a : ndarray F).

(* the steps of a call that returned a value *)
Lemma calculateELBO_ok_inv nd x :
  calculateELBO nd = ok x →
  ∃ Tau Wn Zn WE WE2 Z ZZ lnE0 lnE ZW t2 tmp lc TauE prod,
    dget "Tau" (markov_blanket nd) = Some Tau ∧
    dget "W" (markov_blanket nd) = Some Wn ∧
    dget "Z" (markov_blanket nd) = Some Zn ∧
    dget "E" Wn = Some WE ∧ dget "E2" Wn = Some WE2 ∧
    dget "E" Zn = Some Z ∧ dget "E2" Zn = Some ZZ ∧
    dget "lnE" Tau = Some lnE0 ∧
    setmask lnE0 (getmask (value nd)) zero = ok lnE ∧
    dot Z (transpose WE) = ok ZW ∧
    dot ZZ (transpose WE2) = ok t2 ∧
    likconst nd = Some lc ∧
    dget "E" Tau = Some TauE ∧
    zip2 mul TauE tmp = ok prod ∧
    x = sub (add lc (mul half (asum lnE))) (asum prod).
Proof.
  unfold calculateELBO, getExpectation, dsub. intros Hrun.
  repeat match type of Hrun with
         | rbind (of_option _ ?o) _ = _ =>
             let E := fresh "E" in
             destruct o eqn:E; cbn [rbind of_option ok raise] in Hrun;
             [|discriminate Hrun]
         | rbind ?c _ = _ =>
             let E := fresh "E" in
             destruct c eqn:E; cbn [rbind] in Hrun; [discriminate Hrun|]
         | _ => progress cbv zeta in Hrun
         end.
  injection Hrun as <-.
  repeat eexists; eassumption.
Qed.

(** X19.  The values that the Tau node holds for lnE at masked positions
    play no part in [calculateELBO]: two nodes with the same value and
    [likconst], the same W and Z neighbours and the same E of Tau, whose
    lnE arrays have one shape and agree at every unmasked position, get
    the same result, value or error. *)
Theorem calculateELBO_masked_lnE_irrelevant nd1 nd2
    (Tau1 Tau2 : Expectations F) (lnE1 lnE2 : ndarray F) :
  value nd1 = value nd2 →
  likconst nd1 = likconst nd2 →
  dget "W" (markov_blanket nd1) = dget "W" (markov_blanket nd2) →
  dget "Z" (markov_blanket nd1) = dget "Z" (markov_blanket nd2) →
  dget "Tau" (markov_blanket nd1) = Some Tau1 →
  dget "Tau" (markov_blanket nd2) = Some Tau2 →
  dget "E" Tau1 = dget "E" Tau2 →
  dget "lnE" Tau1 = Some lnE1 →
  dget "lnE" Tau2 = Some lnE2 →
  agree (getmask (value nd1)) lnE1 lnE2 →
  calculateELBO nd1 = calculateELBO nd2.
Proof.
  intros Hv Hlc HW HZ HT1 HT2 HE Hl1 Hl2 Hagree.
  unfold calculateELBO, getExpectation, dsub.
  rewrite <- Hv, <- Hlc, <- HW, <- HZ, HT1, HT2. cbn [rbind of_option ok raise].
  rewrite <- HE, Hl1, Hl2. cbn [rbind of_option ok raise].
  rewrite (setmask_agree _ lnE1 lnE2 zero Hagree). reflexivity.
Qed.

(** X20.  [calculateELBO] returns a value only after [precompute]: the
    node must have its [likconst], the Markov blanket must hold Tau with E
    and lnE, and W and Z with E and E2, and the number of factors must be
    the same in Z and W, and in their second moments. *)
Theorem calculateELBO_requirements nd x :
  calculateELBO nd = ok x →
  is_Some (likconst nd) ∧
  ∃ Tau Wn Zn WE WE2 Z ZZ,
    dget "Tau" (markov_blanket nd) = Some Tau ∧
    dget "W" (markov_blanket nd) = Some Wn ∧
    dget "Z" (markov_blanket nd) = Some Zn ∧
    is_Some (dget "E" Tau) ∧ is_Some (dget "lnE" Tau) ∧
    dget "E" Wn = Some WE ∧ dget "E2" Wn = Some WE2 ∧
    dget "E" Zn = Some Z ∧ dget "E2" Zn = Some ZZ ∧
    (shape Z).2 = (shape WE).2 ∧ (shape ZZ).2 = (shape WE2).2.
Proof.
  intros Hrun. apply calculateELBO_ok_inv in Hrun
    as (Tau & Wn & Zn & WE & WE2 & Z & ZZ & lnE0 & lnE & ZW & t2 & tmp & lc & TauE & prod
        & HT & HW & HZ & HWE & HWE2 & HZE & HZE2 & Hl & _ & Hd1 & Hd2 & Hlc & HTE & _ & _).
  split; [rewrite Hlc; eauto|].
  exists Tau, Wn, Zn, WE, WE2, Z, ZZ.
  repeat (split; [first [assumption | rewrite HTE; eauto | rewrite Hl; eauto]|]).
  unfold dot in Hd1, Hd2. split.
  - destruct (decide ((shape Z).2 = (shape (transpose WE)).1)) as [Hs|]; [|discriminate].
    exact Hs.
  - destruct (decide ((shape ZZ).2 = (shape (transpose WE2)).1)) as [Hs|]; [|discriminate].
    exact Hs.
Qed.

Lemma foldl_add_nan (l : list F) :
  (∀ y, add nan y = nan) → foldl add nan l = nan.
Proof.
  intros Hl. induction l as [|y l IH]; simpl; [reflexivity|]. rewrite Hl. exact IH.
Qed.

Lemma fsum_nan (l : list F) :
  (∀ y, add nan y = nan) → (∀ y, add y nan = nan) → nan ∈ l → fsum l = nan.
Proof.
  intros Hl Hr Hin. apply list_elem_of_split in Hin as (l1 & l2 & ->).
  unfold fsum. rewrite foldl_app. simpl. rewrite Hr. apply foldl_add_nan, Hl.
Qed.

Lemma entries_elem {A} n d (f : nat → nat → A) i j :
  i < n → j < d → f i j ∈ entries n d f.
Proof.
  intros Hi Hj. unfold entries. apply list_elem_of_In, in_flat_map.
  exists i. split; [apply in_seq; lia|]. apply in_map, in_seq. lia.
Qed.

(** X21.  The mask does not shield the precision: with IEEE arithmetic on
    NaN (a sum, a difference or a product with NaN is NaN), a NaN at any
    position of the E array of Tau, masked or not, makes every value that
    [calculateELBO] returns NaN; at a masked position the product of the
    NaN with the zero of [tmp] is NaN. *)
Theorem calculateELBO_nan_precision nd x (Tau : Expectations F) (TauE : ndarray F) i j :
  (∀ y, add nan y = nan) → (∀ y, add y nan = nan) →
  (∀ y, mul nan y = nan) → (∀ y, sub y nan = nan) →
  dget "Tau" (markov_blanket nd) = Some Tau →
  dget "E" Tau = Some TauE →
  i < (shape TauE).1 → j < (shape TauE).2 →
  get TauE i j = nan →
  calculateELBO nd = ok x →
  x = nan.
Proof.
  intros Hal Har Hml Hsr HT HE Hi Hj Hnan Hrun.
  apply calculateELBO_ok_inv in Hrun
    as (Tau' & Wn & Zn & WE & WE2 & Z & ZZ & lnE0 & lnE & ZW & t2 & tmp & lc & TauE' & prod
        & HT' & _ & _ & _ & _ & _ & _ & _ & _ & _ & _ & _ & HTE & Hprod & ->).
  replace Tau' with Tau in * by congruence.
  replace TauE' with TauE in * by congruence.
  unfold zip2 in Hprod. destruct (decide (shape TauE = shape tmp)); [|discriminate].
  injection Hprod as <-. rewrite asum_tabulate.
  rewrite (fsum_nan _ Hal Har); [apply Hsr|].
  rewrite <- (Hml (get tmp i j)), <- Hnan.
  apply (entries_elem _ _ (λ i j, mul (get TauE i j) (get tmp i j))); assumption.
Qed.

End elbo_requirements.

Lemma calculateELBO_masked_lnE_irrelevant_witness :
  let hide (v : num) : Y_Node num :=
    {| dim := (3, 2); value := value (ex_Y_ready nan); mini_batch := None;
       N := N (ex_Y_ready nan); D := D (ex_Y_ready nan);
       likconst := likconst (ex_Y_ready nan);
       markov_blanket :=
         [("Z", [("E", ex_Z_E); ("E2", ex_Z_E2)]);
          ("W", [("E", ex_W_E); ("E2", ex_W_E2)]);
          ("Tau", [("E", ex_Tau_E);
                   ("lnE", NdArray (3, 2) [[zero; v]; [zero; zero]; [Fin 1; Fin 1]])])] |} in
  calculateELBO (hide nan) = calculateELBO (hide (Fin 7)).
Proof.
  intros hide.
  apply (calculateELBO_masked_lnE_irrelevant (hide nan) (hide (Fin 7))
           [("E", ex_Tau_E);
            ("lnE", NdArray (3, 2) [[zero; nan]; [zero; zero]; [Fin 1; Fin 1]])]
           [("E", ex_Tau_E);
            ("lnE", NdArray (3, 2) [[zero; Fin 7]; [zero; zero]; [Fin 1; Fin 1]])]
           (NdArray (3, 2) [[zero; nan]; [zero; zero]; [Fin 1; Fin 1]])
           (NdArray (3, 2) [[zero; Fin 7]; [zero; zero]; [Fin 1; Fin 1]]));
    try reflexivity.
  split; [reflexivity|]. intros i j Hi Hj Hm.
  destruct i as [|[|[|i]]]; [| | |simpl in Hi; lia];
    (destruct j as [|[|j]]; [| |simpl in Hj; lia]); try reflexivity.
  discriminate Hm.
Defined.

Lemma calculateELBO_requirements_witness :
  is_Some (likconst (ex_Y_ready nan)) ∧
  ∃ Tau Wn Zn WE WE2 Z ZZ,
    dget "Tau" (markov_blanket (ex_Y_ready nan)) = Some Tau ∧
    dget "W" (markov_blanket (ex_Y_ready nan)) = Some Wn ∧
    dget "Z" (markov_blanket (ex_Y_ready nan)) = Some Zn ∧
    is_Some (dget "E" Tau) ∧ is_Some (dget "lnE" Tau) ∧
    dget "E" Wn = Some WE ∧ dget "E2" Wn = Some WE2 ∧
    dget "E" Zn = Some Z ∧ dget "E2" Zn = Some ZZ ∧
    (shape Z).2 = (shape WE).2 ∧ (shape ZZ).2 = (shape WE2).2.
Proof.
  apply (calculateELBO_requirements (ex_Y_ready nan) (Fin (-30637877 # 400000))).
  reflexivity.
Defined.

Lemma calculateELBO_nan_precision_witness :
  ∃ x, calculateELBO ex_Y_after_saving = ok x ∧ x = nan.
Proof.
  exists nan. split; [reflexivity|].
  apply (calculateELBO_nan_precision ex_Y_after_saving nan
           [("E", ex_Tau_saved); ("lnE", ex_Tau_lnE)] ex_Tau_saved 0 1).
  - intros y. reflexivity.
  - intros [|q]; reflexivity.
  - intros y. reflexivity.
  - intros [|q]; reflexivity.
  - reflexivity.
  - reflexivity.
  - simpl. lia.
  - simpl. lia.
  - reflexivity.
  - reflexivity.
Defined.

(** ** Observation nodes of [Y_nodes.py] under the serializer *)

Section Y_Node_children.
Context {F : Type} `{FloatOps F}.
Implicit Types (w : World F) (sm : saveModel F).

(* a completed run over the groups had an array as the mask of the view *)
Lemma save_view_groups_mask sm n m c w w' :
  save_view_groups sm n m c w = (ok tt, w') → groups_names sm ≠ [] →
  ∃ msk, sm_mask sm !! m = Some (MaskArray msk).
Proof.
  unfold save_view_groups. intros Hrun Hne. unfold bind at 1, lift at 1 in Hrun.
  destruct (views_names sm !! m) as [view|]; [|discriminate].
  cbn [of_option] in Hrun. cbv beta iota delta [ok] in Hrun. unfold bind at 1 in Hrun.
  destruct (h5_create _ _ _ w) as [[e|[]] w0]; [discriminate|].
  destruct (groups_names sm) as [|g gs]; [congruence|].
  simpl in Hrun. unfold bind at 1 in Hrun. unfold bind at 1, lift at 1 in Hrun.
  destruct (sm_mask sm !! m) as [[msk|]|]; try discriminate; eauto.
Qed.

(** X22.  A model whose "Y" node has an observation node of
    [Y_nodes.py] among its children can be given to the constructor, which
    then holds the bound method [mask] for that view; but with at least
    one sample no call of [saveExpectations] that exports "Y" completes on
    the serializer it returns. *)
Theorem saveExpectations_Y_Node_never_completes (mdl : Model) (outfile : string)
    (dat : list (ndarray F)) (sg : list string) (opts mopts : nat)
    (fn : list (list string)) (vn sn : list string) (level : nat) w0 w1 sm
    (ch : list Child) (m l : nat) (arg : NodesArg) (names : list string) w w' :
  saveModel_init mdl outfile dat sg opts mopts fn vn sn level w0 = (ok sm, w1) →
  dget "Y" (getNodes mdl) = Some (Multiview_Node ch) →
  ch !! m = Some (Y_Node_child l) →
  sg ≠ [] →
  select_nodes arg (getNodes mdl) = ok names →
  "Y" ∈ names →
  sm_mask sm !! m = Some BoundMethod ∧
  saveExpectations sm arg w ≠ (ok tt, w').
Proof.
  intros Hinit HY Hc Hsg Hsel Hin.
  assert (model sm = mdl ∧ groups_names sm = np_unique sg ∧
          sm_mask sm !! m = Some BoundMethod) as (Hmdl & Hgroups & Hmask).
  { revert Hinit. unfold saveModel_init, bind, assert, lift, ret, throw, h5py_File_w, dsub.
    destruct (trained mdl); [|discriminate]. cbv beta iota delta [ok].
    rewrite HY. cbn [of_option]. cbv beta iota delta [ok].
    destruct (mapR _ ch) as [|masks] eqn:Hm; [discriminate|].
    destruct (dat !! 0) as [d0|]; [|discriminate].
    cbn [of_option]. cbv beta iota delta [ok].
    destruct (bool_decide _); [|discriminate]. intros [= <- _]. simpl.
    split; [reflexivity|]. split; [reflexivity|].
    destruct (mapR_lookup _ _ _ m _ Hm Hc) as (y & Hy & Hmy).
    simpl in Hy. injection Hy as <-. exact Hmy. }
  split; [exact Hmask|]. intros Hrun.
  assert (("Y", Multiview_Node ch) ∈ restrict_nodes names (getNodes (model sm))) as Hexp.
  { apply restrict_nodes_elem. rewrite Hmdl. split; assumption. }
  rewrite <- Hmdl in Hsel.
  destruct (saveExpectations_node _ _ _ _ _ _ _ Hrun Hsel Hexp) as (w2 & w3 & _ & Hx & _).
  apply save_node_start in Hx as (w4 & _ & Hx).
  rewrite bool_decide_eq_true_2 in Hx by apply list_elem_of_here.
  assert ((m, Y_Node_child l) ∈ imap pair ch) as Hmc
    by (apply (elem_of_lookup_imap_2 pair), Hc).
  destruct (forM_elem _ _ _ _ _ Hx Hmc) as (l1 & l2 & w5 & w6 & _ & _ & Hview & _).
  simpl in Hview. apply save_view_groups_mask in Hview as [msk Hmsk].
  - congruence.
  - rewrite Hgroups. apply np_unique_nonempty, Hsg.
Qed.

End Y_Node_children.

Lemma saveExpectations_Y_Node_never_completes_witness :
  sm_mask ex_sm_Y_Node !! 0 = Some BoundMethod ∧
  saveExpectations ex_sm_Y_Node (ArgList ["Y"]) (ex_world1 ex_train_opts)
  ≠ (ok tt, ex_world1 ex_train_opts).
Proof.
  apply (saveExpectations_Y_Node_never_completes ex_model_Y_Node "out.hdf5" [ex_Y_raw]
           ex_groups 0 0 [["f0"; "f1"]] ["view0"] ["s0"; "s1"; "s2"] 9
           (ex_world0 ex_train_opts) (ex_world1 ex_train_opts) ex_sm_Y_Node
           [Y_Node_child 1] 0 1 (ArgList ["Y"]) ["Y"]).
  - reflexivity.
  - reflexivity.
  - reflexivity.
  - discriminate.
  - reflexivity.
  - apply list_elem_of_here.
Defined.

(** ** The missing values of the repository's observation nodes *)

Lemma mapR_lookup_inv {A B} (f : A → res B) (l : list A) (l' : list B) i y :
  mapR f l = ok l' → l' !! i = Some y → ∃ x, l !! i = Some x ∧ f x = ok y.
Proof.
  revert l' i. induction l as [|a l IH]; intros l' i Hm Hi; simpl in Hm.
  - injection Hm as <-. discriminate Hi.
  - destruct (f a) as [|b] eqn:Hfa; [discriminate|]. simpl in Hm.
    destruct (mapR f l) as [|bs] eqn:Hl; [discriminate|]. simpl in Hm.
    injection Hm as <-. destruct i as [|i]; simpl in *.
    + injection Hi as <-. eauto.
    + apply (IH bs i); [reflexivity|exact Hi].
Qed.

Section method_masks.
Context {F : Type} `{FloatOps F}.
Implicit Types (w : World F) (sm : saveModel F).

Lemma same_heap_preorder : PreOrder (@same_heap F).
Proof.
  split.
  - intros w. reflexivity.
  - intros w1 w2 w3 H12 H23. unfold same_heap in *. congruence.
Qed.

Lemma h5_create_same_heap file path e w r w' :
  h5_create file path e w = (r, w') → same_heap w w'.
Proof.
  intros Hc. unfold same_heap.
  replace w' with (h5_create file path e w).2 by (rewrite Hc; reflexivity).
  apply h5_create_heap.
Qed.

Lemma read_arr_same_heap l w r w' : read_arr l w = (r, w') → same_heap w w'.
Proof. intros Hr. apply read_arr_same in Hr as ->. reflexivity. Qed.

(* lines 112-120 with the bound method as the mask: the index of line 115
   is refused before anything is assigned *)
Lemma save_view_groups_method sm n m c w r w' :
  (∀ m a, sm_mask sm !! m = Some a → a = BoundMethod) →
  save_view_groups sm n m c w = (r, w') → same_heap w w'.
Proof.
  intros Hbound. pose proof same_heap_preorder. unfold save_view_groups.
  apply bind_preserves; [apply _|apply lift_preserves, _|].
  intros view. apply bind_preserves; [apply _|intros ???; apply h5_create_same_heap|].
  intros _. apply forM_preserves; [apply _|].
  intros g w1 r1 w1' _. unfold bind at 1, lift at 1.
  destruct (sm_mask sm !! m) as [attr|] eqn:Hm.
  - rewrite (Hbound _ _ Hm). cbn [of_option]. cbv beta iota delta [ok].
    unfold bind, lift. simpl. intros [= <- <-]. reflexivity.
  - simpl. intros [= <- <-]. reflexivity.
Qed.

Lemma save_node_method sm n nd w r w' :
  (∀ m a, sm_mask sm !! m = Some a → a = BoundMethod) →
  save_node sm n nd w = (r, w') → same_heap w w'.
Proof.
  intros Hbound. pose proof same_heap_preorder. unfold save_node.
  apply bind_preserves; [apply _|intros ???; apply h5_create_same_heap|].
  intros _. destruct nd as [ch|e].
  - apply forM_preserves; [apply _|].
    intros [m c] w1 r1 w1' _. simpl.
    destruct (bool_decide (n ∈ multigroup_nodes)).
    + apply save_view_groups_method, Hbound.
    + unfold save_view.
      apply bind_preserves; [apply _|apply lift_preserves, _|].
      intros view. apply bind_preserves; [apply _|apply read_arr_same_heap|].
      intros a w3 r3 w3'. apply h5_create_same_heap.
  - destruct (bool_decide (n ∈ multigroup_nodes)).
    + apply forM_preserves; [apply _|]. intros g w1 r1 w1' _.
      apply bind_preserves; [apply _|apply read_arr_same_heap|].
      intros a. apply bind_preserves; [apply _|apply lift_preserves, _|].
      intros rows w2 r2 w2'. apply h5_create_same_heap.
    + apply bind_preserves; [apply _|apply read_arr_same_heap|].
      intros a w2 r2 w2'. apply h5_create_same_heap.
Qed.

Lemma saveExpectations_method sm arg w r w' :
  (∀ m a, sm_mask sm !! m = Some a → a = BoundMethod) →
  saveExpectations sm arg w = (r, w') → same_heap w w'.
Proof.
  intros Hbound. pose proof same_heap_preorder. unfold saveExpectations.
  apply bind_preserves; [apply _|apply lift_preserves, _|].
  intros names. apply bind_preserves; [apply _|intros ???; apply h5_create_same_heap|].
  intros _. apply forM_preserves; [apply _|].
  intros [n nd] w1 r1 w1' _. simpl. apply save_node_method, Hbound.
Qed.

(* what the constructor keeps of observation nodes of Y_nodes.py *)
Lemma saveModel_init_method_masks (mdl : Model) (outfile : string)
    (dat : list (ndarray F)) (sg : list string) (opts mopts : nat)
    (fn : list (list string)) (vn sn : list string) (level : nat) w0 w1 sm
    (ch : list Child) :
  saveModel_init mdl outfile dat sg opts mopts fn vn sn level w0 = (ok sm, w1) →
  dget "Y" (getNodes mdl) = Some (Multiview_Node ch) →
  (∀ c, c ∈ ch → ∃ l, c = Y_Node_child l) →
  model sm = mdl ∧ groups_names sm = np_unique sg ∧
  ∀ m a, sm_mask sm !! m = Some a → a = BoundMethod.
Proof.
  intros Hinit HY Hch. revert Hinit.
  unfold saveModel_init, bind, assert, lift, ret, throw, h5py_File_w, dsub.
  destruct (trained mdl); [|discriminate]. cbv beta iota delta [ok].
  rewrite HY. cbn [of_option]. cbv beta iota delta [ok].
  destruct (mapR _ ch) as [|masks] eqn:Hm; [discriminate|].
  destruct (dat !! 0) as [d0|]; [|discriminate].
  cbn [of_option]. cbv beta iota delta [ok].
  destruct (bool_decide _); [|discriminate]. intros [= <- _]. simpl.
  split; [reflexivity|]. split; [reflexivity|].
  intros m a Ha. destruct (mapR_lookup_inv _ _ _ m a Hm Ha) as (c & Hc & Hfc).
  destruct (Hch c) as [l ->]; [apply list_elem_of_lookup; eauto|].
  simpl in Hfc. injection Hfc as <-. reflexivity.
Qed.

(** C9, as the code has it.  On a serializer constructed for a model
    whose "Y" node is made of observation nodes of [Y_nodes.py], where
    [mask] is a method, no call of [saveExpectations] overwrites
    anything: whatever the outcome, the heap, and so every expectation
    array, is exactly as before.  With at least one sample, a call that
    exports a multi-view node named in [Y, Tau, Z] that has a view does
    not complete: line 115 is refused for the first view. *)
Theorem saveExpectations_Y_Node_overwrites_nothing (mdl : Model) (outfile : string)
    (dat : list (ndarray F)) (sg : list string) (opts mopts : nat)
    (fn : list (list string)) (vn sn : list string) (level : nat) w0 w1 sm
    (ch : list Child) (arg : NodesArg) w r w' :
  saveModel_init mdl outfile dat sg opts mopts fn vn sn level w0 = (ok sm, w1) →
  dget "Y" (getNodes mdl) = Some (Multiview_Node ch) →
  (∀ c, c ∈ ch → ∃ l, c = Y_Node_child l) →
  saveExpectations sm arg w = (r, w') →
  heap w' = heap w ∧
  (∀ names n c chn,
     select_nodes arg (getNodes mdl) = ok names → n ∈ names →
     dget n (getNodes mdl) = Some (Multiview_Node (c :: chn)) →
     n ∈ multigroup_nodes → sg ≠ [] →
     r ≠ ok tt).
Proof.
  intros Hinit HY Hch Hrun.
  destruct (saveModel_init_method_masks _ _ _ _ _ _ _ _ _ _ _ _ _ _ Hinit HY Hch)
    as (Hmdl & Hgroups & Hbound).
  split; [apply (saveExpectations_method sm arg w r w' Hbound Hrun)|].
  intros names n c chn Hsel Hn Hnode Hmulti Hsg ->.
  assert ((n, Multiview_Node (c :: chn)) ∈ restrict_nodes names (getNodes (model sm)))
    as Hexp.
  { apply restrict_nodes_elem. rewrite Hmdl. split; assumption. }
  rewrite <- Hmdl in Hsel.
  destruct (saveExpectations_node _ _ _ _ _ _ _ Hrun Hsel Hexp) as (w2 & w3 & _ & Hx & _).
  apply save_node_start in Hx as (w4 & _ & Hx).
  rewrite bool_decide_eq_true_2 in Hx by exact Hmulti.
  assert ((0, c) ∈ imap pair (c :: chn)) as Hmc
    by (apply (elem_of_lookup_imap_2 pair); reflexivity).
  destruct (forM_elem _ _ _ _ _ Hx Hmc) as (l1 & l2 & w5 & w6 & _ & _ & Hview & _).
  simpl in Hview. apply save_view_groups_mask in Hview as [msk Hmsk].
  - apply Hbound in Hmsk. discriminate Hmsk.
  - rewrite Hgroups. apply np_unique_nonempty, Hsg.
Qed.

End method_masks.

(* the call on the small model: the index is refused, the Tau array holds
   what it held *)
Example ex_saved_Tau_Y_Node :
  saveExpectations ex_sm_Y_Node_Tau (ArgList ["Tau"]) (ex_world1 ex_train_opts)
  = (raise IndexError,
     {| heap := ex_heap ex_train_opts;
        files := [("out.hdf5", [(["expectations"], H5Group);
                                (["expectations"; "Tau"], H5Group);
                                (["expectations"; "Tau"; "view0"], H5Group)])] |}).
Proof. reflexivity. Qed.

Lemma saveExpectations_Y_Node_overwrites_nothing_witness :
  let w := ex_world1 ex_train_opts in
  let w' := (saveExpectations ex_sm_Y_Node_Tau (ArgList ["Tau"]) w).2 in
  heap w' = heap w ∧
  (∀ names n c chn,
     select_nodes (ArgList ["Tau"]) (getNodes ex_model_Y_Node_Tau) = ok names →
     n ∈ names →
     dget n (getNodes ex_model_Y_Node_Tau) = Some (Multiview_Node (c :: chn)) →
     n ∈ multigroup_nodes → ex_groups ≠ [] →
     raise IndexError ≠ ok tt).
Proof.
  intros w w'.
  apply (saveExpectations_Y_Node_overwrites_nothing ex_model_Y_Node_Tau "out.hdf5"
           [ex_Y_raw] ex_groups 0 0 [["f0"; "f1"]] ["view0"] ["s0"; "s1"; "s2"] 9
           (ex_world0 ex_train_opts) (ex_world1 ex_train_opts) ex_sm_Y_Node_Tau
           [Y_Node_child 1] (ArgList ["Tau"]) w (raise IndexError) w').
  - reflexivity.
  - reflexivity.
  - intros c Hc. elem_cases Hc. subst c. exists 1. reflexivity.
  - reflexivity.
Defined.
